(** * Harvey: the perception-decision-action loop of [harvey.py]

    A shallow embedding of the desktop-automation core of [src/harvey.py]
    (coordinate mapping, calibration, pointer motion, click entry points,
    reply parsing, the rate-limit fallback, command dispatch and the
    control loop) together with the properties its specification states.

    Modelling conventions.
    - Python [int] is [Z].  A Python [float] is [pyfloat]: a rational, an
      infinity or NaN.  Finite arithmetic is carried out exactly on [Q];
      binary64 rounding of intermediate products is not modelled.
    - Python [str] is [string] (a byte string); the text handled here
      (command names, labels, digits) is ASCII.
    - Code with side effects lives in the monad [M]: a state monad over
      [World] whose results are either a value or a raised exception.
      Whatever the program asks of its surroundings (pointer location,
      frontmost process, reasoning replies, screen captures) is answered by
      oracles stored in the world, indexed by the number of earlier
      requests of the same kind.  Events posted to the OS, sleeps and
      collaborator calls are appended to [w_log].
    - Quartz calls and file writes are taken to succeed.  [.env] is kept as
      the list of its lines.  [load_dotenv] belongs to the python-dotenv
      package and is modelled on plain [KEY=value] lines.
    - [Harvey.run] returns [None]; its model returns the transcript of the
      loop instead, so that its iterations can be spoken about.
    - [print], narration audio and the advisory mouse trail are not part of
      the model. *)

From Stdlib Require Import ZArith QArith Qround String Ascii List Lia Bool.
From Stdlib Require Import DecimalString DecimalPos DecimalZ Lqa Qpower.
From stdpp Require Import base gmap strings list.
Import ListNotations.

Open Scope Z_scope.
Open Scope string_scope.

(** ** Python floats *)

Inductive pyfloat : Type :=
| Finite (q : Q)
| Infinite (negative : bool)
| NaN.

Definition Qlt_bool (a b : Q) : bool := negb (Qle_bool b a).

(** [a < b] on floats; every comparison with NaN is false. *)
Definition flt (a b : pyfloat) : bool :=
  match a, b with
  | NaN, _ | _, NaN => false
  | Finite p, Finite q => Qlt_bool p q
  | Finite _, Infinite neg => negb neg
  | Infinite neg, Finite _ => neg
  | Infinite n1, Infinite n2 => n1 && negb n2
  end.

(** The builtins [min(a, b)] and [max(a, b)]: the first argument is kept
    unless the second compares strictly smaller (resp. greater). *)
Definition py_min (a b : pyfloat) : pyfloat := if flt b a then b else a.
Definition py_max (a b : pyfloat) : pyfloat := if flt a b then b else a.

Definition Qsign_neg (q : Q) : bool := Qlt_bool q 0.

Definition fmul (a b : pyfloat) : pyfloat :=
  match a, b with
  | NaN, _ | _, NaN => NaN
  | Finite p, Finite q => Finite (p * q)
  | Finite p, Infinite neg | Infinite neg, Finite p =>
      if Qeq_bool p 0 then NaN else Infinite (xorb neg (Qsign_neg p))
  | Infinite n1, Infinite n2 => Infinite (xorb n1 n2)
  end.

Definition fadd (a b : pyfloat) : pyfloat :=
  match a, b with
  | NaN, _ | _, NaN => NaN
  | Finite p, Finite q => Finite (p + q)
  | Finite _, Infinite neg | Infinite neg, Finite _ => Infinite neg
  | Infinite n1, Infinite n2 => if Bool.eqb n1 n2 then Infinite n1 else NaN
  end.

Definition float_of_int (z : Z) : pyfloat := Finite (inject_Z z).

(** [round(x)] on a rational: nearest integer, ties to the even one. *)
Definition round_half_even (q : Q) : Z :=
  let f := Qfloor q in
  match (q - inject_Z f ?= 1 # 2)%Q with
  | Lt => f
  | Gt => f + 1
  | Eq => if Z.even f then f else f + 1
  end.

(** [int(x)] on a rational: truncation toward zero. *)
Definition Qtrunc (q : Q) : Z :=
  if Qle_bool 0 q then Qfloor q else Qceiling q.

(** [round(x)] and [int(x)] raise on NaN and on the infinities; [None]
    stands for the raised exception. *)
Definition py_round (x : pyfloat) : option Z :=
  match x with Finite q => Some (round_half_even q) | _ => None end.

Definition py_int (x : pyfloat) : option Z :=
  match x with Finite q => Some (Qtrunc q) | _ => None end.

(** ** Python strings *)

Definition is_space (c : ascii) : bool :=
  let n := nat_of_ascii c in
  ((9 <=? n) && (n <=? 13) || (28 <=? n) && (n <=? 32))%nat.

Definition is_digit (c : ascii) : bool :=
  let n := nat_of_ascii c in ((48 <=? n) && (n <=? 57))%nat.

Definition is_upper (c : ascii) : bool :=
  let n := nat_of_ascii c in ((65 <=? n) && (n <=? 90))%nat.

Definition lower_char (c : ascii) : ascii :=
  if is_upper c then ascii_of_nat (nat_of_ascii c + 32) else c.

Fixpoint str_lower (s : string) : string :=
  match s with
  | EmptyString => EmptyString
  | String c r => String (lower_char c) (str_lower r)
  end.

Fixpoint str_rev_onto (s acc : string) : string :=
  match s with
  | EmptyString => acc
  | String c r => str_rev_onto r (String c acc)
  end.

Definition str_rev (s : string) : string := str_rev_onto s EmptyString.

Fixpoint str_lstrip (s : string) : string :=
  match s with
  | EmptyString => EmptyString
  | String c r => if is_space c then str_lstrip r else s
  end.

Definition str_rstrip (s : string) : string := str_rev (str_lstrip (str_rev s)).

(** [s.strip()] *)
Definition str_strip (s : string) : string := str_rstrip (str_lstrip s).

(** [s.startswith(p)] *)
Definition startswith (s p : string) : bool := String.prefix p s.

(** [sub in s] *)
Fixpoint str_contains (sub s : string) : bool :=
  String.prefix sub s ||
  match s with
  | EmptyString => false
  | String _ r => str_contains sub r
  end.

(** [s[n:]] *)
Fixpoint str_drop (n : nat) (s : string) : string :=
  match n, s with
  | O, _ => s
  | S n', String _ r => str_drop n' r
  | S _, EmptyString => EmptyString
  end.

(** [s.split(sep)] for a one-character separator. *)
Fixpoint str_split (sep : ascii) (s : string) : list string :=
  match s with
  | EmptyString => [EmptyString]
  | String c r =>
      if Ascii.eqb c sep then EmptyString :: str_split sep r
      else match str_split sep r with
           | h :: t => String c h :: t
           | [] => [String c EmptyString]
           end
  end.

(** [s.replace(c, empty)] for a one-character [c]. *)
Fixpoint str_remove (c : ascii) (s : string) : string :=
  match s with
  | EmptyString => EmptyString
  | String d r => if Ascii.eqb d c then str_remove c r else String d (str_remove c r)
  end.

Definition truthy (s : string) : bool :=
  match s with EmptyString => false | _ => true end.

(** [str(z)] for an integer. *)
Definition str_of_int (z : Z) : string := NilZero.string_of_int (Z.to_int z).

(** *** [float(s)] *)

Definition digit_val (c : ascii) : Z := Z.of_nat (nat_of_ascii c) - 48.

(** Reads the longest run of digits at the head of [s]: the number read on
    top of [acc], how many digits there were, and the rest of the text. *)
Fixpoint read_digits (s : string) (acc : Z) (n : nat) : Z * nat * string :=
  match s with
  | String c r =>
      if is_digit c then read_digits r (10 * acc + digit_val c) (S n)
      else (acc, n, s)
  | EmptyString => (acc, n, s)
  end.

Definition Qpow10 (e : Z) : Q := (inject_Z 10 ^ e)%Q.

(** The optional exponent part [e[+-]ddd] and what follows it. *)
Definition read_exponent (s : string) : option (Z * string) :=
  match s with
  | String c r =>
      if Ascii.eqb (lower_char c) "e"%char then
        let '(neg, r') :=
          match r with
          | String "-"%char r' => (true, r')
          | String "+"%char r' => (false, r')
          | _ => (false, r)
          end in
        let '(e, n, rest) := read_digits r' 0 0 in
        if Nat.eqb n 0 then None else Some (if neg then - e else e, rest)
      else Some (0, s)
  | EmptyString => Some (0, s)
  end.

(** An unsigned decimal literal [ddd[.ddd][e[+-]ddd]] covering the whole
    of [s], with a digit on at least one side of the point. *)
Definition read_decimal (s : string) : option Q :=
  let '(ip, n1, r1) := read_digits s 0 0 in
  let '(mant, n2, r2) :=
    match r1 with
    | String "."%char r => read_digits r ip 0
    | _ => (ip, O, r1)
    end in
  if Nat.eqb (n1 + n2) 0 then None
  else match read_exponent r2 with
       | Some (e, EmptyString) =>
           Some (inject_Z mant * Qpow10 (e - Z.of_nat n2))%Q
       | _ => None
       end.

(** [float(s)]: surrounding whitespace, an optional sign, then [inf],
    [infinity], [nan] (in any case) or a decimal literal.  Digit-group
    underscores are not recognised.  [None] is the [ValueError]. *)
Definition py_float (s : string) : option pyfloat :=
  let s := str_strip s in
  let '(neg, body) :=
    match s with
    | String "-"%char r => (true, r)
    | String "+"%char r => (false, r)
    | _ => (false, s)
    end in
  let low := str_lower body in
  if String.eqb low "inf" || String.eqb low "infinity" then Some (Infinite neg)
  else if String.eqb low "nan" then Some NaN
  else match read_decimal body with
       | Some q => Some (Finite (if neg then - q else q)%Q)
       | None => None
       end.

(** ** The world and the effect monad *)

(** What reaches the operating system or a collaborator, in program order. *)
Inductive Event : Type :=
| MouseMoved (x y : Z)
| LeftMouseDown (x y : Z)
| LeftMouseUp (x y : Z)
| KeyDown (key_code : Z) (flags : option Z)
| KeyUp (key_code : Z) (flags : option Z)
| ScrollWheel (vertical horizontal : Z)
| Sleep (seconds : Q)
| GetLocation
| Osascript
| GenerateContent
| Screencapture
| Narrate (action_text : string)
| DebugDump.

(** The outcome of one call of the reasoning collaborator: the reply text,
    or the [str(e)] of whatever was raised inside the [try] block. *)
Inductive LLMResult : Type :=
| Reply (text : string)
| Failure (error_str : string).

Record World : Type := mkWorld {
  w_quartz : bool;                      (* _QUARTZ_AVAILABLE *)
  w_bounds : Z * Z;                     (* CGDisplayBounds, in points *)
  w_mode : option (Z * Z);              (* display mode, in pixels *)
  w_environ : gmap string string;       (* os.environ *)
  w_dotenv : option (list string);      (* lines of .env, if it exists *)
  w_pointer : nat -> Z * Z;             (* CGEventGetLocation, per read *)
  w_pointer_reads : nat;
  w_frontmost : nat -> option string;   (* osascript stdout, None if it fails *)
  w_frontmost_reads : nat;
  w_gemini : nat -> LLMResult;          (* generate_content, per call *)
  w_gemini_calls : nat;
  w_screencapture : nat -> option string; (* capture_to_bytes, per call *)
  w_captures : nat;
  w_log : list Event
}.

Inductive exn : Type := PyError (error_str : string).

Inductive result (A : Type) : Type :=
| Ok (a : A)
| Raise (e : exn).
Arguments Ok {A} a.
Arguments Raise {A} e.

Definition M (A : Type) : Type := World -> result A * World.

Definition ret {A} (a : A) : M A := fun w => (Ok a, w).

Definition bind {A B} (m : M A) (k : A -> M B) : M B :=
  fun w => match m w with
           | (Ok a, w') => k a w'
           | (Raise e, w') => (Raise e, w')
           end.

Definition raise {A} (e : exn) : M A := fun w => (Raise e, w).

(** [try: body  except Exception as e: handler e] *)
Definition try_catch {A} (body : M A) (handler : exn -> M A) : M A :=
  fun w => match body w with
           | (Ok a, w') => (Ok a, w')
           | (Raise e, w') => handler e w'
           end.

Notation "x <- c1 ;; c2" := (bind c1 (fun x => c2))
  (at level 100, c1 at next level, right associativity).
Notation "c1 ;; c2" := (bind c1 (fun _ => c2))
  (at level 100, right associativity).

(** A computation that only reads the world; [None] is a raised error. *)
Definition reading {A} (f : World -> option A) : M A :=
  fun w => match f w with
           | Some a => (Ok a, w)
           | None => (Raise (PyError "ValueError"), w)
           end.

(** The world with [evs] appended to its log. *)
Definition log_append (evs : list Event) (w : World) : World :=
  mkWorld (w_quartz w) (w_bounds w) (w_mode w) (w_environ w)
          (w_dotenv w) (w_pointer w) (w_pointer_reads w)
          (w_frontmost w) (w_frontmost_reads w) (w_gemini w)
          (w_gemini_calls w) (w_screencapture w) (w_captures w)
          (w_log w ++ evs).

Definition emit (e : Event) : M unit :=
  fun w => (Ok tt, log_append [e] w).

(** Reads a value off the world without changing it. *)
Definition asks {A} (f : World -> A) : M A := fun w => (Ok (f w), w).

(** [time.sleep(seconds)] *)
Definition sleep (seconds : Q) : M unit := emit (Sleep seconds).

(** [for x in xs: body x] *)
Fixpoint for_each {A} (xs : list A) (body : A -> M unit) : M unit :=
  match xs with
  | [] => ret tt
  | x :: rest => body x ;; for_each rest body
  end.

(** ** Coordinate mapper *)

Definition get_screen_info (w : World) : Z * Z * Q :=
  if w_quartz w then
    let '(logical_width, logical_height) := w_bounds w in
    let pixel_width :=
      match w_mode w with Some (pw, _) => pw | None => logical_width end in
    let scale :=
      if Z.eqb logical_width 0 then 1%Q
      else (inject_Z pixel_width / inject_Z logical_width)%Q in
    (logical_width, logical_height, scale)
  else (1920, 1080, 1%Q).

Definition get_screen_size (w : World) : Z * Z :=
  let '(width, height, _) := get_screen_info w in (width, height).

(** [max(0.0, min(1.0, float(r)))] *)
Definition clamp01 (r : pyfloat) : pyfloat :=
  py_max (Finite 0) (py_min (Finite 1) r).

Definition _transform_coords (w : World) (x_ratio y_ratio : pyfloat)
  : option (Z * Z) :=
  let '(width, height, scale) := get_screen_info w in
  let x_ratio := clamp01 x_ratio in
  let y_ratio := clamp01 y_ratio in
  match py_round (fmul x_ratio (float_of_int (width - 1))) with
  | Some x =>
      match py_round (fmul y_ratio (float_of_int (height - 1))) with
      | Some y => Some (x, y)
      | None => None
      end
  | None => None
  end.

(** ** Calibration *)

Definition getenv (w : World) (key default : string) : string :=
  match w_environ w !! key with Some v => v | None => default end.

Definition calibrate_click_position (w : World) (x y : Z) : option (Z * Z) :=
  let '(offset_x, offset_y) :=
    match py_float (getenv w "HARVEY_X_OFFSET" "0") with
    | Some ox =>
        match py_float (getenv w "HARVEY_Y_OFFSET" "0") with
        | Some oy => (ox, oy)
        | None => (Finite 0, Finite 0)
        end
    | None => (Finite 0, Finite 0)
    end in
  match py_int (fadd (float_of_int x) offset_x) with
  | Some x' =>
      match py_int (fadd (float_of_int y) offset_y) with
      | Some y' => Some (x', y')
      | None => None
      end
  | None => None
  end.

(** ** Motion controller *)

(** The world after one more reading of the pointer location. *)
Definition pointer_read (w : World) : World :=
  mkWorld (w_quartz w) (w_bounds w) (w_mode w) (w_environ w)
          (w_dotenv w) (w_pointer w) (S (w_pointer_reads w))
          (w_frontmost w) (w_frontmost_reads w) (w_gemini w)
          (w_gemini_calls w) (w_screencapture w) (w_captures w)
          (w_log w ++ [GetLocation]).

Definition get_current_mouse_position : M (Z * Z) :=
  fun w =>
    if w_quartz w then (Ok (w_pointer w (w_pointer_reads w)), pointer_read w)
    else (Ok (100, 100), w).

(** The body of the loop of [smooth_move_mouse] at index [i]: the point of
    the eased quadratic Bezier curve that is posted. *)
Definition bezier_point (steps i start_x start_y end_x end_y : Z) : Z * Z :=
  let t := (inject_Z i / inject_Z steps)%Q in
  let t_smooth := (t * t * (3 - 2 * t))%Q in
  let control_x :=
    (inject_Z (start_x + end_x) / 2 + inject_Z (end_y - start_y) * 0.1)%Q in
  let control_y :=
    (inject_Z (start_y + end_y) / 2 - inject_Z (end_x - start_x) * 0.1)%Q in
  let x := Qtrunc ((1 - t_smooth) ^ 2 * inject_Z start_x
                   + 2 * (1 - t_smooth) * t_smooth * control_x
                   + t_smooth ^ 2 * inject_Z end_x)%Q in
  let y := Qtrunc ((1 - t_smooth) ^ 2 * inject_Z start_y
                   + 2 * (1 - t_smooth) * t_smooth * control_y
                   + t_smooth ^ 2 * inject_Z end_y)%Q in
  (x, y).

(** The squared length of the displacement: [distance] is its square root. *)
Definition distance_sq (start_x start_y end_x end_y : Z) : Z :=
  (end_x - start_x) ^ 2 + (end_y - start_y) ^ 2.

(** [max(10, int(distance / 15))], with [int(sqrt(n) / 15)] computed as
    [floor(sqrt n) / 15] on integers. *)
Definition move_steps (start_x start_y end_x end_y : Z) : Z :=
  Z.max 10 (Z.sqrt (distance_sq start_x start_y end_x end_y) / 15).

(** [range(n)] *)
Definition range (n : Z) : list Z := map Z.of_nat (seq 0 (Z.to_nat n)).

(** [distance < 5] is decided on the squared distance. *)
Definition smooth_move_mouse (start_x start_y end_x end_y : Z) : M unit :=
  quartz <- asks w_quartz ;;
  if negb quartz then ret tt
  else if Z.ltb (distance_sq start_x start_y end_x end_y) 25 then ret tt
  else
    let steps := move_steps start_x start_y end_x end_y in
    for_each (range (steps + 1)) (fun i =>
      let '(x, y) := bezier_point steps i start_x start_y end_x end_y in
      emit (MouseMoved x y) ;;
      sleep 0.01).

(** The events [smooth_move_mouse] posts when Quartz is available. *)
Definition move_trace (start_x start_y end_x end_y : Z) : list Event :=
  if Z.ltb (distance_sq start_x start_y end_x end_y) 25 then []
  else
    let steps := move_steps start_x start_y end_x end_y in
    flat_map (fun i =>
                let '(x, y) := bezier_point steps i start_x start_y end_x end_y in
                [MouseMoved x y; Sleep 0.01])
             (range (steps + 1)).

Definition move_mouse (x_ratio y_ratio : pyfloat) : M unit :=
  quartz <- asks w_quartz ;;
  if negb quartz then ret tt
  else
    xy <- reading (fun w => _transform_coords w x_ratio y_ratio) ;;
    cur <- get_current_mouse_position ;;
    smooth_move_mouse (fst cur) (snd cur) (fst xy) (snd xy).

(** ** Input executor *)

Definition kCGEventFlagMaskCommand : Z := 1048576.

Definition key_codes : gmap string Z :=
  list_to_map
    [("space", 49); ("return", 36); ("enter", 36); ("tab", 48);
     ("a", 0); ("b", 11); ("c", 8); ("d", 2); ("e", 14); ("f", 3); ("g", 5);
     ("h", 4); ("i", 34); ("j", 38); ("k", 40); ("l", 37); ("m", 46);
     ("n", 45); ("o", 31); ("p", 35); ("q", 12); ("r", 15); ("s", 1);
     ("t", 17); ("u", 32); ("v", 9); ("w", 13); ("x", 7); ("y", 16); ("z", 6);
     ("1", 18); ("2", 19); ("3", 20); ("4", 21); ("5", 23); ("6", 22);
     ("7", 26); ("8", 28); ("9", 25); ("0", 29)].

Definition str_in (x : string) (l : list string) : bool :=
  existsb (String.eqb x) l.

(** [parts[:-1]] and [parts[-1]] of a non-empty list. *)
Definition init_last (parts : list string) : list string * string :=
  (removelast parts, List.last parts EmptyString).

Definition press (key_code : Z) (down_flags up_flags : option Z) : M unit :=
  emit (KeyDown key_code down_flags) ;;
  sleep 0.02 ;;
  emit (KeyUp key_code up_flags).

Definition hotkey (key_combo : string) : M unit :=
  quartz <- asks w_quartz ;;
  if negb quartz then ret tt
  else
    try_catch
      (if str_contains "+" key_combo then
         let '(modifiers, key) := init_last (str_split "+"%char key_combo) in
         let key := str_lower key in
         match key_codes !! key with
         | Some key_code =>
             let flags := 0 in
             let flags :=
               if str_in "cmd" modifiers || str_in "command" modifiers
               then Z.lor flags kCGEventFlagMaskCommand else flags in
             let flags :=
               if str_in "shift" modifiers then Z.lor flags 131072 else flags in
             let flags :=
               if str_in "alt" modifiers || str_in "option" modifiers
               then Z.lor flags 524288 else flags in
             let flags :=
               if str_in "ctrl" modifiers || str_in "control" modifiers
               then Z.lor flags 262144 else flags in
             if Z.eqb flags 0 then press key_code None None
             else press key_code (Some flags) (Some 0)
         | None => ret tt
         end
       else
         match key_codes !! str_lower key_combo with
         | Some key_code => press key_code None None
         | None => ret tt
         end)
      (fun _ => ret tt).

Definition key_map : gmap string (option Z) :=
  list_to_map
    [(" ", Some 49); ("a", Some 0); ("b", Some 11); ("c", Some 8);
     ("d", Some 2); ("e", Some 14); ("f", Some 3); ("g", Some 5);
     ("h", Some 4); ("i", Some 34); ("j", Some 38); ("k", Some 40);
     ("l", Some 37); ("m", Some 46); ("n", Some 45); ("o", Some 31);
     ("p", Some 35); ("q", Some 12); ("r", Some 15); ("s", Some 1);
     ("t", Some 17); ("u", Some 32); ("v", Some 9); ("w", Some 13);
     ("x", Some 7); ("y", Some 16); ("z", Some 6);
     ("1", Some 18); ("2", Some 19); ("3", Some 20); ("4", Some 21);
     ("5", Some 23); ("6", Some 22); ("7", Some 26); ("8", Some 28);
     ("9", Some 25); ("0", Some 29);
     (".", Some 47); ("/", Some 44); ("-", Some 27); ("=", Some 24);
     (",", Some 43); ("(", None); (")", None); ("+", None); (";", Some 41);
     ("'", Some 39); ("[", Some 33); ("]", Some 30); ("\", Some 42);
     ("`", Some 50)].

Definition chars (s : string) : list ascii := list_ascii_of_string s.

Definition type_text (text : string) : M unit :=
  quartz <- asks w_quartz ;;
  if negb quartz then ret tt
  else
    for_each (chars text) (fun char =>
      match key_map !! String (lower_char char) EmptyString with
      | Some None => ret tt
      | Some (Some key_code) =>
          try_catch
            (let down_flags := if is_upper char then 131072 else 0 in
             emit (KeyDown key_code (Some down_flags)) ;;
             sleep 0.02 ;;
             emit (KeyUp key_code (Some 0)) ;;
             sleep 0.03)
            (fun _ => ret tt) ;;
          sleep 0.02
      | None => sleep 0.02
      end).

Definition scroll_direction (clicks : Z) : gmap string (Z * Z) :=
  list_to_map
    [("down", (clicks, 0)); ("up", (- clicks, 0));
     ("right", (0, clicks)); ("left", (0, - clicks))].

Definition scroll (direction : string) : M unit :=
  quartz <- asks w_quartz ;;
  if negb quartz then ret tt
  else
    match scroll_direction 5 !! str_lower direction with
    | None => ret tt
    | Some (vertical, horizontal) =>
        try_catch (emit (ScrollWheel vertical horizontal)) (fun _ => ret tt)
    end.

(** ** Click entry points *)

(** What [_is_spotlight_active] makes of the answer of [osascript]; a
    failing query counts as a no. *)
Definition spotlight_frontmost (answer : option string) : bool :=
  match answer with
  | Some stdout =>
      let frontmost := str_strip stdout in
      String.eqb frontmost "Spotlight" || str_contains "Spotlight" frontmost
  | None => false
  end.

(** The world after one more frontmost-process query. *)
Definition frontmost_read (w : World) : World :=
  mkWorld (w_quartz w) (w_bounds w) (w_mode w) (w_environ w)
          (w_dotenv w) (w_pointer w) (w_pointer_reads w)
          (w_frontmost w) (S (w_frontmost_reads w)) (w_gemini w)
          (w_gemini_calls w) (w_screencapture w) (w_captures w)
          (w_log w ++ [Osascript]).

Definition _is_spotlight_active : M bool :=
  fun w =>
    (Ok (spotlight_frontmost (w_frontmost w (w_frontmost_reads w))),
     frontmost_read w).

Definition _handle_spotlight_click (x_ratio y_ratio : pyfloat) : M unit :=
  hotkey "return".

(** [abs(a - b) > tol or abs(c - d) > tol] *)
Definition drifted (tol : Z) (final target : Z * Z) : bool :=
  Z.ltb tol (Z.abs (fst final - fst target)) ||
  Z.ltb tol (Z.abs (snd final - snd target)).

Definition ultra_precise_click (x_ratio y_ratio : pyfloat) : M unit :=
  quartz <- asks w_quartz ;;
  if negb quartz then
    reading (fun w => _transform_coords w x_ratio y_ratio) ;;
    ret tt
  else
    spotlight <- _is_spotlight_active ;;
    if spotlight then hotkey "return"
    else
      xy <- reading (fun w => _transform_coords w x_ratio y_ratio) ;;
      xy <- reading (fun w => calibrate_click_position w (fst xy) (snd xy)) ;;
      cur <- get_current_mouse_position ;;
      smooth_move_mouse (fst cur) (snd cur) (fst xy) (snd xy) ;;
      sleep 0.15 ;;
      final <- get_current_mouse_position ;;
      (if drifted 5 final xy then
         smooth_move_mouse (fst final) (snd final) (fst xy) (snd xy) ;;
         sleep 0.05
       else ret tt) ;;
      click <- get_current_mouse_position ;;
      try_catch
        (emit (LeftMouseDown (fst click) (snd click)) ;;
         sleep 0.05 ;;
         emit (LeftMouseUp (fst click) (snd click)))
        (fun _ => ret tt).

Definition precise_click (x_ratio y_ratio : pyfloat) : M unit :=
  ultra_precise_click x_ratio y_ratio.

Definition left_click (x_ratio y_ratio : pyfloat) : M unit :=
  ultra_precise_click x_ratio y_ratio.

Definition double_click (x_ratio y_ratio : pyfloat) : M unit :=
  quartz <- asks w_quartz ;;
  if negb quartz then
    reading (fun w => _transform_coords w x_ratio y_ratio) ;;
    ret tt
  else
    xy <- reading (fun w => _transform_coords w x_ratio y_ratio) ;;
    xy <- reading (fun w => calibrate_click_position w (fst xy) (snd xy)) ;;
    cur <- get_current_mouse_position ;;
    smooth_move_mouse (fst cur) (snd cur) (fst xy) (snd xy) ;;
    sleep 0.2 ;;
    final <- get_current_mouse_position ;;
    (if drifted 2 final xy then
       smooth_move_mouse (fst final) (snd final) (fst xy) (snd xy) ;;
       sleep 0.1
     else ret tt) ;;
    try_catch
      (for_each (range 2) (fun _ =>
         emit (LeftMouseDown (fst xy) (snd xy)) ;;
         sleep 0.05 ;;
         emit (LeftMouseUp (fst xy) (snd xy)) ;;
         sleep 0.1))
      (fun _ => ret tt).

Definition hover (x_ratio y_ratio : pyfloat) : M unit :=
  quartz <- asks w_quartz ;;
  if negb quartz then
    reading (fun w => _transform_coords w x_ratio y_ratio) ;;
    ret tt
  else
    xy <- reading (fun w => _transform_coords w x_ratio y_ratio) ;;
    cur <- get_current_mouse_position ;;
    smooth_move_mouse (fst cur) (snd cur) (fst xy) (snd xy) ;;
    sleep 0.5.

Definition click_at (x y : Z) : list Event :=
  [LeftMouseDown x y; Sleep 0.05; LeftMouseUp x y].

(** The events of the corrective move of a click entry point with
    tolerance [tol], followed by its pause. *)
Definition correction (tol : Z) (pause : Q) (final target : Z * Z) : list Event :=
  if drifted tol final target
  then (move_trace (fst final) (snd final) (fst target) (snd target)
        ++ [Sleep pause])%list
  else [].

(** The events a run of [m] adds to the log of [w]. *)
Definition emitted {A} (m : M A) (w : World) : list Event :=
  drop (length (w_log w)) (w_log (snd (m w))).

(** The points of the pointer-move events of a trace, in order. *)
Fixpoint moved_points (evs : list Event) : list (Z * Z) :=
  match evs with
  | [] => []
  | MouseMoved x y :: rest => (x, y) :: moved_points rest
  | _ :: rest => moved_points rest
  end.

(** ** Planner *)

(** The one-character string holding a double quote. *)
Definition dquote : string := String "034"%char EmptyString.

(** The longest prefix of [s] whose characters satisfy [p], and the rest. *)
Fixpoint str_span (p : ascii -> bool) (s : string) : string * string :=
  match s with
  | String c r =>
      if p c then let '(a, b) := str_span p r in (String c a, b)
      else (EmptyString, s)
  | EmptyString => (EmptyString, EmptyString)
  end.

(** [re.search(pattern, s)], given the matcher of [pattern] at the head of
    a text: the leftmost position where it succeeds. *)
Fixpoint re_search {A} (match_at : string -> option A) (s : string) : option A :=
  match match_at s with
  | Some g => Some g
  | None =>
      match s with
      | EmptyString => None
      | String _ r => re_search match_at r
      end
  end.

(** The retry-delay pattern at the head of [s]: the words
    [Please retry in ], a group of one or more digits, an optional point
    and further digits, then the letter [s].  Returns the group. *)
Definition match_retry_at (s : string) : option string :=
  if String.prefix "Please retry in " s then
    let '(d1, rest) := str_span is_digit (str_drop 16 s) in
    if truthy d1 then
      match rest with
      | String "s"%char _ => Some d1
      | String "."%char rest' =>
          let '(d2, rest'') := str_span is_digit rest' in
          match rest'' with
          | String "s"%char _ => Some (d1 ++ "." ++ d2)
          | _ => None
          end
      | _ => None
      end
    else None
  else None.

Definition fallback_commands : list string :=
  ["left_click"; "type_text"; "bulk_type"; "hotkey"; "done"; "wait"; "scroll"].

(** The loop over the reply lines: [(see_line, think_line, action)] when
    it ends.  [action] is empty for as long as the loop runs, since every
    assignment to it is followed by [break]. *)
Fixpoint scan_lines (lines : list string) (see_line think_line : string)
  : string * string * string :=
  match lines with
  | [] => (see_line, think_line, EmptyString)
  | line :: rest =>
      let line := str_strip line in
      if startswith line "See:" then
        scan_lines rest (str_strip (str_drop 4 line)) think_line
      else if startswith line "Think:" then
        scan_lines rest see_line (str_strip (str_drop 6 line))
      else if startswith line "Action:" then
        (see_line, think_line, str_strip (str_drop 7 line))
      else if startswith line "**See:**" then
        scan_lines rest (str_strip (str_drop 8 line)) think_line
      else if startswith line "**Think:**" then
        scan_lines rest see_line (str_strip (str_drop 9 line))
      else if startswith line "**Action:**" then
        (see_line, think_line, str_strip (str_drop 11 line))
      else if negb (truthy see_line) && negb (truthy think_line)
              && truthy line && negb (startswith line "**") then
        if existsb (fun cmd => str_contains cmd line) fallback_commands
        then (see_line, think_line, line)
        else scan_lines rest see_line think_line
      else scan_lines rest see_line think_line
  end.

(** [response.text.strip().split(newline)] *)
Definition reply_lines (text : string) : list string :=
  let response_text := str_strip text in
  str_split "010"%char response_text.

(** From the reply text to the action line that [think] returns. *)
Definition parse_reply (text : string) : string :=
  let lines := reply_lines text in
  let '(see_line, think_line, action) := scan_lines lines EmptyString EmptyString in
  let action :=
    if truthy action then str_strip (str_remove "`"%char action) else action in
  if truthy action then action else "wait(1000)".

(** Lines that carry the action label, plain or bold. *)
Definition is_action_line (line : string) : bool :=
  startswith (str_strip line) "Action:" || startswith (str_strip line) "**Action:**".

(** A stripped line that starts with one of the six labels. *)
Definition is_label (s : string) : bool :=
  startswith s "See:" || startswith s "Think:" || startswith s "Action:"
  || startswith s "**See:**" || startswith s "**Think:**"
  || startswith s "**Action:**".

(** A stripped line the fallback takes for a command: not empty, not
    starting with two asterisks, and containing one of the fallback
    command names. *)
Definition looks_like_command (s : string) : bool :=
  truthy s && negb (startswith s "**")
  && existsb (fun cmd => str_contains cmd s) fallback_commands.

(** The call of the reasoning collaborator, with everything else the [try]
    block does before the reply is parsed. *)
Definition generate_content : M string :=
  fun w =>
    let w' :=
      mkWorld (w_quartz w) (w_bounds w) (w_mode w) (w_environ w)
              (w_dotenv w) (w_pointer w) (w_pointer_reads w)
              (w_frontmost w) (w_frontmost_reads w) (w_gemini w)
              (S (w_gemini_calls w)) (w_screencapture w) (w_captures w)
              (w_log w ++ [GenerateContent]) in
    match w_gemini w (w_gemini_calls w) with
    | Reply text => (Ok text, w')
    | Failure error_str => (Raise (PyError error_str), w')
    end.

Definition rate_limited (error_str : string) : bool :=
  str_contains "429" error_str || str_contains "RESOURCE_EXHAUSTED" error_str.

(** The action returned after a rate-limit wait. *)
Definition fallback_action (task : string) : string :=
  if str_contains "safari" (str_lower task) || str_contains "browser" (str_lower task)
  then if str_contains "search" (str_lower task)
       then "hotkey(" ++ dquote ++ "cmd+t" ++ dquote ++ ")"
       else "done()"
  else "done()".

(** [Harvey.think]: the action line for this step.  The handler is the
    [except Exception] clause; [error_str] is [str(e)]. *)
Definition think (task screenshot_data : string) : M string :=
  try_catch
    (text <- generate_content ;;
     ret (parse_reply text))
    (fun e =>
       let 'PyError error_str := e in
       if rate_limited error_str then
         match re_search match_retry_at error_str with
         | Some group =>
             match py_float group with
             | Some (Finite delay) => sleep (delay + 1)
             | _ => raise (PyError "ValueError")
             end
         | None => sleep 10
         end ;;
         ret (fallback_action task)
       else ret "done()").

(** ** Action grammar *)

Definition is_ratio_char (c : ascii) : bool := is_digit c || Ascii.eqb c "."%char.

(** The coordinate-pair pattern at the head of [s]: an opening bracket, a
    run of digits and points, a comma, optional whitespace, a second run
    and a closing bracket.  Returns both runs. *)
Definition match_coords_at (s : string) : option (string * string) :=
  match s with
  | String "("%char r =>
      let '(a, r1) := str_span is_ratio_char r in
      if truthy a then
        match r1 with
        | String ","%char r2 =>
            let '(b, r3) := str_span is_ratio_char (str_lstrip r2) in
            if truthy b then
              match r3 with
              | String ")"%char _ => Some (a, b)
              | _ => None
              end
            else None
        | _ => None
        end
      else None
  | _ => None
  end.

(** [None] where the source returns [None]; raises where [float] does. *)
Definition _extract_coords (text : string) : M (option (pyfloat * pyfloat)) :=
  match re_search match_coords_at text with
  | Some (gx, gy) =>
      ratio_x <- reading (fun _ => py_float gx) ;;
      ratio_y <- reading (fun _ => py_float gy) ;;
      ret (Some (clamp01 ratio_x, clamp01 ratio_y))
  | None => ret None
  end.

Definition not_dquote (c : ascii) : bool := negb (Ascii.eqb c "034"%char).

(** The first double-quoted substring, without its quotes. *)
Definition match_text_at (s : string) : option string :=
  match s with
  | String "034"%char r =>
      let '(g, rest) := str_span not_dquote r in
      match rest with
      | String "034"%char _ => Some g
      | _ => None
      end
  | _ => None
  end.

Definition _extract_text (text : string) : option string :=
  re_search match_text_at text.

(** A bracketed run of digits at the head of [s], as an integer. *)
Definition match_number_at (s : string) : option Z :=
  match s with
  | String "("%char r =>
      let '(n, count, rest) := read_digits r 0 0 in
      if Nat.eqb count 0 then None
      else match rest with
           | String ")"%char _ => Some n
           | _ => None
           end
  | _ => None
  end.

Definition _extract_number (text : string) : option Z :=
  re_search match_number_at text.

(** ** Workflows *)

(** [enumerate(lines)] with the test [i < len(lines) - 1] already taken. *)
Fixpoint bulk_lines (lines : list string) : M unit :=
  match lines with
  | [] => ret tt
  | line :: rest =>
      (if truthy (str_strip line) then type_text line else ret tt) ;;
      match rest with
      | [] => ret tt
      | _ => hotkey "enter" ;; sleep 0.1 ;; bulk_lines rest
      end
  end.

Definition _bulk_type_text (text : string) : M unit :=
  bulk_lines (str_split "010"%char text).

Definition _open_app_workflow (app_name : string) : M unit :=
  hotkey "cmd+space" ;;
  sleep 1.5 ;;
  type_text app_name ;;
  sleep 0.5 ;;
  hotkey "enter" ;;
  sleep 2.0.

Definition _web_search_workflow (search_term : string) : M unit :=
  _open_app_workflow "Safari" ;;
  hotkey "cmd+t" ;;
  sleep 1.5 ;;
  type_text (search_term ++ " ") ;;
  sleep 0.5 ;;
  hotkey "enter" ;;
  sleep 2.5.

(** [if v: body v] for an optional string. *)
Definition when_text (v : option string) (body : string -> M unit) : M unit :=
  match v with
  | Some s => if truthy s then body s else ret tt
  | None => ret tt
  end.

(** [if coords: body coords[0] coords[1]] *)
Definition when_coords (v : option (pyfloat * pyfloat))
           (body : pyfloat -> pyfloat -> M unit) : M unit :=
  match v with
  | Some (x, y) => body x y
  | None => ret tt
  end.

(** The [try] block of [Harvey.execute]: [Some b] where it executes
    [return b], [None] where control falls out of the [if] chain. *)
Definition execute_body (action_text : string) : M (option bool) :=
  if startswith action_text "open_app" then
    when_text (_extract_text action_text) _open_app_workflow ;;
    ret (Some false)
  else if startswith action_text "web_search" then
    when_text (_extract_text action_text) _web_search_workflow ;;
    ret (Some false)
  else if startswith action_text "move_mouse" then
    coords <- _extract_coords action_text ;;
    when_coords coords move_mouse ;;
    ret None
  else if startswith action_text "left_click" then
    coords <- _extract_coords action_text ;;
    when_coords coords left_click ;;
    ret None
  else if startswith action_text "double_click" then
    coords <- _extract_coords action_text ;;
    when_coords coords double_click ;;
    ret None
  else if startswith action_text "hover" then
    coords <- _extract_coords action_text ;;
    when_coords coords hover ;;
    ret None
  else if startswith action_text "bulk_type" then
    when_text (_extract_text action_text) _bulk_type_text ;;
    ret None
  else if startswith action_text "type_text" then
    when_text (_extract_text action_text) type_text ;;
    ret None
  else if startswith action_text "scroll" then
    when_text (_extract_text action_text) scroll ;;
    ret None
  else if startswith action_text "hotkey" then
    when_text (_extract_text action_text) (fun key =>
      hotkey key ;;
      if str_in key ["cmd+space"; "cmd+t"] then sleep 1.5 else ret tt) ;;
    ret None
  else if startswith action_text "wait" then
    match _extract_number action_text with
    | Some ms =>
        if Z.eqb ms 0 then ret tt else sleep (inject_Z ms / 1000)
    | None => ret tt
    end ;;
    ret None
  else if startswith action_text "focus_address_bar" then
    hotkey "cmd+l" ;;
    sleep 0.3 ;;
    ret None
  else if startswith action_text "done" then
    ret (Some true)
  else ret None.

(** [Harvey.execute]: whatever is raised inside the [try] block is caught,
    and the function then returns [False]. *)
Definition execute (action_text : string) : M bool :=
  r <- try_catch (execute_body action_text) (fun _ => ret None) ;;
  ret (match r with Some b => b | None => false end).

(** ** Control loop *)

Definition capture_to_bytes : M (option string) :=
  fun w =>
    (Ok (w_screencapture w (w_captures w)),
     mkWorld (w_quartz w) (w_bounds w) (w_mode w) (w_environ w)
             (w_dotenv w) (w_pointer w) (w_pointer_reads w)
             (w_frontmost w) (w_frontmost_reads w) (w_gemini w)
             (w_gemini_calls w) (w_screencapture w) (S (w_captures w))
             (w_log w ++ [Screencapture])).

(** Narration is a collaborator whose failures are swallowed; the model
    records the request. *)
Definition _speak_rationale (action_text : string) : M unit :=
  emit (Narrate action_text).

(** [if screenshot_data] *)
Definition captured (screenshot_data : option string) : bool :=
  match screenshot_data with Some s => truthy s | None => false end.

(** The transcript of the loop, returned by the model of [Harvey.run] in
    place of [None]: what each iteration captured and executed. *)
Inductive LoopEvent : Type :=
| Captured (step : Z) (screenshot_data : option string)
| Executed (step : Z) (action : string) (done : bool).

(** [for step in steps: ...], with [break] as an early return. *)
Fixpoint run_steps (steps : list Z) (task : string) : M (list LoopEvent) :=
  match steps with
  | [] => ret []
  | step :: rest =>
      screenshot_data <- capture_to_bytes ;;
      (if Z.eqb step 0 && captured screenshot_data then emit DebugDump else ret tt) ;;
      match screenshot_data with
      | Some data =>
          if truthy data then
            action <- think task data ;;
            _speak_rationale action ;;
            done <- execute action ;;
            if done then ret [Captured step screenshot_data; Executed step action true]
            else
              tr <- run_steps rest task ;;
              ret (Captured step screenshot_data :: Executed step action false :: tr)
          else ret [Captured step screenshot_data]
      | None => ret [Captured step screenshot_data]
      end
  end.

(** [Harvey.run] *)
Definition run (task : string) : M (list LoopEvent) :=
  run_steps (range 20) task.

(** The transcripts that the control loop of the specification allows
    from step [k] on: the loop stops when the step limit is reached, when
    a capture fails and when the executed command is [done]; otherwise it
    goes on to step [k + 1]. *)
Inductive loop_trace : Z -> list LoopEvent -> Prop :=
| trace_step_limit : loop_trace 20 []
| trace_capture_failed (k : Z) (data : option string) :
    0 <= k < 20 -> captured data = false ->
    loop_trace k [Captured k data]
| trace_done (k : Z) (data : option string) (action : string) :
    0 <= k < 20 -> captured data = true ->
    startswith action "done" = true ->
    loop_trace k [Captured k data; Executed k action true]
| trace_continue (k : Z) (data : option string) (action : string)
                 (tr : list LoopEvent) :
    0 <= k < 20 -> captured data = true ->
    startswith action "done" = false ->
    loop_trace (k + 1) tr ->
    loop_trace k (Captured k data :: Executed k action false :: tr).

Definition is_executed (ev : LoopEvent) : bool :=
  match ev with Executed _ _ _ => true | Captured _ _ => false end.

Definition is_captured (ev : LoopEvent) : bool :=
  match ev with Captured _ _ => true | Executed _ _ _ => false end.

(** ** Calibration store *)

(** The test of [set_or_replace]: the stripped line starts with [key=]. *)
Definition key_line (key line : string) : bool :=
  startswith (str_strip line) (key ++ "=").

(** The index of the first line that passes the test. *)
Fixpoint find_key (key : string) (lines : list string) : option nat :=
  match lines with
  | [] => None
  | line :: rest =>
      if key_line key line then Some O
      else match find_key key rest with
           | Some i => Some (S i)
           | None => None
           end
  end.

Definition set_or_replace (lines : list string) (key value : string)
  : list string :=
  match find_key key lines with
  | Some i => <[i := (key ++ "=" ++ value)%string]> lines
  | None => (lines ++ [(key ++ "=" ++ value)%string])%list
  end.

(** The rewritten lines of [.env].  The file is kept as the list of its
    lines: writing the lines joined by line feeds and splitting the text
    again gives the same list, as no line holds a line break. *)
Definition env_lines_after (lines : list string) (offset_x offset_y : Z)
  : list string :=
  let lines := set_or_replace lines "HARVEY_X_OFFSET" (str_of_int offset_x) in
  let lines := set_or_replace lines "HARVEY_Y_OFFSET" (str_of_int offset_y) in
  lines.

(** [_write_env_offsets]; the file system is taken to accept the write. *)
Definition _write_env_offsets (offset_x offset_y : Z) : M bool :=
  fun w =>
    let lines := match w_dotenv w with Some l => l | None => [] end in
    (Ok true,
     mkWorld (w_quartz w) (w_bounds w) (w_mode w) (w_environ w)
             (Some (env_lines_after lines offset_x offset_y))
             (w_pointer w) (w_pointer_reads w)
             (w_frontmost w) (w_frontmost_reads w) (w_gemini w)
             (w_gemini_calls w) (w_screencapture w) (w_captures w)
             (w_log w)).

(** *** Start-up: [load_dotenv]

    [main] calls [load_dotenv()] of the python-dotenv package before
    anything else; that is how saved offsets reach [os.environ] on the next
    run.  The package is not part of the repository.  Its behaviour on the
    plain [KEY=value] lines dealt with here: blank lines and lines starting
    with [#] are skipped, a line is split at its first [=], key and value
    are stripped, a later binding of a key replaces an earlier one, and a
    variable already present in the environment is left alone. *)

(** The text before the first [=] and the text after it. *)
Fixpoint split_eq (s : string) : option (string * string) :=
  match s with
  | EmptyString => None
  | String c r =>
      if Ascii.eqb c "="%char then Some (EmptyString, r)
      else match split_eq r with
           | Some (k, v) => Some (String c k, v)
           | None => None
           end
  end.

Definition parse_binding (line : string) : option (string * string) :=
  let s := str_strip line in
  if startswith s "#" then None
  else match split_eq s with
       | Some (k, v) => Some (str_strip k, str_strip v)
       | None => None
       end.

Definition bind_line (env : gmap string string) (line : string)
  : gmap string string :=
  match parse_binding line with
  | Some (k, v) => <[k := v]> env
  | None => env
  end.

Definition dotenv_values (lines : list string) : gmap string string :=
  fold_left bind_line lines ∅.

Definition load_dotenv (w : World) : World :=
  let file := match w_dotenv w with Some l => dotenv_values l | None => ∅ end in
  mkWorld (w_quartz w) (w_bounds w) (w_mode w) (w_environ w ∪ file)
          (w_dotenv w) (w_pointer w) (w_pointer_reads w)
          (w_frontmost w) (w_frontmost_reads w) (w_gemini w)
          (w_gemini_calls w) (w_screencapture w) (w_captures w)
          (w_log w).

(** A new run of the program on the same machine: the process starts with
    the environment handed down by the shell, and [main] calls
    [load_dotenv] before anything else. *)
Definition startup (shell_environ : gmap string string) (w : World) : World :=
  load_dotenv
    (mkWorld (w_quartz w) (w_bounds w) (w_mode w) shell_environ
             (w_dotenv w) (w_pointer w) (w_pointer_reads w)
             (w_frontmost w) (w_frontmost_reads w) (w_gemini w)
             (w_gemini_calls w) (w_screencapture w) (w_captures w)
             (w_log w)).

(** The keys the lines of a file bind, in order. *)
Definition bound_keys (lines : list string) : list string :=
  omap (fun line => fst <$> parse_binding line) lines.

(** Whether a line binds [key], and how many lines do. *)
Definition binds (key line : string) : bool :=
  match parse_binding line with
  | Some (k, _) => String.eqb k key
  | None => false
  end.

Definition count_bindings (key : string) (lines : list string) : nat :=
  length (List.filter (binds key) lines).

(** A computation that neither captures the screen nor calls the
    reasoning collaborator. *)
Definition quiet {A} (m : M A) : Prop :=
  forall w,
    w_captures (snd (m w)) = w_captures w /\
    w_gemini_calls (snd (m w)) = w_gemini_calls w.

(** ** Further builtins *)

(** [sep.join(parts)] *)
Fixpoint str_join (sep : string) (parts : list string) : string :=
  match parts with
  | [] => EmptyString
  | part :: rest =>
      match rest with
      | [] => part
      | _ => part ++ sep ++ str_join sep rest
      end
  end.

(** How often the character [c] occurs in [s]. *)
Definition count_char (c : ascii) (s : string) : nat :=
  length (List.filter (Ascii.eqb c) (chars s)).

(** ** Traces of the input executor *)

(** The events of one key press. *)
Definition press_trace (key_code : Z) (down_flags up_flags : option Z)
  : list Event :=
  [KeyDown key_code down_flags; Sleep 0.02; KeyUp key_code up_flags].

(** The events [type_text] posts for one character when Quartz is
    available. *)
Definition char_trace (char : ascii) : list Event :=
  match key_map !! String (lower_char char) EmptyString with
  | Some None => []
  | Some (Some key_code) =>
      [KeyDown key_code (Some (if is_upper char then 131072 else 0));
       Sleep 0.02; KeyUp key_code (Some 0); Sleep 0.03; Sleep 0.02]
  | None => [Sleep 0.02]
  end.

Definition type_trace (text : string) : list Event :=
  flat_map char_trace (chars text).

(** A key-down event of the Return key (key code 36). *)
Definition is_return_press (e : Event) : bool :=
  match e with KeyDown key_code _ => Z.eqb key_code 36 | _ => false end.

(** Events that come from the keyboard side of the executor, pauses
    included. *)
Definition is_keyboard_event (e : Event) : bool :=
  match e with KeyDown _ _ | KeyUp _ _ | Sleep _ => true | _ => false end.

(** Events of a pointer move: location queries, move events and pauses. *)
Definition is_motion_event (e : Event) : bool :=
  match e with GetLocation | MouseMoved _ _ | Sleep _ => true | _ => false end.

(** The flag word [hotkey] builds from the modifiers of a combination. *)
Definition modifier_flags (modifiers : list string) : Z :=
  let flags := 0 in
  let flags :=
    if str_in "cmd" modifiers || str_in "command" modifiers
    then Z.lor flags kCGEventFlagMaskCommand else flags in
  let flags :=
    if str_in "shift" modifiers then Z.lor flags 131072 else flags in
  let flags :=
    if str_in "alt" modifiers || str_in "option" modifiers
    then Z.lor flags 524288 else flags in
  let flags :=
    if str_in "ctrl" modifiers || str_in "control" modifiers
    then Z.lor flags 262144 else flags in
  flags.

(** The events of a key combination with the flag word [flags]: flags are
    set on the events only when the word is not zero. *)
Definition combo_trace (key_code flags : Z) : list Event :=
  if Z.eqb flags 0 then press_trace key_code None None
  else press_trace key_code (Some flags) (Some 0).

(** The events of [_bulk_type_text] on the lines of its text. *)
Fixpoint bulk_trace (lines : list string) : list Event :=
  match lines with
  | [] => []
  | line :: rest =>
      ((if truthy (str_strip line) then type_trace line else []) ++
       match rest with
       | [] => []
       | _ => press_trace 36 None None ++ [Sleep 0.1] ++ bulk_trace rest
       end)%list
  end.

(** The events of [_open_app_workflow] and [_web_search_workflow]. *)
Definition open_app_trace (app_name : string) : list Event :=
  (combo_trace 49 kCGEventFlagMaskCommand ++ [Sleep 1.5] ++
   type_trace app_name ++ [Sleep 0.5] ++
   press_trace 36 None None ++ [Sleep 2.0])%list.

Definition web_search_trace (search_term : string) : list Event :=
  (open_app_trace "Safari" ++
   combo_trace 17 kCGEventFlagMaskCommand ++ [Sleep 1.5] ++
   type_trace (search_term ++ " ") ++ [Sleep 0.5] ++
   press_trace 36 None None ++ [Sleep 2.5])%list.

(** ** What a computation leaves alone *)

(** Every run of [m] takes the world to one that is related to it by
    [R], whether the run returns or raises. *)
Definition frame (R : World -> World -> Prop) {A} (m : M A) : Prop :=
  forall w, R w (snd (m w)).

(** [w'] comes from [w] by posting events that [allowed] accepts, with no
    screen capture and no reasoning call in between. *)
Definition offline_step (allowed : Event -> bool) (w w' : World) : Prop :=
  (exists evs, w_log w' = (w_log w ++ evs)%list /\ forallb allowed evs = true) /\
  w_captures w' = w_captures w /\
  w_gemini_calls w' = w_gemini_calls w.

(** [w'] has the [.env] file of [w], unless [excuse] holds. *)
Definition same_dotenv_unless (excuse : Prop) (w w' : World) : Prop :=
  w_dotenv w' = w_dotenv w \/ excuse.

(** ** Interactive calibration *)

(** [input(prompt)]: the next line of standard input, and what is left of
    it; [EOFError] at the end of the input. *)
Definition input (stdin : list string) : M (string * list string) :=
  match stdin with
  | line :: rest => ret (line, rest)
  | [] => raise (PyError "EOFError")
  end.

(** [calibrate_interactive], reading its answers from [stdin]. *)
Definition calibrate_interactive (stdin : list string) : M unit :=
  quartz <- asks w_quartz ;;
  if negb quartz then ret tt
  else
    expected <- reading (fun w => _transform_coords w (Finite 0.5) (Finite 0.5)) ;;
    cur <- get_current_mouse_position ;;
    smooth_move_mouse (fst cur) (snd cur) (fst expected) (snd expected) ;;
    answer <- input stdin ;;
    let '(resp, stdin) := answer in
    let resp := str_lower (str_strip resp) in
    if String.eqb resp "y" then ret tt
    else
      answer <- input stdin ;;
      let '(_, stdin) := answer in
      final <- get_current_mouse_position ;;
      let off_x := fst final - fst expected in
      let off_y := snd final - snd expected in
      let preview_x := fst expected + off_x in
      let preview_y := snd expected + off_y in
      cur <- get_current_mouse_position ;;
      smooth_move_mouse (fst cur) (snd cur) preview_x preview_y ;;
      answer <- input stdin ;;
      let '(confirm, _) := answer in
      let confirm := str_lower (str_strip confirm) in
      if String.eqb confirm "y" then
        _write_env_offsets off_x off_y ;;
        ret tt
      else ret tt.

(** ** API keys and program start *)

(** [a or b] on values that are [None] or a string. *)
Definition py_or (a b : option string) : option string :=
  match a with
  | Some s => if truthy s then a else b
  | None => b
  end.

(** [if v] on a value that is [None] or a string. *)
Definition is_set (v : option string) : bool :=
  match v with Some s => truthy s | None => false end.

(** [api_manager.py]: the manager holds the one key it found in the
    environment when it was created. *)
Record APIKeyManager : Type := mkAPIKeyManager { api_key : option string }.

Definition load_api_key (environ : gmap string string) : option string :=
  let api_key := py_or (environ !! "GOOGLE_API_KEY") (environ !! "GEMINI_API_KEY") in
  if negb (is_set api_key) then None else api_key.

Definition APIKeyManager_init (environ : gmap string string) : APIKeyManager :=
  mkAPIKeyManager (load_api_key environ).

Definition get_key_for_service (self : APIKeyManager) : option string :=
  api_key self.

Definition get_available_key (self : APIKeyManager) : option string :=
  api_key self.

(** [os.getenv(key)] *)
Definition os_getenv (key : string) : M (option string) :=
  asks (fun w => w_environ w !! key).

(** [load_dotenv()] as a step of the program. *)
Definition load_dotenv_call : M unit := fun w => (Ok tt, load_dotenv w).

(** [if api_key: return genai.Client(api_key=api_key)], followed by
    [otherwise] when the key is unset or empty.  The client is identified
    with the key it is created with; creating it is taken to succeed. *)
Definition client_with (api_key : option string) (otherwise : M string)
  : M string :=
  match api_key with
  | Some key => if truthy key then ret key else otherwise
  | None => otherwise
  end.

(** [agent/llm.py]: [get_gemini_client].  [api_manager] is [None] when the
    manager module could not be imported. *)
Definition get_gemini_client (api_manager : option APIKeyManager) : M string :=
  load_dotenv_call ;;
  try_catch
    (client_with
       match api_manager with
       | Some manager => get_available_key manager
       | None => None
       end
       (google <- os_getenv "GOOGLE_API_KEY" ;;
        gemini <- os_getenv "GEMINI_API_KEY" ;;
        client_with (py_or google gemini)
                    (raise (PyError "No API key found"))))
    (fun _ =>
       gemini <- os_getenv "GEMINI_API_KEY" ;;
       client_with gemini
         (raise (PyError "GEMINI_API_KEY not found in environment variables"))).

(** How [main] ends: [sys.exit(code)], or a plain return. *)
Inductive Outcome : Type :=
| Exit (code : Z)
| Return.

(** [main] of [harvey.py], with [sys.argv] and standard input.
    [Harvey()] stores the client that [get_gemini_client] returns. *)
Definition main (api_manager : option APIKeyManager) (argv stdin : list string)
  : M Outcome :=
  load_dotenv_call ;;
  match argv with
  | _ :: arg1 :: _ =>
      let arg1 := str_strip arg1 in
      if str_in arg1 ["--calibrate"; "calibrate"] then
        calibrate_interactive stdin ;;
        ret Return
      else
        google <- os_getenv "GOOGLE_API_KEY" ;;
        gemini <- os_getenv "GEMINI_API_KEY" ;;
        if negb (is_set google) && negb (is_set gemini) then ret (Exit 1)
        else
          get_gemini_client api_manager ;;
          run arg1 ;;
          ret Return
  | _ => ret (Exit 1)
  end.

(** [python harvey.py ...]: importing the modules creates the key manager
    from the environment the shell handed down, before [main] loads
    [.env]. *)
Definition harvey_script (argv stdin : list string) : M Outcome :=
  fun w => main (Some (APIKeyManager_init (w_environ w))) argv stdin w.

(** The first candidate that is set and not empty. *)
Definition first_set (candidates : list (option string)) : option string :=
  match List.filter is_set candidates with
  | candidate :: _ => candidate
  | [] => None
  end.

(** ** Mouse trail *)

(** One entry of [_TRAIL_POINTS]. *)
Record TrailPoint : Type := mkTrailPoint {
  tp_x : Z;
  tp_y : Z;
  tp_opacity : Q;
  tp_size : Q
}.

Definition _MAX_TRAIL_POINTS : nat := 15.
Definition _TRAIL_FADE_SPEED : Q := 0.8.

(** [os.getenv("HARVEY_MOUSE_TRAIL", "1") in ("1", "true", "True")],
    evaluated when the module is imported. *)
Definition _MOUSE_TRAIL_ENABLED (environ : gmap string string) : bool :=
  str_in (match environ !! "HARVEY_MOUSE_TRAIL" with Some v => v | None => "1" end)
         ["1"; "true"; "True"].

(** The body of the fading loop: [opacity *= 0.8] and [size *= 0.95],
    with the float products taken exactly, as everywhere in this
    development.  No power of 0.8 comes near the threshold of 0.1, so the
    filter of [_add_trail_point] decides alike on the floats. *)
Definition fade (point : TrailPoint) : TrailPoint :=
  mkTrailPoint (tp_x point) (tp_y point)
               (tp_opacity point * _TRAIL_FADE_SPEED)%Q
               (tp_size point * 0.95)%Q.

(** [l[-n:]] *)
Definition last_n {A} (n : nat) (l : list A) : list A :=
  drop (length l - n) l.

(** [_add_trail_point]: the new value of [_TRAIL_POINTS].  The list is
    rebuilt, and every point but the newest is faded in place. *)
Definition _add_trail_point (enabled quartz : bool) (trail : list TrailPoint)
           (x y : Z) : list TrailPoint :=
  if negb enabled || negb quartz then trail
  else
    let trail := (trail ++ [mkTrailPoint x y 1 8])%list in
    let trail := List.filter (fun p => Qlt_bool 0.1 (tp_opacity p)) trail in
    let trail :=
      if (_MAX_TRAIL_POINTS <? length trail)%nat
      then last_n _MAX_TRAIL_POINTS trail else trail in
    (map fade (take (length trail - 1) trail)
     ++ drop (length trail - 1) trail)%list.

(** [clear_mouse_trail] *)
Definition clear_mouse_trail (trail : list TrailPoint) : list TrailPoint := [].

(** The trail after the points [points] have been added one by one. *)
Definition trail_after (enabled quartz : bool) (trail : list TrailPoint)
           (points : list (Z * Z)) : list TrailPoint :=
  fold_left (fun tr p => _add_trail_point enabled quartz tr (fst p) (snd p))
            points trail.

(** The opacities of a list of points read from the newest backwards
    are the powers of the fading factor, starting at the [k]-th. *)
Fixpoint aged (k : nat) (newest_first : list TrailPoint) : Prop :=
  match newest_first with
  | [] => True
  | p :: rest =>
      (tp_opacity p == _TRAIL_FADE_SPEED ^ Z.of_nat k)%Q /\ aged (S k) rest
  end.

(** ** Screenshot grid: [agent/screenshot.py] *)

(** What [add_grid_overlay] draws on its copy of the image.  A label is
    the text of two ratios printed with two decimals; its background is
    the rectangle of the text's bounding box, which depends on the font. *)
Inductive DrawOp : Type :=
| DrawLine (x0 y0 x1 y1 : Z) (fill : Z * Z * Z * Z) (line_width : Z)
| DrawLabelBackground (x y : Z) (ratio_x ratio_y : Q)
| DrawLabel (x y : Z) (ratio_x ratio_y : Q).

Definition major_grid_color : Z * Z * Z * Z := (255, 0, 0, 180).
Definition minor_grid_color : Z * Z * Z * Z := (255, 100, 100, 120).
Definition crosshair_color : Z * Z * Z * Z := (0, 255, 0, 200).

(** [range(start, stop, step)] for a positive step. *)
Definition range_step (start stop step : Z) : list Z :=
  map (fun k => start + step * k) (range ((stop - start + step - 1) / step)).

(** [round(x, 2)], computed on the rational: this is the value of the
    float computation wherever [x] and the result are binary fractions, as
    are the ratios 0, 0.25, 0.5, 0.75 and 1 that label the default grid
    of 20 at every fifth line. *)
Definition round2 (x : Q) : Q :=
  (inject_Z (round_half_even (x * 100)) / 100)%Q.

(** [add_grid_overlay(image, grid_size)] for an image of the given size:
    the drawing operations in order.  [None] is the [ZeroDivisionError] of
    a zero grid size. *)
Definition add_grid_overlay (width height grid_size : Z) : option (list DrawOp) :=
  if Z.eqb grid_size 0 then None
  else
    let grid_width := width / grid_size in
    let grid_height := height / grid_size in
    let style (i : Z) :=
      if Z.eqb (i mod 5) 0 then (major_grid_color, 2) else (minor_grid_color, 1) in
    Some
      (flat_map (fun i =>
                   let x := i * grid_width in
                   [DrawLine x 0 x height (fst (style i)) (snd (style i))])
                (range (grid_size + 1))
       ++ flat_map (fun i =>
                      let y := i * grid_height in
                      [DrawLine 0 y width y (fst (style i)) (snd (style i))])
                   (range (grid_size + 1))
       ++ flat_map (fun i =>
            flat_map (fun j =>
              let x := i * grid_width in
              let y := j * grid_height in
              let ratio_x := round2 (inject_Z i / inject_Z grid_size) in
              let ratio_y := round2 (inject_Z j / inject_Z grid_size) in
              [DrawLabelBackground (x + 2) (y + 2) ratio_x ratio_y;
               DrawLabel (x + 2) (y + 2) ratio_x ratio_y])
            (range_step 0 (grid_size + 1) 5))
          (range_step 0 (grid_size + 1) 5)
       ++ flat_map (fun i =>
            flat_map (fun j =>
              let x := i * grid_width in
              let y := j * grid_height in
              [DrawLine (x - 3) y (x + 3) y crosshair_color 2;
               DrawLine x (y - 3) x (y + 3) crosshair_color 2])
            (range_step 1 grid_size 2))
          (range_step 1 grid_size 2))%list.

(** A grid line, as opposed to a crosshair stroke. *)
Definition is_grid_line (op : DrawOp) : bool :=
  match op with
  | DrawLine _ _ _ _ fill _ =>
      bool_decide (fill = major_grid_color) || bool_decide (fill = minor_grid_color)
  | _ => false
  end.

(** ** The voice assistant: [voice_assistant.py] and [analyzer.py]

    The voice assistant talks to a microphone, a loudspeaker, the file
    system and a language service.  Each such request is answered by an
    oracle indexed by the number of earlier requests: it gives a value,
    breaks with an exception, or is interrupted from the keyboard.  The
    transcript list and the result dictionary are mutable objects shared
    by the closures of [voice_assistant]; they live in the state.  The
    conversation loop is [while True]; its model takes the number of
    iterations it may run, and says so when they are used up. *)

(** A request to the surroundings of the voice assistant. *)
Inductive Request : Type :=
| ClientInit          (* genai.Client(api_key=...) *)
| Record              (* sd.rec and sd.wait *)
| StopRecording       (* sd.stop *)
| WriteAudio          (* the temporary .wav of the recording *)
| Transcribe          (* reading the file, generate_content on it *)
| RemoveAudio         (* os.unlink of the recording, where it exists *)
| Synthesize          (* generate_content with audio output *)
| WriteWav            (* wave_file on a temporary file *)
| Play                (* sf.read, sd.play, sd.wait *)
| RemoveWav           (* os.unlink of the spoken file, where it exists *)
| Respond             (* generate_content on the prompt *)
| SaveTranscript      (* json.dump to the transcript file *)
| Analyze.            (* model.generate_content of analyzer.py *)

Inductive Answer : Type :=
| Gives (value : option string)
| Breaks (error_str : string)
| Interrupts.

(** One entry of the transcript. *)
Record Entry : Type := mkEntry {
  e_timestamp : string;
  e_speaker : string;
  e_message : string
}.

(** The dictionary that [voice_assistant] returns; a missing [error] key
    and a value [None] are both [None]. *)
Record VoiceResult : Type := mkVoiceResult {
  r_transcript : list Entry;
  r_transcript_file : option string;
  r_analysis : option string;
  r_action_items : option (list string);
  r_status : string;
  r_error : option string
}.

Record Studio : Type := mkStudio {
  s_answers : nat -> Answer;            (* per request *)
  s_requests : list Request;            (* the requests made, in order *)
  s_clock : nat -> string;              (* datetime.now(), per reading *)
  s_ticks : nat;
  s_transcript : list Entry;            (* the list object [transcript] *)
  s_result : VoiceResult                (* the dictionary [result] *)
}.

Inductive VExn : Type :=
| VException (error_str : string)
| VKeyboardInterrupt.

Inductive vresult (A : Type) : Type :=
| VOk (a : A)
| VRaise (e : VExn).
Arguments VOk {A} a.
Arguments VRaise {A} e.

Definition VM (A : Type) : Type := Studio -> vresult A * Studio.

Definition vret {A} (a : A) : VM A := fun s => (VOk a, s).

Definition vbind {A B} (m : VM A) (k : A -> VM B) : VM B :=
  fun s => match m s with
           | (VOk a, s') => k a s'
           | (VRaise e, s') => (VRaise e, s')
           end.

Definition vraise {A} (e : VExn) : VM A := fun s => (VRaise e, s).

Notation "x <~ c1 ;; c2" := (vbind c1 (fun x => c2))
  (at level 100, c1 at next level, right associativity).
Notation "c1 ;;; c2" := (vbind c1 (fun _ => c2))
  (at level 100, right associativity).

(** [try: body  except Exception as e: handler e]; a keyboard interrupt
    is not an [Exception] and passes through. *)
Definition except_exception {A} (body : VM A) (handler : string -> VM A) : VM A :=
  fun s => match body s with
           | (VRaise (VException error_str), s') => handler error_str s'
           | other => other
           end.

(** [try: body  except KeyboardInterrupt: handler] *)
Definition except_interrupt {A} (body : VM A) (handler : VM A) : VM A :=
  fun s => match body s with
           | (VRaise VKeyboardInterrupt, s') => handler s'
           | other => other
           end.

(** [try: body  finally: final]: [final] runs however [body] ends, and
    what it raises replaces what [body] raised. *)
Definition try_finally {A} (body : VM A) (final : VM unit) : VM A :=
  fun s => match body s with
           | (outcome, s') =>
               match final s' with
               | (VOk _, s'') => (outcome, s'')
               | (VRaise e, s'') => (VRaise e, s'')
               end
           end.

(** A request to the surroundings. *)
Definition request (r : Request) : VM (option string) :=
  fun s =>
    let s' := mkStudio (s_answers s) (s_requests s ++ [r]) (s_clock s) (s_ticks s)
                       (s_transcript s) (s_result s) in
    match s_answers s (length (s_requests s)) with
    | Gives value => (VOk value, s')
    | Breaks error_str => (VRaise (VException error_str), s')
    | Interrupts => (VRaise VKeyboardInterrupt, s')
    end.

(** [datetime.now()], formatted. *)
Definition now : VM string :=
  fun s =>
    (VOk (s_clock s (s_ticks s)),
     mkStudio (s_answers s) (s_requests s) (s_clock s) (S (s_ticks s))
              (s_transcript s) (s_result s)).

Definition get_transcript : VM (list Entry) := fun s => (VOk (s_transcript s), s).

(** The dictionary [result] as it is now. *)
Definition get_result : VM VoiceResult := fun s => (VOk (s_result s), s).

Definition set_transcript (transcript : list Entry) : VM unit :=
  fun s => (VOk tt, mkStudio (s_answers s) (s_requests s) (s_clock s) (s_ticks s)
                             transcript (s_result s)).

(** An assignment to keys of [result]. *)
Definition update_result (f : VoiceResult -> VoiceResult) : VM unit :=
  fun s => (VOk tt, mkStudio (s_answers s) (s_requests s) (s_clock s) (s_ticks s)
                             (s_transcript s) (f (s_result s))).

(** [result["status"] = "error"; result["error"] = error_str] *)
Definition set_error (error_str : string) : VM unit :=
  update_result (fun r =>
    mkVoiceResult (r_transcript r) (r_transcript_file r) (r_analysis r)
                  (r_action_items r) "error" (Some error_str)).

(** [s.replace(sub, empty)] for a non-empty [sub]: occurrences are found
    from the left and do not overlap.  [skip] counts the characters of an
    occurrence still to be dropped. *)
Fixpoint str_remove_sub (sub : string) (skip : nat) (s : string) : string :=
  match s with
  | EmptyString => EmptyString
  | String c r =>
      match skip with
      | S k => str_remove_sub sub k r
      | O =>
          if String.prefix sub s
          then str_remove_sub sub (String.length sub - 1) r
          else String c (str_remove_sub sub 0 r)
      end
  end.

(** [analyzer.py]: [analyze_conversation].  A reply without text makes
    [response.text.strip()] raise inside the [try] block. *)
Definition analyze_conversation (conversation_text : string) : VM (option string) :=
  except_exception
    (text <~ request Analyze ;;
     match text with
     | Some t => vret (Some (str_strip t))
     | None => vraise (VException "AttributeError")
     end)
    (fun _ => vret None).

Definition add_to_transcript (speaker message : string) : VM unit :=
  timestamp <~ now ;;
  transcript <~ get_transcript ;;
  set_transcript (transcript ++ [mkEntry timestamp speaker message]).

(** The recording is known by its number of frames. *)
Definition record_audio (record_seconds : Z) : VM Z :=
  except_interrupt
    (request Record ;;;
     vret (record_seconds * 16000))
    (request StopRecording ;;;
     vret 0).

Definition speech_to_text_with_gemini (audio_data : Z) : VM string :=
  if Z.eqb audio_data 0 then vret EmptyString
  else
    request WriteAudio ;;;
    except_exception
      (text <~ request Transcribe ;;
       request RemoveAudio ;;;
       match text with
       | Some t => if truthy t then vret (str_strip t) else vret EmptyString
       | None => vret EmptyString
       end)
      (fun _ =>
         request RemoveAudio ;;;
         vret EmptyString).

Definition text_to_speech (text : string) : VM unit :=
  except_exception
    (request Synthesize ;;;
     request WriteWav ;;;
     try_finally
       (except_exception (request Play ;;; vret tt) (fun _ => vret tt))
       (request RemoveWav ;;; vret tt))
    (fun _ => vret tt).

Definition get_gemini_response (user_input : string) : VM (option string) :=
  except_exception
    (request Respond)
    (fun _ =>
       vret (Some "I'm sorry, I encountered an error while processing your request.")).

Definition exit_words : list string := ["goodbye"; "exit"; "quit"; "bye"].

(** The body of the [try] block of the conversation loop: [true] where it
    ends in [break], [false] where the loop goes round again. *)
Definition conversation_turn (record_seconds : Z) : VM bool :=
  audio_data <~ record_audio record_seconds ;;
  user_text <~ speech_to_text_with_gemini audio_data ;;
  if negb (truthy user_text) then vret false
  else
    add_to_transcript "User" user_text ;;;
    if existsb (fun word => str_contains word (str_lower user_text)) exit_words then
      let farewell := "Goodbye! It was great talking with you. Have a wonderful day!" in
      add_to_transcript "Gemini" farewell ;;;
      text_to_speech farewell ;;;
      vret true
    else
      gemini_response <~ get_gemini_response user_text ;;
      match gemini_response with
      | None =>
          (* the membership test on None raises a TypeError; the text
             stands for the message of the interpreter *)
          vraise (VException "TypeError")
      | Some gemini_response =>
          if str_contains "[END_CONVERSATION]" gemini_response then
            let clean_response :=
              str_strip (str_remove_sub "[END_CONVERSATION]" 0 gemini_response) in
            add_to_transcript "Gemini" clean_response ;;;
            text_to_speech clean_response ;;;
            vret true
          else
            add_to_transcript "Gemini" gemini_response ;;;
            text_to_speech gemini_response ;;;
            vret false
      end.

(** [while True: try: ... except KeyboardInterrupt: break
    except Exception as e: ...; break], for at most [rounds] iterations:
    [true] when the loop has ended, [false] when the iterations are used
    up. *)
Fixpoint conversation (rounds : nat) (record_seconds : Z) : VM bool :=
  match rounds with
  | O => vret false
  | S rounds =>
      stop <~ except_exception
                (except_interrupt (conversation_turn record_seconds) (vret true))
                (fun error_str => set_error error_str ;;; vret true) ;;
      if stop then vret true else conversation rounds record_seconds
  end.

(** [f"{entry['speaker']}: {entry['message']}"], joined by line feeds. *)
Definition conversation_text (transcript : list Entry) : string :=
  str_join (String "010"%char EmptyString)
           (map (fun entry => e_speaker entry ++ ": " ++ e_message entry) transcript).

(** What follows the conversation loop. *)
Definition wrap_up (auto_analyze save_transcript save_analysis : bool) : VM unit :=
  transcript <~ get_transcript ;;
  update_result (fun r =>
    mkVoiceResult transcript (r_transcript_file r) (r_analysis r)
                  (r_action_items r) (r_status r) (r_error r)) ;;;
  (if save_transcript && negb (Nat.eqb (length transcript) 0) then
     timestamp <~ now ;;
     let filename := "conversation_transcript_" ++ timestamp ++ ".json" in
     except_exception
       (request SaveTranscript ;;;
        update_result (fun r =>
          mkVoiceResult (r_transcript r) (Some filename) (r_analysis r)
                        (r_action_items r) (r_status r) (r_error r)))
       (fun _ => vret tt)
   else vret tt) ;;;
  (if auto_analyze && negb (Nat.eqb (length transcript) 0)
      && (1 <? length transcript)%nat then
     except_exception
       (analysis <~ analyze_conversation (conversation_text transcript) ;;
        match analysis with
        | Some analysis =>
            if truthy analysis then
              update_result (fun r =>
                mkVoiceResult (r_transcript r) (r_transcript_file r)
                              (Some analysis) (r_action_items r)
                              (r_status r) (r_error r)) ;;;
              (* analysis is a str: analysis.get("action_items", []) raises,
                 and the rest of the block is never reached *)
              vraise (VException "AttributeError")
            else vret tt
        | None => vret tt
        end)
       (fun _ => vret tt)
   else vret tt).

Definition greeting : string :=
  "Hello! I'm here to help you with tasks on your computer. What would you like to do today?".

Definition fresh_result : VoiceResult :=
  mkVoiceResult [] None None None "success" None.

(** [voice_assistant]; [None] when the conversation has not ended within
    [rounds] iterations. *)
Definition voice_assistant (rounds : nat) (record_seconds : Z)
           (auto_analyze save_transcript save_analysis : bool)
  : VM (option VoiceResult) :=
  update_result (fun _ => fresh_result) ;;;
  except_exception
    (request ClientInit ;;;
     set_transcript [] ;;;
     add_to_transcript "Gemini" greeting ;;;
     text_to_speech greeting ;;;
     ended <~ conversation rounds record_seconds ;;
     if ended then
       wrap_up auto_analyze save_transcript save_analysis ;;;
       result <~ get_result ;;
       vret (Some result)
     else vret None)
    (fun error_str =>
       set_error error_str ;;;
       result <~ get_result ;;
       vret (Some result)).

(** ** The bridges from voice to agent *)

(** How a bridge script ends: it runs to its end, is interrupted from the
    keyboard, or its conversation has not ended within the rounds of the
    model. *)
Inductive Ending : Type :=
| Finished
| Interrupted
| OutOfRounds.

(** [Harvey()] followed by [harvey.run(task)], inside a
    [try ... except Exception]: the world afterwards.  Importing [harvey]
    creates the key manager from the environment of that moment. *)
Definition run_harvey (task : string) (w : World) : World :=
  snd ((get_gemini_client (Some (APIKeyManager_init (w_environ w))) ;;
        run task) w).

(** [[entry for entry in transcript if entry.get("speaker") == "User"]] *)
Definition user_messages (transcript : list Entry) : list Entry :=
  List.filter (fun entry => String.eqb (e_speaker entry) "User") transcript.

(** [make_it_happen_it_works.py]: [main].  [voice_importable] says
    whether [from voice_assistant import voice_assistant] succeeds; the
    import runs [load_dotenv()]. *)
Definition make_it_happen_main (rounds : nat) (voice_importable : bool)
           (s : Studio) (w : World) : Ending * Studio * World :=
  if negb voice_importable then (Finished, s, w)
  else
    let w := load_dotenv w in
    match voice_assistant rounds 8 true true true s with
    | (VOk (Some result), s') =>
        match r_action_items result with
        | Some (item :: items) =>
            let task := "Please complete the following tasks: "
                        ++ str_join "; " (item :: items) in
            (Finished, s', run_harvey task w)
        | _ => (Finished, s', w)
        end
    | (VOk None, s') => (OutOfRounds, s', w)
    | (VRaise VKeyboardInterrupt, s') => (Interrupted, s', w)
    | (VRaise (VException _), s') => (Finished, s', w)
    end.

(** [simple_voice_harvey.py]: the task chosen by [run_voice_and_harvey]. *)
Definition simple_task (result : VoiceResult) : string :=
  match r_action_items result with
  | Some (item :: _) => item
  | _ =>
      match user_messages (r_transcript result) with
      | [] => "Help me with a computer task"
      | entry :: rest => e_message (List.last rest entry)
      end
  end.

(** [simple_voice_harvey.py]: [run_voice_and_harvey]. *)
Definition run_voice_and_harvey (rounds : nat) (voice_importable : bool)
           (s : Studio) (w : World) : Ending * Studio * World :=
  if negb voice_importable then (Finished, s, w)
  else
    let w := load_dotenv w in
    match voice_assistant rounds 8 true true true s with
    | (VOk (Some result), s') => (Finished, s', run_harvey (simple_task result) w)
    | (VOk None, s') => (OutOfRounds, s', w)
    | (VRaise VKeyboardInterrupt, s') => (Interrupted, s', w)
    | (VRaise (VException _), s') => (Finished, s', w)
    end.

(** [voice_to_harvey.py]: [extract_task_from_conversation].  The argument
    is [None] or a result dictionary. *)
Definition extract_task_from_conversation (voice_result : option VoiceResult)
  : string :=
  match voice_result with
  | None => "No valid conversation data available"
  | Some voice_result =>
      if negb (String.eqb (r_status voice_result) "success")
      then "No valid conversation data available"
      else
        match r_action_items voice_result with
        | Some (item :: _) => item
        | _ =>
            match user_messages (r_transcript voice_result) with
            | [] => "Please help me with a computer task"
            | entry :: rest => e_message (List.last rest entry)
            end
        end
  end.

(** [voice_to_harvey.py]: [run_voice_to_harvey_pipeline].  Both modules
    were imported when the script started. *)
Definition run_voice_to_harvey_pipeline (rounds : nat) (s : Studio) (w : World)
  : Ending * Studio * World :=
  match voice_assistant rounds 10 true true true s with
  | (VOk (Some voice_result), s') =>
      (Finished, s',
       run_harvey (extract_task_from_conversation (Some voice_result)) w)
  | (VOk None, s') => (OutOfRounds, s', w)
  | (VRaise VKeyboardInterrupt, s') => (Interrupted, s', w)
  | (VRaise (VException _), s') => (Finished, s', w)
  end.

(** A result as [voice_assistant] leaves it: no action items, and a status
    that is [success] or [error]. *)
Definition plain_result (r : VoiceResult) : Prop :=
  r_action_items r = None /\ (r_status r = "success" \/ r_status r = "error").

(** [voice_assistant] steps keep results plain. *)
Definition keeps_plain (s s' : Studio) : Prop :=
  plain_result (s_result s) -> plain_result (s_result s').

Definition vframe (R : Studio -> Studio -> Prop) {A} (m : VM A) : Prop :=
  forall s, R s (snd (m s)).

(** Whenever [m] returns a dictionary, it is the one the state holds. *)
Definition returns_held (m : VM (option VoiceResult)) : Prop :=
  forall s r s', m s = (VOk (Some r), s') -> r = s_result s'.

(** ** Sample worlds *)

(** No Quartz bindings: every input primitive is simulated. *)
Definition plain_world : World :=
  mkWorld false (0, 0) None ∅ None
          (fun _ => (100, 100)) 0 (fun _ => None) 0
          (fun _ => Reply EmptyString) 0 (fun _ => None) 0 [].

(** A 1440x900-point display, with a configurable pixel mode, pointer
    readings and frontmost-process answers. *)
Definition mac_world (mode : option (Z * Z)) (pointer : nat -> Z * Z)
           (frontmost : nat -> option string) : World :=
  mkWorld true (1440, 900) mode ∅ None
          pointer 0 frontmost 0
          (fun _ => Reply EmptyString) 0 (fun _ => None) 0 [].

Definition retina_world : World :=
  mac_world (Some (2880, 1800)) (fun _ => (100, 100)) (fun _ => Some "Finder").

Definition lowdpi_world : World :=
  mac_world (Some (1440, 900)) (fun _ => (100, 100)) (fun _ => Some "Finder").

(** The ratio 0.5. *)
Definition half : pyfloat := Finite 0.5.

(** Spotlight is frontmost; the pointer is first read at (100, 100) and
    sits on the screen centre (720, 450) afterwards. *)
Definition spotlight_world : World :=
  mac_world None
            (fun n => match n with O => (100, 100) | _ => (720, 450) end)
            (fun _ => Some "Spotlight").

(** Finder is frontmost; after the first move the pointer is reported
    three points to the right of the screen centre. *)
Definition drift3_world : World :=
  mac_world None
            (fun n => match n with O => (100, 100) | _ => (723, 450) end)
            (fun _ => Some "Finder").

(** As [drift3_world], with a drift of eight points. *)
Definition drift8_world : World :=
  mac_world None
            (fun n => match n with O => (100, 100) | _ => (728, 450) end)
            (fun _ => Some "Finder").

(** A Mac whose reasoning collaborator and screen capture are scripted. *)
Definition scripted_world (gemini : nat -> LLMResult)
           (screencapture : nat -> option string) : World :=
  mkWorld true (1440, 900) None ∅ None
          (fun _ => (100, 100)) 0 (fun _ => Some "Finder") 0
          gemini 0 screencapture 0 [].

(** The collaborator always answers with a quota error that names a
    retry delay of 3.5 seconds. *)
Definition throttled_world : World :=
  scripted_world
    (fun _ => Failure "429 RESOURCE_EXHAUSTED. Please retry in 3.5s.")
    (fun _ => Some "image").

(** The line feed, as a one-character string. *)
Definition newline : string := String "010"%char EmptyString.

(** A configuration with an API key, an old x offset and a comment. *)
Definition sample_env : list string :=
  ["GOOGLE_API_KEY=abc123"; "  HARVEY_X_OFFSET=3"; "# pointer calibration";
   "HARVEY_TTS=0"].

(** A Mac with the given process environment and [.env] file. *)
Definition store_world (environ : gmap string string)
           (dotenv : option (list string)) : World :=
  mkWorld true (1440, 900) None environ dotenv
          (fun _ => (100, 100)) 0 (fun _ => Some "Finder") 0
          (fun _ => Reply EmptyString) 0 (fun _ => None) 0 [].

Definition configured_world : World := store_world ∅ (Some sample_env).

(** A file that binds the x offset twice. *)
Definition twice_bound_world : World :=
  store_world ∅ (Some ["HARVEY_X_OFFSET=1"; "HARVEY_X_OFFSET=2"]).

(** A shell that exports an x offset of its own. *)
Definition exporting_shell : gmap string string :=
  {[ "HARVEY_X_OFFSET" := "9" ]}.

(** An environment whose x offset is well formed and whose y offset is
    written with a decimal comma. *)
Definition comma_offset_world : World :=
  store_world {[ "HARVEY_X_OFFSET" := "7"; "HARVEY_Y_OFFSET" := "1,5" ]} None.

(** An environment whose y offset is infinite. *)
Definition infinite_offset_world : World :=
  store_world {[ "HARVEY_X_OFFSET" := "3"; "HARVEY_Y_OFFSET" := "inf" ]} None.

(** Screen capture works, the reasoning service is unreachable. *)
Definition offline_world : World :=
  scripted_world (fun _ => Failure "503 Service Unavailable")
                 (fun _ => Some "image").

(** A Mac with the sample configuration whose pointer is found at
    (100, 100) first, and at (731, 446) once the user has put it on the
    true centre of the screen. *)
Definition miscentred_world : World :=
  mkWorld true (1440, 900) None ∅ (Some sample_env)
          (fun n => match n with O => (100, 100) | _ => (731, 446) end) 0
          (fun _ => Some "Finder") 0
          (fun _ => Reply EmptyString) 0 (fun _ => None) 0 [].

(** A Mac whose [.env] file holds offsets but no API key, started from a
    shell that exports none either. *)
Definition keyless_world : World :=
  store_world ∅ (Some ["HARVEY_X_OFFSET=4"; "HARVEY_Y_OFFSET=-2"]).

(** A conversation of one turn: the user asks for Notes and the
    assistant confirms; the analysis that follows names one action item. *)
Definition notes_studio : Studio :=
  mkStudio
    (fun n =>
       match n with
       | 7%nat => Gives (Some "Open Notes")
       | 9%nat => Gives (Some "I'll open Notes. [END_CONVERSATION]")
       | 15%nat => Gives (Some "1. Open Notes")
       | _ => Gives None
       end)
    [] (fun _ => "t") 0 [] fresh_result.

(** The language service cannot be reached at all. *)
Definition unreachable_studio : Studio :=
  mkStudio (fun _ => Breaks "503") [] (fun _ => "t") 0 [] fresh_result.

(** * Properties *)

(** ** Python builtins, evaluated *)

Example py_float_fraction :
  exists q, py_float " 3.5" = Some (Finite q) /\ (q == 3.5)%Q.
Proof. eexists. split; [vm_compute; reflexivity | reflexivity]. Qed.

Example py_float_malformed : py_float "1.2.3" = None /\ py_float "." = None.
Proof. split; reflexivity. Qed.

Example py_float_signed :
  exists q, py_float "-12" = Some (Finite q) /\ (q == -12)%Q.
Proof. eexists. split; [vm_compute; reflexivity | reflexivity]. Qed.

Example py_float_exponent :
  exists q, py_float "25e-1" = Some (Finite q) /\ (q == 2.5)%Q.
Proof. eexists. split; [vm_compute; reflexivity | reflexivity]. Qed.

Example py_float_special :
  py_float "-Inf" = Some (Infinite true) /\ py_float "nan" = Some NaN.
Proof. split; reflexivity. Qed.

Example str_split_plus :
  str_split "+"%char "cmd+shift+t" = ["cmd"; "shift"; "t"].
Proof. reflexivity. Qed.

Example str_strip_both_ends : str_strip "  a b  " = "a b".
Proof. reflexivity. Qed.

Example str_of_int_signs : str_of_int (-15) = "-15" /\ str_of_int 0 = "0".
Proof. split; reflexivity. Qed.

Example round_half_even_ties :
  round_half_even 0.5 = 0 /\ round_half_even 1.5 = 2 /\
  round_half_even 2.5 = 2 /\ round_half_even (-2.5) = -2 /\
  Qtrunc (-0.6) = 0 /\ Qtrunc 2.8 = 2.
Proof. repeat split; reflexivity. Qed.

(** ** Numbers *)

Lemma Qlt_bool_iff (a b : Q) : Qlt_bool a b = true <-> (a < b)%Q.
Proof.
  unfold Qlt_bool. rewrite negb_true_iff.
  split; intro H.
  - apply Qnot_le_lt. intro Hle. apply Qle_bool_iff in Hle. congruence.
  - destruct (Qle_bool b a) eqn:E; [|reflexivity].
    apply Qle_bool_iff in E. exfalso. exact (Qlt_not_le _ _ H E).
Qed.

Lemma Qlt_bool_false (a b : Q) : Qlt_bool a b = false <-> (b <= a)%Q.
Proof.
  unfold Qlt_bool. rewrite negb_false_iff. apply Qle_bool_iff.
Qed.

(** Clamping returns a rational of the unit interval whatever it is given,
    NaN and the infinities included. *)
Lemma clamp01_unit (r : pyfloat) :
  exists c : Q, clamp01 r = Finite c /\ (0 <= c <= 1)%Q.
Proof.
  unfold clamp01, py_min, py_max.
  destruct r as [q | [|] | ]; cbn.
  - destruct (Qlt_bool q 1) eqn:E1; cbn.
    + destruct (Qlt_bool 0 q) eqn:E0.
      * exists q. apply Qlt_bool_iff in E1, E0.
        split; [reflexivity | split; apply Qlt_le_weak; assumption].
      * exists 0%Q. split; [reflexivity | split; discriminate].
    + exists 1%Q. split; [reflexivity | split; discriminate].
  - exists 0%Q. split; [reflexivity | split; discriminate].
  - exists 1%Q. split; [reflexivity | split; discriminate].
  - exists 1%Q. split; [reflexivity | split; discriminate].
Qed.

Lemma round_half_even_range (q : Q) (n : Z) :
  (0 <= q)%Q -> (q <= inject_Z n)%Q -> 0 <= round_half_even q <= n.
Proof.
  intros H0 Hn.
  assert (Hf0 : 0 <= Qfloor q).
  { change 0 with (Qfloor 0). apply Qfloor_resp_le. exact H0. }
  assert (Hfn : Qfloor q <= n).
  { rewrite <- (Qfloor_Z n). apply Qfloor_resp_le. exact Hn. }
  assert (Hup : (0 < q - inject_Z (Qfloor q))%Q -> Qfloor q + 1 <= n).
  { intro Hpos.
    assert (Hlt : (inject_Z (Qfloor q) < inject_Z n)%Q).
    { apply Qlt_le_trans with q; [|exact Hn].
      apply (Qplus_lt_l _ _ (- inject_Z (Qfloor q))).
      rewrite Qplus_opp_r. exact Hpos. }
    rewrite <- Zlt_Qlt in Hlt. lia. }
  unfold round_half_even.
  destruct (q - inject_Z (Qfloor q) ?= 1 # 2)%Q eqn:E.
  - apply Qeq_alt in E.
    assert (Hpos : (0 < q - inject_Z (Qfloor q))%Q) by (rewrite E; reflexivity).
    specialize (Hup Hpos). destruct (Z.even (Qfloor q)); lia.
  - lia.
  - apply Qgt_alt in E.
    assert (Hpos : (0 < q - inject_Z (Qfloor q))%Q).
    { apply Qlt_trans with (1 # 2)%Q; [reflexivity | exact E]. }
    specialize (Hup Hpos). lia.
Qed.

Lemma scaled_ratio_range (c : Q) (n : Z) :
  (0 <= c <= 1)%Q -> 0 <= n ->
  (0 <= c * inject_Z n)%Q /\ (c * inject_Z n <= inject_Z n)%Q.
Proof.
  intros [Hc0 Hc1] Hn.
  assert (Hn' : (0 <= inject_Z n)%Q) by (rewrite Zle_Qle in Hn; exact Hn).
  split.
  - apply Qmult_le_0_compat; assumption.
  - apply Qle_trans with (1 * inject_Z n)%Q.
    + apply Qmult_le_compat_r; assumption.
    + rewrite Qmult_1_l. apply Qle_refl.
Qed.

(** ** Coordinate mapper *)

(** C1. Whatever ratio pair [_transform_coords] is handed (out-of-range
    values, infinities and NaN included), each component is first clamped to
    [0,1]; on a screen of at least one point per axis the conversion
    succeeds and the device point lies in
    [0, width-1] x [0, height-1].  No calibration offset is involved: that
    is added afterwards by [calibrate_click_position]. *)
Theorem transform_coords_clamped (w : World) (x_ratio y_ratio : pyfloat) :
  1 <= fst (get_screen_size w) ->
  1 <= snd (get_screen_size w) ->
  exists (cx cy : Q) (x y : Z),
    clamp01 x_ratio = Finite cx /\ (0 <= cx <= 1)%Q /\
    clamp01 y_ratio = Finite cy /\ (0 <= cy <= 1)%Q /\
    _transform_coords w x_ratio y_ratio = Some (x, y) /\
    0 <= x <= fst (get_screen_size w) - 1 /\
    0 <= y <= snd (get_screen_size w) - 1.
Proof.
  unfold get_screen_size, _transform_coords.
  destruct (get_screen_info w) as [[width height] scale]. cbn [fst snd].
  intros Hw Hh.
  destruct (clamp01_unit x_ratio) as (cx & Ex & Hcx).
  destruct (clamp01_unit y_ratio) as (cy & Ey & Hcy).
  exists cx, cy.
  exists (round_half_even (cx * inject_Z (width - 1))).
  exists (round_half_even (cy * inject_Z (height - 1))).
  rewrite Ex, Ey. cbn.
  destruct (scaled_ratio_range cx (width - 1) Hcx ltac:(lia)) as [Hx0 Hx1].
  destruct (scaled_ratio_range cy (height - 1) Hcy ltac:(lia)) as [Hy0 Hy1].
  do 5 (split; [first [reflexivity | exact Hcx | exact Hcy] |]).
  split; apply round_half_even_range; assumption.
Qed.

Lemma transform_coords_clamped_witness :
  exists (cx cy : Q) (x y : Z),
    clamp01 (Finite 2) = Finite cx /\ (0 <= cx <= 1)%Q /\
    clamp01 NaN = Finite cy /\ (0 <= cy <= 1)%Q /\
    _transform_coords retina_world (Finite 2) NaN = Some (x, y) /\
    0 <= x <= fst (get_screen_size retina_world) - 1 /\
    0 <= y <= snd (get_screen_size retina_world) - 1.
Proof.
  apply (transform_coords_clamped retina_world (Finite 2) NaN);
    vm_compute; discriminate.
Defined.

Lemma Qtrunc_comp (a b : Q) : (a == b)%Q -> Qtrunc a = Qtrunc b.
Proof.
  intro H. unfold Qtrunc.
  assert (E : Qle_bool 0 a = Qle_bool 0 b).
  { destruct (Qle_bool 0 a) eqn:Ea, (Qle_bool 0 b) eqn:Eb; try reflexivity.
    - apply Qle_bool_iff in Ea. rewrite H in Ea. apply Qle_bool_iff in Ea. congruence.
    - apply Qle_bool_iff in Eb. rewrite <- H in Eb. apply Qle_bool_iff in Eb. congruence. }
  rewrite E. destruct (Qle_bool 0 b).
  - apply Qfloor_comp, H.
  - apply Qceiling_comp, H.
Qed.

Lemma Qceiling_Z (z : Z) : Qceiling (inject_Z z) = z.
Proof.
  unfold Qceiling. change (- inject_Z z)%Q with (inject_Z (- z)).
  rewrite Qfloor_Z. lia.
Qed.

Lemma Qtrunc_Z (z : Z) : Qtrunc (inject_Z z) = z.
Proof.
  unfold Qtrunc. destruct (Qle_bool 0 (inject_Z z)).
  - apply Qfloor_Z.
  - apply Qceiling_Z.
Qed.

(** The conversion never looks at the scale factor: two displays of the
    same logical size map every ratio pair to the same device point. *)
Lemma transform_coords_scale_free (w1 w2 : World) (x_ratio y_ratio : pyfloat) :
  get_screen_size w1 = get_screen_size w2 ->
  _transform_coords w1 x_ratio y_ratio = _transform_coords w2 x_ratio y_ratio.
Proof.
  unfold get_screen_size, _transform_coords.
  destruct (get_screen_info w1) as [[wd1 ht1] s1].
  destruct (get_screen_info w2) as [[wd2 ht2] s2].
  intro H. injection H as -> ->. reflexivity.
Qed.

Lemma calibrate_zero_offsets (w : World) (x y : Z) :
  getenv w "HARVEY_X_OFFSET" "0" = "0" ->
  getenv w "HARVEY_Y_OFFSET" "0" = "0" ->
  calibrate_click_position w x y = Some (x, y).
Proof.
  intros Hx Hy. unfold calibrate_click_position. rewrite Hx, Hy.
  change (py_float "0") with (Some (Finite (inject_Z 0 * Qpow10 (0 - 0))%Q)).
  cbv beta iota. unfold float_of_int, fadd, py_int.
  assert (E : forall z, (inject_Z z + inject_Z 0 * Qpow10 (0 - 0) == inject_Z z)%Q).
  { intro z. change (Qpow10 (0 - 0)) with 1%Q. ring. }
  rewrite (Qtrunc_comp _ _ (E x)), (Qtrunc_comp _ _ (E y)), !Qtrunc_Z.
  reflexivity.
Qed.


(** C2. On a 1920x1080 display with no calibration offset, the ratio
    (0.5, 0.5) is converted to exactly (960, 540): [round] is Python's
    round-half-to-even, so round(959.5) = 960 and round(539.5) = 540.  The
    scale factor plays no part: displays with the same logical size convert
    every ratio pair alike, whatever their pixel mode. *)
Theorem center_exact_scale_unused (w w1 w2 : World) (x_ratio y_ratio : pyfloat) :
  get_screen_size w = (1920, 1080) ->
  getenv w "HARVEY_X_OFFSET" "0" = "0" ->
  getenv w "HARVEY_Y_OFFSET" "0" = "0" ->
  get_screen_size w1 = get_screen_size w2 ->
  _transform_coords w half half = Some (960, 540) /\
  calibrate_click_position w 960 540 = Some (960, 540) /\
  960 = round_half_even ((1 # 2) * inject_Z 1919) /\
  540 = round_half_even ((1 # 2) * inject_Z 1079) /\
  _transform_coords w1 x_ratio y_ratio = _transform_coords w2 x_ratio y_ratio.
Proof.
  intros Hsize Hx Hy Hsame.
  split; [|split; [|split; [|split]]].
  - unfold get_screen_size in Hsize. unfold _transform_coords.
    destruct (get_screen_info w) as [[width height] scale].
    injection Hsize as -> ->. reflexivity.
  - apply calibrate_zero_offsets; assumption.
  - reflexivity.
  - reflexivity.
  - apply transform_coords_scale_free, Hsame.
Qed.

Lemma center_exact_scale_unused_witness :
  _transform_coords plain_world half half = Some (960, 540) /\
  calibrate_click_position plain_world 960 540 = Some (960, 540) /\
  960 = round_half_even ((1 # 2) * inject_Z 1919) /\
  540 = round_half_even ((1 # 2) * inject_Z 1079) /\
  _transform_coords retina_world (Finite (1 # 3)) (Finite (3 # 4)) =
  _transform_coords lowdpi_world (Finite (1 # 3)) (Finite (3 # 4)).
Proof.
  apply (center_exact_scale_unused plain_world retina_world lowdpi_world);
    reflexivity.
Defined.

Example scale_differs :
  snd (get_screen_info retina_world) == 2 /\ snd (get_screen_info lowdpi_world) == 1.
Proof. split; reflexivity. Qed.

(** ** The effect monad *)

#[local] Arguments bezier_point : simpl never.
#[local] Arguments log_append : simpl never.

Lemma log_append_nil (w : World) : log_append [] w = w.
Proof. destruct w. unfold log_append. cbn. rewrite app_nil_r. reflexivity. Qed.

Lemma log_append_app (l1 l2 : list Event) (w : World) :
  log_append l2 (log_append l1 w) = log_append (l1 ++ l2) w.
Proof. unfold log_append. cbn. rewrite app_assoc. reflexivity. Qed.

Lemma emitted_log_append {A} (m : M A) (w : World) (r : result A) (evs : list Event) :
  m w = (r, log_append evs w) -> emitted m w = evs.
Proof.
  intro H. unfold emitted. rewrite H. cbn. apply drop_app_length.
Qed.

Lemma for_each_emits {A} (xs : list A) (body : A -> M unit) (tr : A -> list Event) :
  (forall x w, body x w = (Ok tt, log_append (tr x) w)) ->
  forall w, for_each xs body w = (Ok tt, log_append (flat_map tr xs) w).
Proof.
  intro Hbody. induction xs as [|x xs IH]; intro w; cbn.
  - unfold ret. rewrite log_append_nil. reflexivity.
  - unfold bind. rewrite Hbody, IH, log_append_app. reflexivity.
Qed.

(** ** Motion controller *)

Lemma smooth_move_mouse_run (w : World) (sx sy ex ey : Z) :
  w_quartz w = true ->
  smooth_move_mouse sx sy ex ey w = (Ok tt, log_append (move_trace sx sy ex ey) w).
Proof.
  intro Hq. unfold smooth_move_mouse, move_trace, bind, asks. rewrite Hq.
  cbv beta iota. change (negb true) with false. cbv iota.
  destruct (distance_sq sx sy ex ey <? 25)%Z.
  - unfold ret. rewrite log_append_nil. reflexivity.
  - apply for_each_emits. intros i w0.
    destruct (bezier_point (move_steps sx sy ex ey) i sx sy ex ey) as [x y].
    unfold sleep, emit, bind. rewrite log_append_app. reflexivity.
Qed.

Lemma smooth_move_mouse_no_quartz (w : World) (sx sy ex ey : Z) :
  w_quartz w = false -> smooth_move_mouse sx sy ex ey w = (Ok tt, w).
Proof.
  intro Hq. unfold smooth_move_mouse, bind, asks. rewrite Hq. reflexivity.
Qed.

Lemma moved_points_bezier (f : Z -> Z * Z) (l : list Z) :
  moved_points (flat_map (fun i => let '(x, y) := f i in
                                   [MouseMoved x y; Sleep 0.01]) l) = map f l.
Proof.
  induction l as [|i l IH]; cbn; [reflexivity|].
  destruct (f i) as [x y]. cbn. rewrite IH. reflexivity.
Qed.

Lemma range_succ (n : Z) : 0 <= n -> range (n + 1) = (range n ++ [n])%list.
Proof.
  intro Hn. unfold range.
  replace (Z.to_nat (n + 1)) with (S (Z.to_nat n)) by lia.
  rewrite seq_S, map_app. cbn. rewrite Z2Nat.id by lia. reflexivity.
Qed.

Lemma range_head (n : Z) : 0 < n -> exists rest, range n = 0 :: rest.
Proof.
  intro Hn. unfold range.
  destruct (Z.to_nat n) as [|k] eqn:E; [lia|].
  cbn. eexists. reflexivity.
Qed.

Lemma move_steps_pos (sx sy ex ey : Z) : 10 <= move_steps sx sy ex ey.
Proof. unfold move_steps. lia. Qed.

(** At [i = 0] the curve is at the start point. *)
Lemma bezier_point_first (steps sx sy ex ey : Z) :
  bezier_point steps 0 sx sy ex ey = (sx, sy).
Proof.
  unfold bezier_point.
  assert (Ht : (inject_Z 0 / inject_Z steps == 0)%Q).
  { unfold Qdiv. change (inject_Z 0) with 0%Q. ring. }
  f_equal.
  - transitivity (Qtrunc (inject_Z sx)); [|apply Qtrunc_Z].
    apply Qtrunc_comp. rewrite Ht. ring.
  - transitivity (Qtrunc (inject_Z sy)); [|apply Qtrunc_Z].
    apply Qtrunc_comp. rewrite Ht. ring.
Qed.

(** At [i = steps] the curve is at the destination, exactly. *)
Lemma bezier_point_last (steps sx sy ex ey : Z) :
  steps <> 0 -> bezier_point steps steps sx sy ex ey = (ex, ey).
Proof.
  intro Hs. unfold bezier_point.
  assert (Ht : (inject_Z steps / inject_Z steps == 1)%Q).
  { field. intro E. apply Hs. apply (proj1 (inject_Z_injective steps 0)). exact E. }
  f_equal.
  - transitivity (Qtrunc (inject_Z ex)); [|apply Qtrunc_Z].
    apply Qtrunc_comp. rewrite Ht. ring.
  - transitivity (Qtrunc (inject_Z ey)); [|apply Qtrunc_Z].
    apply Qtrunc_comp. rewrite Ht. ring.
Qed.

Lemma move_trace_points (sx sy ex ey : Z) :
  25 <= distance_sq sx sy ex ey ->
  moved_points (move_trace sx sy ex ey) =
  map (fun i => bezier_point (move_steps sx sy ex ey) i sx sy ex ey)
      (range (move_steps sx sy ex ey + 1)).
Proof.
  intro Hd. unfold move_trace. apply Z.ltb_ge in Hd. rewrite Hd.
  apply moved_points_bezier.
Qed.

Lemma move_trace_last (sx sy ex ey : Z) :
  25 <= distance_sq sx sy ex ey ->
  last (moved_points (move_trace sx sy ex ey)) = Some (ex, ey).
Proof.
  intro Hd. rewrite (move_trace_points _ _ _ _ Hd).
  pose proof (move_steps_pos sx sy ex ey) as Hsteps.
  rewrite range_succ by lia. rewrite map_app. cbn.
  rewrite last_snoc, bezier_point_last by lia. reflexivity.
Qed.

(** C3 (amended). Without Quartz, or when the squared distance is below
    25 (distance < 5), [smooth_move_mouse] posts nothing.  With Quartz and
    distance >= 5 it posts [steps + 1] move events; the first one is at the
    start point itself (the curve at t = 0) and the last one is exactly the
    destination. *)
Theorem smooth_move_endpoints (w : World) (sx sy ex ey : Z) :
  let evs := emitted (smooth_move_mouse sx sy ex ey) w in
  (w_quartz w = false \/ distance_sq sx sy ex ey < 25 -> evs = []) /\
  (w_quartz w = true -> 25 <= distance_sq sx sy ex ey ->
   length (moved_points evs) = Z.to_nat (move_steps sx sy ex ey + 1) /\
   head (moved_points evs) = Some (sx, sy) /\
   last (moved_points evs) = Some (ex, ey)).
Proof.
  cbv zeta. split.
  - intros [Hq | Hd].
    + apply (emitted_log_append _ _ (Ok tt)).
      rewrite smooth_move_mouse_no_quartz, log_append_nil by exact Hq. reflexivity.
    + destruct (w_quartz w) eqn:Hq.
      * rewrite (emitted_log_append _ _ _ _ (smooth_move_mouse_run w sx sy ex ey Hq)).
        unfold move_trace. apply Z.ltb_lt in Hd. rewrite Hd. reflexivity.
      * apply (emitted_log_append _ _ (Ok tt)).
        rewrite smooth_move_mouse_no_quartz, log_append_nil by exact Hq. reflexivity.
  - intros Hq Hd.
    rewrite (emitted_log_append _ _ _ _ (smooth_move_mouse_run w sx sy ex ey Hq)).
    split; [|split; [|apply move_trace_last, Hd]].
    + rewrite (move_trace_points _ _ _ _ Hd), length_map.
      unfold range. rewrite length_map, length_seq. reflexivity.
    + rewrite (move_trace_points _ _ _ _ Hd).
      pose proof (move_steps_pos sx sy ex ey) as Hsteps.
      destruct (range_head (move_steps sx sy ex ey + 1)) as [rest ->]; [lia|].
      cbn. rewrite bezier_point_first. reflexivity.
Qed.

Lemma smooth_move_endpoints_witness :
  let evs := emitted (smooth_move_mouse 0 0 100 0) retina_world in
  length (moved_points evs) = Z.to_nat (move_steps 0 0 100 0 + 1) /\
  head (moved_points evs) = Some (0, 0) /\
  last (moved_points evs) = Some (100, 0).
Proof.
  apply (proj2 (smooth_move_endpoints retina_world 0 0 100 0)).
  - reflexivity.
  - vm_compute. discriminate.
Defined.

(** C3 as stated fails: moving from (0, 0) to (100, 0), a distance of 100,
    the first point posted is the start (0, 0) itself and not its successor
    on the curve, which is (2, 0). *)
Lemma smooth_move_first_point_counterexample :
  let pts := moved_points (emitted (smooth_move_mouse 0 0 100 0) retina_world) in
  25 <= distance_sq 0 0 100 0 /\
  head pts = Some (0, 0) /\
  bezier_point (move_steps 0 0 100 0) 1 0 0 100 0 = (2, 0) /\
  head pts <> Some (bezier_point (move_steps 0 0 100 0) 1 0 0 100 0).
Proof.
  cbv zeta. split; [vm_compute; discriminate|].
  split; [vm_compute; reflexivity|].
  split; [vm_compute; reflexivity|].
  vm_compute. discriminate.
Qed.

(** ** Click entry points *)

(** With Spotlight frontmost a single click asks the detector and presses
    Return once; no pointer event is posted. *)
Example ultra_precise_click_spotlight :
  emitted (ultra_precise_click half half) spotlight_world =
  [Osascript; KeyDown 36 None; Sleep 0.02; KeyUp 36 None].
Proof. vm_compute. reflexivity. Qed.

(** C7 (defect). [double_click] never consults the Spotlight detector: with
    Spotlight frontmost it still moves the pointer to (720, 450) and posts
    two pairs of button events there; there is no [Osascript] query and no
    key press in its trace. *)
Theorem double_click_skips_spotlight_check :
  emitted (double_click half half) spotlight_world =
  ([GetLocation] ++ move_trace 100 100 720 450 ++ [Sleep 0.2; GetLocation]
   ++ click_at 720 450 ++ [Sleep 0.1] ++ click_at 720 450 ++ [Sleep 0.1])%list /\
  ~ In Osascript (emitted (double_click half half) spotlight_world) /\
  (forall code flags,
      ~ In (KeyDown code flags) (emitted (double_click half half) spotlight_world)).
Proof.
  split; [vm_compute; reflexivity|].
  split; [|intros code flags]; intro H; vm_compute in H;
    repeat (destruct H as [H | H]; [discriminate H|]); exact H.
Qed.

(** In [double_click] a drift of three points exceeds the tolerance of 2,
    so the corrective move is made (its 0.1 s pause is in the trace); as
    [smooth_move_mouse] posts nothing below a distance of 5, that move
    consists of no event. *)
Example double_click_small_drift :
  drifted 2 (723, 450) (720, 450) = true /\
  move_trace 723 450 720 450 = [] /\
  emitted (double_click half half) drift3_world =
  ([GetLocation] ++ move_trace 100 100 720 450 ++ [Sleep 0.2; GetLocation]
   ++ [Sleep 0.1]
   ++ click_at 720 450 ++ [Sleep 0.1] ++ click_at 720 450 ++ [Sleep 0.1])%list.
Proof. repeat split; vm_compute; reflexivity. Qed.

(** With a drift beyond five points on an axis both entry points do issue
    the corrective move. *)
Example double_click_large_drift_corrected :
  emitted (double_click half half) drift8_world =
  ([GetLocation] ++ move_trace 100 100 720 450 ++ [Sleep 0.2; GetLocation]
   ++ move_trace 728 450 720 450 ++ [Sleep 0.1]
   ++ click_at 720 450 ++ [Sleep 0.1] ++ click_at 720 450 ++ [Sleep 0.1])%list /\
  last (moved_points (move_trace 728 450 720 450)) = Some (720, 450).
Proof. split; vm_compute; reflexivity. Qed.

(** ** Post-move verification *)

Lemma bind_ok {A B} (m : M A) (k : A -> M B) (w w' : World) (a : A) :
  m w = (Ok a, w') -> bind m k w = k a w'.
Proof. unfold bind. intros ->. reflexivity. Qed.

Lemma emitted_app {A} (m : M A) (w : World) (evs : list Event) :
  w_log (snd (m w)) = (w_log w ++ evs)%list -> emitted m w = evs.
Proof. intro H. unfold emitted. rewrite H. apply drop_app_length. Qed.

(** A drift beyond five points on either axis is a distance of at least
    five, so the corrective move of a single click is never swallowed. *)
Lemma drifted_5_far (final target : Z * Z) :
  drifted 5 final target = true ->
  25 <= distance_sq (fst final) (snd final) (fst target) (snd target).
Proof.
  unfold drifted, distance_sq. destruct final as [fx fy], target as [tx ty].
  cbn [fst snd]. intro H. apply orb_true_iff in H.
  destruct H as [H|H]; apply Z.ltb_lt in H; nia.
Qed.

Lemma get_position_run (w : World) :
  w_quartz w = true ->
  get_current_mouse_position w = (Ok (w_pointer w (w_pointer_reads w)), pointer_read w).
Proof. intro Hq. unfold get_current_mouse_position. rewrite Hq. reflexivity. Qed.

Lemma correction_run (tol : Z) (pause : Q) (final target : Z * Z) (w : World) :
  w_quartz w = true ->
  (if drifted tol final target
   then smooth_move_mouse (fst final) (snd final) (fst target) (snd target) ;;
        sleep pause
   else ret tt) w
  = (Ok tt, log_append (correction tol pause final target) w).
Proof.
  intro Hq. unfold correction. destruct (drifted tol final target).
  - unfold bind. rewrite (smooth_move_mouse_run w) by exact Hq.
    unfold sleep, emit. rewrite log_append_app. reflexivity.
  - unfold ret. rewrite log_append_nil. reflexivity.
Qed.

Lemma click_run (x y : Z) (w : World) :
  try_catch (emit (LeftMouseDown x y) ;; sleep 0.05 ;; emit (LeftMouseUp x y))
            (fun _ => ret tt) w
  = (Ok tt, log_append (click_at x y) w).
Proof.
  unfold try_catch, bind, sleep, emit, click_at.
  rewrite !log_append_app. reflexivity.
Qed.

Lemma double_click_buttons_run (x y : Z) (w : World) :
  try_catch
    (for_each (range 2) (fun _ =>
       emit (LeftMouseDown x y) ;;
       sleep 0.05 ;;
       emit (LeftMouseUp x y) ;;
       sleep 0.1))
    (fun _ => ret tt) w
  = (Ok tt,
     log_append (click_at x y ++ [Sleep 0.1] ++ click_at x y ++ [Sleep 0.1]) w).
Proof.
  unfold try_catch.
  rewrite (for_each_emits _ _ (fun _ => (click_at x y ++ [Sleep 0.1])%list)).
  - reflexivity.
  - intros _ w0. unfold sleep, emit, bind, click_at.
    rewrite !log_append_app. reflexivity.
Qed.

(** What the world transformers do to the fields the click entry points
    read. *)
Lemma w_log_log_append (evs : list Event) (w : World) :
  w_log (log_append evs w) = (w_log w ++ evs)%list.
Proof. reflexivity. Qed.

Lemma w_log_pointer_read (w : World) :
  w_log (pointer_read w) = (w_log w ++ [GetLocation])%list.
Proof. reflexivity. Qed.

Lemma w_log_frontmost_read (w : World) :
  w_log (frontmost_read w) = (w_log w ++ [Osascript])%list.
Proof. reflexivity. Qed.

Lemma w_pointer_log_append (evs : list Event) (w : World) :
  w_pointer (log_append evs w) = w_pointer w.
Proof. reflexivity. Qed.

Lemma w_pointer_pointer_read (w : World) : w_pointer (pointer_read w) = w_pointer w.
Proof. reflexivity. Qed.

Lemma w_pointer_frontmost_read (w : World) :
  w_pointer (frontmost_read w) = w_pointer w.
Proof. reflexivity. Qed.

Lemma w_pointer_reads_log_append (evs : list Event) (w : World) :
  w_pointer_reads (log_append evs w) = w_pointer_reads w.
Proof. reflexivity. Qed.

Lemma w_pointer_reads_pointer_read (w : World) :
  w_pointer_reads (pointer_read w) = S (w_pointer_reads w).
Proof. reflexivity. Qed.

Lemma w_pointer_reads_frontmost_read (w : World) :
  w_pointer_reads (frontmost_read w) = w_pointer_reads w.
Proof. reflexivity. Qed.

Lemma w_quartz_log_append (evs : list Event) (w : World) :
  w_quartz (log_append evs w) = w_quartz w.
Proof. reflexivity. Qed.

Lemma w_quartz_pointer_read (w : World) : w_quartz (pointer_read w) = w_quartz w.
Proof. reflexivity. Qed.

Lemma w_quartz_frontmost_read (w : World) :
  w_quartz (frontmost_read w) = w_quartz w.
Proof. reflexivity. Qed.

Create Rewrite HintDb world.

#[local] Hint Rewrite w_log_log_append w_log_pointer_read w_log_frontmost_read
  w_pointer_log_append w_pointer_pointer_read w_pointer_frontmost_read
  w_pointer_reads_log_append w_pointer_reads_pointer_read
  w_pointer_reads_frontmost_read w_quartz_log_append w_quartz_pointer_read
  w_quartz_frontmost_read : world.

#[local] Opaque log_append pointer_read frontmost_read.

(** The trace of a single click when Spotlight is not frontmost: one move
    towards the target, one position check, at most one corrective move,
    and the button events at the position read last. *)
Lemma ultra_precise_click_trace (w : World) (x_ratio y_ratio : pyfloat)
      (xy target : Z * Z) :
  w_quartz w = true ->
  spotlight_frontmost (w_frontmost w (w_frontmost_reads w)) = false ->
  _transform_coords w x_ratio y_ratio = Some xy ->
  calibrate_click_position w (fst xy) (snd xy) = Some target ->
  let n := w_pointer_reads w in
  let cur := w_pointer w n in
  let final := w_pointer w (S n) in
  let click := w_pointer w (S (S n)) in
  emitted (ultra_precise_click x_ratio y_ratio) w =
  ([Osascript; GetLocation]
   ++ move_trace (fst cur) (snd cur) (fst target) (snd target)
   ++ [Sleep 0.15; GetLocation]
   ++ correction 5 0.05 final target
   ++ [GetLocation] ++ click_at (fst click) (snd click))%list.
Proof.
  intros Hq Hspot Hxy Htarget. cbv zeta.
  apply emitted_app.
  unfold ultra_precise_click.
  rewrite (bind_ok _ _ w w true) by (unfold asks; rewrite Hq; reflexivity).
  change (negb true) with false. cbv iota.
  rewrite (bind_ok _ _ w (frontmost_read w) false)
    by (unfold _is_spotlight_active; rewrite Hspot; reflexivity).
  cbv iota.
  assert (Hq1 : w_quartz (frontmost_read w) = true)
    by (rewrite w_quartz_frontmost_read; exact Hq).
  assert (Hxy1 : _transform_coords (frontmost_read w) x_ratio y_ratio = Some xy)
    by (rewrite <- Hxy; reflexivity).
  assert (Htarget1 :
            calibrate_click_position (frontmost_read w) (fst xy) (snd xy) = Some target)
    by (rewrite <- Htarget; reflexivity).
  set (w1 := frontmost_read w) in *.
  rewrite (bind_ok _ _ w1 w1 xy) by (unfold reading; rewrite Hxy1; reflexivity).
  rewrite (bind_ok _ _ w1 w1 target)
    by (unfold reading; rewrite Htarget1; reflexivity).
  rewrite (bind_ok _ _ _ _ _ (get_position_run w1 Hq1)).
  assert (Hq2 : w_quartz (pointer_read w1) = true)
    by (rewrite w_quartz_pointer_read; exact Hq1).
  rewrite (bind_ok _ _ _ _ _ (smooth_move_mouse_run _ _ _ _ _ Hq2)).
  unfold sleep at 1.
  rewrite (bind_ok _ _ _ _ tt (eq_refl : emit (Sleep 0.15) _ = (Ok tt, log_append _ _))).
  match goal with
  | |- context [bind get_current_mouse_position _ ?w4] =>
      assert (Hq4 : w_quartz w4 = true)
        by (autorewrite with world; exact Hq);
      rewrite (bind_ok _ _ _ _ _ (get_position_run w4 Hq4))
  end.
  match goal with
  | |- context [bind (if drifted 5 ?final target then _ else _) _ ?w5] =>
      assert (Hq5 : w_quartz w5 = true)
        by (autorewrite with world; exact Hq);
      rewrite (bind_ok _ _ _ _ _ (correction_run 5 0.05 final target w5 Hq5))
  end.
  match goal with
  | |- context [bind get_current_mouse_position _ ?w6] =>
      assert (Hq6 : w_quartz w6 = true)
        by (autorewrite with world; exact Hq);
      rewrite (bind_ok _ _ _ _ _ (get_position_run w6 Hq6))
  end.
  rewrite click_run. cbn [snd]. subst w1.
  autorewrite with world.
  repeat rewrite <- app_assoc. reflexivity.
Qed.

(** The trace of a double click: as for a single click, without the
    Spotlight query, with a tolerance of two points, and with the button
    events at the target itself. *)
Lemma double_click_trace (w : World) (x_ratio y_ratio : pyfloat)
      (xy target : Z * Z) :
  w_quartz w = true ->
  _transform_coords w x_ratio y_ratio = Some xy ->
  calibrate_click_position w (fst xy) (snd xy) = Some target ->
  let n := w_pointer_reads w in
  let cur := w_pointer w n in
  let final := w_pointer w (S n) in
  emitted (double_click x_ratio y_ratio) w =
  ([GetLocation]
   ++ move_trace (fst cur) (snd cur) (fst target) (snd target)
   ++ [Sleep 0.2; GetLocation]
   ++ correction 2 0.1 final target
   ++ click_at (fst target) (snd target) ++ [Sleep 0.1]
   ++ click_at (fst target) (snd target) ++ [Sleep 0.1])%list.
Proof.
  intros Hq Hxy Htarget. cbv zeta.
  apply emitted_app.
  unfold double_click.
  rewrite (bind_ok _ _ w w true) by (unfold asks; rewrite Hq; reflexivity).
  change (negb true) with false. cbv iota.
  rewrite (bind_ok _ _ w w xy) by (unfold reading; rewrite Hxy; reflexivity).
  rewrite (bind_ok _ _ w w target) by (unfold reading; rewrite Htarget; reflexivity).
  rewrite (bind_ok _ _ _ _ _ (get_position_run w Hq)).
  assert (Hq2 : w_quartz (pointer_read w) = true)
    by (rewrite w_quartz_pointer_read; exact Hq).
  rewrite (bind_ok _ _ _ _ _ (smooth_move_mouse_run _ _ _ _ _ Hq2)).
  unfold sleep at 1.
  rewrite (bind_ok _ _ _ _ tt (eq_refl : emit (Sleep 0.2) _ = (Ok tt, log_append _ _))).
  match goal with
  | |- context [bind get_current_mouse_position _ ?w4] =>
      assert (Hq4 : w_quartz w4 = true)
        by (autorewrite with world; exact Hq);
      rewrite (bind_ok _ _ _ _ _ (get_position_run w4 Hq4))
  end.
  match goal with
  | |- context [bind (if drifted 2 ?final target then _ else _) _ ?w5] =>
      assert (Hq5 : w_quartz w5 = true)
        by (autorewrite with world; exact Hq);
      rewrite (bind_ok _ _ _ _ _ (correction_run 2 0.1 final target w5 Hq5))
  end.
  rewrite double_click_buttons_run. cbn [snd].
  autorewrite with world.
  repeat rewrite <- app_assoc. reflexivity.
Qed.

(** A single click's correction always reaches the target. *)
Lemma click_correction_reaches_target (pause : Q) (final target : Z * Z) :
  drifted 5 final target = true ->
  last (moved_points (correction 5 pause final target)) = Some target.
Proof.
  intro Hd. unfold correction. rewrite Hd.
  pose proof (move_trace_last _ _ _ _ (drifted_5_far final target Hd)) as Hlast.
  assert (Happ : forall evs p, moved_points (evs ++ [Sleep p]) = moved_points evs).
  { induction evs as [|e evs IH]; intro p; [reflexivity|].
    destruct e; cbn; rewrite ?IH; reflexivity. }
  rewrite Happ, Hlast. destruct target; reflexivity.
Qed.

(** A double click's correction of a drift of three or four points along
    one axis posts no move event at all. *)
Lemma double_click_correction_swallowed (pause : Q) (tx ty d : Z) :
  3 <= d <= 4 ->
  drifted 2 (tx + d, ty) (tx, ty) = true /\
  correction 2 pause (tx + d, ty) (tx, ty) = [Sleep pause].
Proof.
  intro Hd.
  assert (Hdrift : drifted 2 (tx + d, ty) (tx, ty) = true).
  { unfold drifted. cbn [fst snd]. apply orb_true_iff. left.
    apply Z.ltb_lt. lia. }
  split; [exact Hdrift|].
  unfold correction. rewrite Hdrift. unfold move_trace, distance_sq. cbn [fst snd].
  replace (Z.ltb ((tx - (tx + d)) ^ 2 + (ty - ty) ^ 2) 25) with true; [reflexivity|].
  symmetry. apply Z.ltb_lt. nia.
Qed.



(** On every display: when the pointer is found three or four points
    beside the target after the move, a double click goes on to press the
    button without having posted a single corrective move event. *)
Lemma double_click_drift_uncorrected (w : World) (x_ratio y_ratio : pyfloat)
      (xy target : Z * Z) (d : Z) :
  w_quartz w = true ->
  _transform_coords w x_ratio y_ratio = Some xy ->
  calibrate_click_position w (fst xy) (snd xy) = Some target ->
  w_pointer w (S (w_pointer_reads w)) = (fst target + d, snd target) ->
  3 <= d <= 4 ->
  let cur := w_pointer w (w_pointer_reads w) in
  emitted (double_click x_ratio y_ratio) w =
  ([GetLocation]
   ++ move_trace (fst cur) (snd cur) (fst target) (snd target)
   ++ [Sleep 0.2; GetLocation; Sleep 0.1]
   ++ click_at (fst target) (snd target) ++ [Sleep 0.1]
   ++ click_at (fst target) (snd target) ++ [Sleep 0.1])%list.
Proof.
  intros Hq Hxy Htarget Hfinal Hd. cbv zeta.
  rewrite (double_click_trace w x_ratio y_ratio xy target Hq Hxy Htarget).
  cbv zeta. rewrite Hfinal. destruct target as [tx ty]. cbn [fst snd].
  destruct (double_click_correction_swallowed 0.1 tx ty d Hd) as [_ ->].
  reflexivity.
Qed.

Lemma move_trace_events (sx sy ex ey : Z) (e : Event) :
  In e (move_trace sx sy ex ey) ->
  (exists x y, e = MouseMoved x y) \/ e = Sleep 0.01.
Proof.
  unfold move_trace. destruct (Z.ltb (distance_sq sx sy ex ey) 25); [intros []|].
  intro H. apply in_flat_map in H. destruct H as (i & _ & H).
  destruct (bezier_point _ i sx sy ex ey) as [x y].
  destruct H as [<-|[<-|[]]]; [left; eexists _, _; reflexivity | right; reflexivity].
Qed.

(** Whatever is frontmost, [double_click] posts its button events and never
    runs the frontmost-process query. *)
Lemma double_click_never_queries (w : World) (x_ratio y_ratio : pyfloat)
      (xy target : Z * Z) :
  w_quartz w = true ->
  _transform_coords w x_ratio y_ratio = Some xy ->
  calibrate_click_position w (fst xy) (snd xy) = Some target ->
  ~ In Osascript (emitted (double_click x_ratio y_ratio) w) /\
  In (LeftMouseDown (fst target) (snd target))
     (emitted (double_click x_ratio y_ratio) w).
Proof.
  intros Hq Hxy Htarget.
  rewrite (double_click_trace w x_ratio y_ratio xy target Hq Hxy Htarget).
  split.
  - intro H. repeat (apply in_app_or in H; destruct H as [H|H]).
    + destruct H as [H|[]]. discriminate H.
    + apply move_trace_events in H. destruct H as [(x & y & H)|H]; discriminate H.
    + destruct H as [H|[H|[]]]; discriminate H.
    + unfold correction in H. destruct (drifted 2 _ target); [|destruct H].
      apply in_app_or in H. destruct H as [H|[H|[]]]; [|discriminate H].
      apply move_trace_events in H. destruct H as [(x & y & H)|H]; discriminate H.
    + destruct H as [H|[H|[H|[]]]]; discriminate H.
    + destruct H as [H|[]]. discriminate H.
    + destruct H as [H|[H|[H|[]]]]; discriminate H.
    + destruct H as [H|[]]. discriminate H.
  - apply in_or_app. right. apply in_or_app. right. apply in_or_app. right.
    apply in_or_app. right. apply in_or_app. left. left. reflexivity.
Qed.

(** ** Strings *)

Lemma prefix_comparable (p q s : string) :
  String.prefix p s = true -> String.prefix q s = true ->
  String.prefix p q = true \/ String.prefix q p = true.
Proof.
  revert q s. induction p as [|a p IH]; intros q s Hp Hq.
  - left. destruct q; reflexivity.
  - destruct q as [|b q]; [right; reflexivity|].
    destruct s as [|c s]; [discriminate|].
    cbn in Hp, Hq |- *.
    destruct (ascii_dec a c) as [->|]; [|discriminate].
    destruct (ascii_dec b c) as [->|]; [|discriminate].
    destruct (ascii_dec c c) as [_|Hne]; [|contradiction].
    exact (IH q s Hp Hq).
Qed.

(** Two words neither of which begins the other cannot both begin [s]. *)
Lemma startswith_exclusive (s p q : string) :
  String.prefix p q = false -> String.prefix q p = false ->
  startswith s p = true -> startswith s q = false.
Proof.
  unfold startswith. intros Hpq Hqp Hp.
  destruct (String.prefix q s) eqn:Hq; [|reflexivity].
  destruct (prefix_comparable p q s Hp Hq); congruence.
Qed.

Lemma chars_rev_onto (s acc : string) :
  chars (str_rev_onto s acc) = (rev (chars s) ++ chars acc)%list.
Proof.
  revert acc. induction s as [|c s IH]; intro acc; cbn; [reflexivity|].
  rewrite IH. cbn. rewrite <- app_assoc. reflexivity.
Qed.

Lemma chars_rev (s : string) : chars (str_rev s) = rev (chars s).
Proof. unfold str_rev. rewrite chars_rev_onto. cbn. apply app_nil_r. Qed.

Lemma chars_inj (s t : string) : chars s = chars t -> s = t.
Proof.
  intro H. rewrite <- (string_of_list_ascii_of_string s),
             <- (string_of_list_ascii_of_string t).
  unfold chars in H. rewrite H. reflexivity.
Qed.

Lemma str_rev_involutive (s : string) : str_rev (str_rev s) = s.
Proof. apply chars_inj. rewrite !chars_rev. apply rev_involutive. Qed.

Lemma str_lstrip_id (s : string) :
  Forall (fun c => is_space c = false) (chars s) -> str_lstrip s = s.
Proof.
  destruct s as [|c s]; [reflexivity|].
  cbn. intro H. inversion H as [|? ? Hc _]; subst. rewrite Hc. reflexivity.
Qed.

(** [strip] leaves a text without whitespace as it is. *)
Lemma str_strip_id (s : string) :
  Forall (fun c => is_space c = false) (chars s) -> str_strip s = s.
Proof.
  intro H. unfold str_strip, str_rstrip.
  rewrite (str_lstrip_id s H).
  rewrite str_lstrip_id.
  - apply str_rev_involutive.
  - rewrite chars_rev. apply Forall_rev. exact H.
Qed.

Lemma append_cons (c : ascii) (s t : string) :
  String c s ++ t = String c (s ++ t).
Proof. reflexivity. Qed.

Lemma append_nil (t : string) : EmptyString ++ t = t.
Proof. reflexivity. Qed.

Lemma chars_app (s t : string) : chars (s ++ t) = (chars s ++ chars t)%list.
Proof.
  unfold chars. induction s as [|c s IH]; [reflexivity|].
  rewrite append_cons. cbn. rewrite IH. reflexivity.
Qed.

Lemma str_span_spec (p : ascii -> bool) (s a b : string) :
  str_span p s = (a, b) ->
  s = a ++ b /\ Forall (fun c => p c = true) (chars a) /\
  match b with String c _ => p c = false | EmptyString => True end.
Proof.
  revert a b. induction s as [|c s IH]; intros a b H; cbn in H.
  - injection H as <- <-. repeat split. constructor.
  - destruct (p c) eqn:Hc.
    + destruct (str_span p s) as [a' b'] eqn:E.
      injection H as <- <-.
      destruct (IH a' b' eq_refl) as (Hs & Ha & Hb).
      split; [rewrite append_cons; congruence|]. split; [|exact Hb].
      cbn. constructor; assumption.
    + injection H as <- <-. repeat split; [constructor | exact Hc].
Qed.

Lemma re_search_found {A} (match_at : string -> option A) (s : string) (g : A) :
  re_search match_at s = Some g -> exists s', match_at s' = Some g.
Proof.
  induction s as [|c s IH]; cbn; intro H.
  - destruct (match_at EmptyString) eqn:E; [|discriminate].
    exists EmptyString. congruence.
  - destruct (match_at (String c s)) eqn:E.
    + exists (String c s). congruence.
    + apply IH, H.
Qed.

(** Reading a run of digits followed by something that is not a digit. *)
Lemma read_digits_run (a rest : string) (acc : Z) (n : nat) :
  Forall (fun c => is_digit c = true) (chars a) ->
  match rest with String c _ => is_digit c = false | EmptyString => True end ->
  exists v, read_digits (a ++ rest) acc n = (v, (n + String.length a)%nat, rest).
Proof.
  revert acc n. induction a as [|c a IH]; intros acc n Ha Hrest.
  - rewrite append_nil. cbn. exists acc. rewrite Nat.add_0_r.
    destruct rest as [|c r]; [reflexivity|]. cbn. rewrite Hrest. reflexivity.
  - cbn in Ha. inversion Ha as [|? ? Hc Ha']; subst.
    rewrite append_cons. cbn. rewrite Hc.
    destruct (IH (10 * acc + digit_val c) (S n) Ha' Hrest) as [v Hv].
    exists v. rewrite Hv. f_equal. f_equal. lia.
Qed.

Lemma append_empty_r (s : string) : s ++ EmptyString = s.
Proof.
  induction s as [|c s IH]; [reflexivity|].
  rewrite append_cons, IH. reflexivity.
Qed.

Lemma digit_not_space (c : ascii) : is_digit c = true -> is_space c = false.
Proof.
  unfold is_digit, is_space. intro H.
  apply andb_true_iff in H. destruct H as [H1 H2].
  apply Nat.leb_le in H1. apply Nat.leb_le in H2.
  apply orb_false_iff. split; apply andb_false_iff.
  - right. apply Nat.leb_gt. lia.
  - right. apply Nat.leb_gt. lia.
Qed.

Lemma read_decimal_integer (d1 : string) :
  truthy d1 = true ->
  Forall (fun c => is_digit c = true) (chars d1) ->
  exists q, read_decimal d1 = Some q.
Proof.
  intros Hne Hd1. unfold read_decimal.
  destruct (read_digits_run d1 EmptyString 0 0 Hd1 I) as [v Hv].
  rewrite append_empty_r in Hv. rewrite Hv. cbn.
  destruct d1 as [|c d1]; [discriminate|]. cbn. eexists. reflexivity.
Qed.

Lemma read_decimal_fraction (d1 d2 : string) :
  truthy d1 = true ->
  Forall (fun c => is_digit c = true) (chars d1) ->
  Forall (fun c => is_digit c = true) (chars d2) ->
  exists q, read_decimal (d1 ++ "." ++ d2) = Some q.
Proof.
  intros Hne Hd1 Hd2. unfold read_decimal.
  destruct (read_digits_run d1 ("." ++ d2) 0 0 Hd1 eq_refl) as [v Hv].
  rewrite Hv. change ("." ++ d2) with (String "."%char d2). cbv iota beta.
  destruct (read_digits_run d2 EmptyString v 0 Hd2 I) as [m Hm].
  rewrite append_empty_r in Hm. rewrite Hm.
  destruct d1 as [|c d1]; [discriminate|]. cbn. eexists. reflexivity.
Qed.

(** A text led by a digit is neither signed nor one of the special
    values, so [float] goes by its decimal reading. *)
Lemma py_float_unsigned (c : ascii) (r : string) :
  is_digit c = true ->
  str_strip (String c r) = String c r ->
  py_float (String c r) =
  match read_decimal (String c r) with
  | Some q => Some (Finite q)
  | None => None
  end.
Proof.
  intros Hc Hstrip. unfold py_float. rewrite Hstrip.
  destruct c as [[] [] [] [] [] [] [] []]; try discriminate Hc; reflexivity.
Qed.

(** The group captured by the retry-delay pattern always denotes a finite
    number: [float(group)] cannot raise. *)
Lemma retry_group_float (s g : string) :
  match_retry_at s = Some g -> exists d, py_float g = Some (Finite d).
Proof.
  unfold match_retry_at. intro H.
  destruct (String.prefix "Please retry in " s); [|discriminate].
  destruct (str_span is_digit (str_drop 16 s)) as [d1 rest] eqn:E1.
  destruct (str_span_spec _ _ _ _ E1) as (_ & Hd1 & _).
  destruct (truthy d1) eqn:Hne; [|discriminate].
  assert (Hspace1 : Forall (fun c => is_space c = false) (chars d1)).
  { eapply Forall_impl; [exact Hd1|]. intros c Hc. apply digit_not_space, Hc. }
  assert (Hint : exists d, py_float d1 = Some (Finite d)).
  { destruct (read_decimal_integer d1 Hne Hd1) as [q Hq].
    destruct d1 as [|c d1']; [discriminate|].
    rewrite py_float_unsigned, Hq.
    - eexists. reflexivity.
    - cbn in Hd1. inversion Hd1; assumption.
    - apply str_strip_id, Hspace1. }
  destruct rest as [|c rest]; [discriminate|].
  destruct (Ascii.eqb c "s"%char) eqn:Es.
  { apply Ascii.eqb_eq in Es. subst c. injection H as <-. exact Hint. }
  destruct (Ascii.eqb c "."%char) eqn:Ep.
  - apply Ascii.eqb_eq in Ep. subst c. cbv iota beta in H.
    destruct (str_span is_digit rest) as [d2 rest2] eqn:E2.
    destruct (str_span_spec _ _ _ _ E2) as (_ & Hd2 & _).
    destruct rest2 as [|c2 rest2]; [discriminate|].
    destruct (Ascii.eqb c2 "s"%char) eqn:Es2.
    + apply Ascii.eqb_eq in Es2. subst c2. injection H as <-.
      destruct (read_decimal_fraction d1 d2 Hne Hd1 Hd2) as [q Hq].
      destruct d1 as [|c d1']; [discriminate|].
      rewrite append_cons in Hq |- *.
      rewrite py_float_unsigned, Hq.
      * eexists. reflexivity.
      * cbn in Hd1. inversion Hd1; assumption.
      * rewrite <- append_cons. apply str_strip_id.
        rewrite !chars_app. apply Forall_app. split; [exact Hspace1|].
        apply Forall_app. split; [repeat constructor|].
        eapply Forall_impl; [exact Hd2|]. intros c0 Hc0. apply digit_not_space, Hc0.
    + exfalso. apply Ascii.eqb_neq in Es2.
      destruct c2 as [[] [] [] [] [] [] [] []]; try discriminate H.
      apply Es2. reflexivity.
  - exfalso. apply Ascii.eqb_neq in Es. apply Ascii.eqb_neq in Ep.
    destruct c as [[] [] [] [] [] [] [] []]; try discriminate H.
    + apply Es. reflexivity.
    + apply Ep. reflexivity.
Qed.

(** ** Planner *)

Lemma emitted_two (A : Type) (m : M A) (w : World) (a b : Event) :
  w_log (snd (m w)) = ((w_log w ++ [a]) ++ [b])%list -> emitted m w = [a; b].
Proof.
  intro H. unfold emitted. rewrite H, <- app_assoc. apply drop_app_length.
Qed.



(** The two pauses and the two fallbacks, evaluated. *)
Example think_retry_in_3_5 :
  think "search cats in safari" "image" throttled_world =
  (Ok ("hotkey(" ++ dquote ++ "cmd+t" ++ dquote ++ ")"),
   snd (think "search cats in safari" "image" throttled_world)) /\
  exists pause,
    emitted (think "search cats in safari" "image") throttled_world =
    [GenerateContent; Sleep pause] /\ (pause == 4.5)%Q.
Proof.
  split; [vm_compute; reflexivity|].
  eexists. split; [vm_compute; reflexivity|]. reflexivity.
Qed.

Example think_no_duration :
  let w := scripted_world (fun _ => Failure "HTTP 429") (fun _ => None) in
  fst (think "open notes" "image" w) = Ok "done()" /\
  emitted (think "open notes" "image") w = [GenerateContent; Sleep 10].
Proof. split; vm_compute; reflexivity. Qed.

(** [think] returns an action line whatever the collaborator does. *)
Lemma think_total (task screenshot_data : string) (w : World) :
  exists action w', think task screenshot_data w = (Ok action, w').
Proof.
  unfold think, try_catch, bind, generate_content.
  destruct (w_gemini w (w_gemini_calls w)) as [text|error_str].
  - eexists _, _. reflexivity.
  - cbv beta iota. destruct (rate_limited error_str).
    + destruct (re_search match_retry_at error_str) as [group|] eqn:Hsearch.
      * destruct (re_search_found _ _ _ Hsearch) as [s' Hs'].
        destruct (retry_group_float _ _ Hs') as [delay Hdelay].
        rewrite Hdelay. eexists _, _. reflexivity.
      * eexists _, _. reflexivity.
    + eexists _, _. reflexivity.
Qed.

(** ** Command dispatch *)

Lemma bind_inv_ok {A B} (m : M A) (k : A -> M B) (w w' : World) (r : B) :
  bind m k w = (Ok r, w') ->
  exists a w1, m w = (Ok a, w1) /\ k a w1 = (Ok r, w').
Proof.
  unfold bind. destruct (m w) as [[a|e] w1]; intro H.
  - exists a, w1. split; [reflexivity | exact H].
  - discriminate H.
Qed.

Ltac bind_inv H :=
  let a := fresh "a" in
  let w1 := fresh "w" in
  apply bind_inv_ok in H; destruct H as (a & w1 & _ & H).

Ltac not_done Hd cmd :=
  rewrite (startswith_exclusive _ "done" cmd eq_refl eq_refl Hd).

(** A line that starts with [done] reaches the last branch of the chain. *)
Lemma execute_body_done (action_text : string) (w : World) :
  startswith action_text "done" = true ->
  execute_body action_text w = (Ok (Some true), w).
Proof.
  intro Hd. unfold execute_body.
  not_done Hd "open_app". not_done Hd "web_search". not_done Hd "move_mouse".
  not_done Hd "left_click". not_done Hd "double_click". not_done Hd "hover".
  not_done Hd "bulk_type". not_done Hd "type_text". not_done Hd "scroll".
  not_done Hd "hotkey". not_done Hd "wait". not_done Hd "focus_address_bar".
  rewrite Hd. reflexivity.
Qed.

(** No other branch returns [True]. *)
Lemma execute_body_true (action_text : string) (w w' : World) :
  execute_body action_text w = (Ok (Some true), w') ->
  startswith action_text "done" = true.
Proof.
  unfold execute_body. intro H.
  repeat match type of H with
         | (if ?c then _ else _) _ = _ =>
             destruct c eqn:?;
             [ try (repeat bind_inv H; discriminate H) | ]
         end;
    first [ reflexivity | discriminate H ].
Qed.

(** Whatever the [try] block does, the handler turns it into a result. *)
Lemma execute_handles (action_text : string) (w : World) :
  exists w',
    execute action_text w =
    (Ok match fst (execute_body action_text w) with
        | Ok (Some b) => b
        | _ => false
        end, w').
Proof.
  unfold execute, bind, try_catch.
  destruct (execute_body action_text w) as [[[b|]|e] w1]; eexists; reflexivity.
Qed.

Lemma execute_result (action_text : string) (w : World) :
  exists w', execute action_text w = (Ok (startswith action_text "done"), w').
Proof.
  destruct (execute_handles action_text w) as [w' ->]. exists w'.
  destruct (startswith action_text "done") eqn:Hd.
  - rewrite (execute_body_done action_text w Hd). reflexivity.
  - destruct (execute_body action_text w) as [[[[|]|]|e] w1] eqn:E;
      try reflexivity.
    apply execute_body_true in E. congruence.
Qed.

(** C10. [execute] never lets an exception out: for every action line and
    every world it returns a boolean, whether or not the [try] block raised,
    and that boolean is [True] exactly when the action text starts with
    [done]. *)
Theorem execute_returns_done (action_text : string) (w : World) :
  exists (done : bool) (w' : World),
    execute action_text w = (Ok done, w') /\
    (done = true <-> startswith action_text "done" = true) /\
    (forall e, fst (execute_body action_text w) = Raise e -> done = false).
Proof.
  destruct (execute_result action_text w) as [w' Hrun].
  exists (startswith action_text "done"), w'.
  split; [exact Hrun|]. split; [reflexivity|].
  intros e He.
  destruct (startswith action_text "done") eqn:Hd; [|reflexivity].
  rewrite (execute_body_done action_text w Hd) in He. discriminate He.
Qed.

Lemma execute_returns_done_witness :
  exists (done : bool) (w' : World),
    execute "left_click(1..2, 3)" retina_world = (Ok done, w') /\
    (done = true <-> startswith "left_click(1..2, 3)" "done" = true) /\
    (forall e,
        fst (execute_body "left_click(1..2, 3)" retina_world) = Raise e ->
        done = false).
Proof. exact (execute_returns_done "left_click(1..2, 3)" retina_world). Defined.

(** An exception raised while a command runs: the malformed number makes
    [float] raise inside the [try] block, and [execute] returns [False]. *)
Example execute_catches_value_error :
  fst (execute_body "left_click(1..2, 3)" retina_world) = Raise (PyError "ValueError") /\
  fst (execute "left_click(1..2, 3)" retina_world) = Ok false.
Proof. split; vm_compute; reflexivity. Qed.

Example execute_done_with_trailing_text :
  fst (execute "done() - all set" retina_world) = Ok true /\
  fst (execute "Done()" retina_world) = Ok false /\
  fst (execute "double_click(0.5, 0.5)" plain_world) = Ok false.
Proof. repeat split; vm_compute; reflexivity. Qed.

(** ** What executing a command leaves alone *)

Lemma quiet_ret {A} (a : A) : quiet (ret a).
Proof. intro w. split; reflexivity. Qed.

Lemma quiet_raise {A} (e : exn) : quiet (@raise A e).
Proof. intro w. split; reflexivity. Qed.

Lemma quiet_asks {A} (f : World -> A) : quiet (asks f).
Proof. intro w. split; reflexivity. Qed.

Lemma quiet_reading {A} (f : World -> option A) : quiet (reading f).
Proof. intro w. unfold reading. destruct (f w); split; reflexivity. Qed.

Lemma quiet_emit (e : Event) : quiet (emit e).
Proof. intro w. split; reflexivity. Qed.

Lemma quiet_sleep (seconds : Q) : quiet (sleep seconds).
Proof. apply quiet_emit. Qed.

Lemma quiet_bind {A B} (m : M A) (k : A -> M B) :
  quiet m -> (forall a, quiet (k a)) -> quiet (bind m k).
Proof.
  intros Hm Hk w. unfold bind. specialize (Hm w).
  destruct (m w) as [[a|e] w1]; cbn [snd] in *.
  - destruct (Hk a w1) as [H1 H2]. destruct Hm as [H3 H4].
    split; congruence.
  - exact Hm.
Qed.

Lemma quiet_try_catch {A} (body : M A) (handler : exn -> M A) :
  quiet body -> (forall e, quiet (handler e)) -> quiet (try_catch body handler).
Proof.
  intros Hm Hk w. unfold try_catch. specialize (Hm w).
  destruct (body w) as [[a|e] w1]; cbn [snd] in *.
  - exact Hm.
  - destruct (Hk e w1) as [H1 H2]. destruct Hm as [H3 H4].
    split; congruence.
Qed.

Lemma quiet_for_each {A} (xs : list A) (body : A -> M unit) :
  (forall x, quiet (body x)) -> quiet (for_each xs body).
Proof.
  intro Hbody. induction xs as [|x xs IH]; cbn [for_each].
  - apply quiet_ret.
  - apply quiet_bind; [apply Hbody | intros _; exact IH].
Qed.

Lemma quiet_get_current_mouse_position : quiet get_current_mouse_position.
Proof.
  intro w. unfold get_current_mouse_position.
  destruct (w_quartz w); split; reflexivity.
Qed.

Lemma quiet_is_spotlight_active : quiet _is_spotlight_active.
Proof. intro w. split; reflexivity. Qed.

Create HintDb quiet.

#[local] Hint Resolve quiet_ret quiet_raise quiet_asks quiet_reading quiet_emit
  quiet_sleep quiet_get_current_mouse_position quiet_is_spotlight_active : quiet.

(** Takes a computation apart along its binds, handlers, loops and case
    distinctions, and closes the leaves with the hints. *)
Ltac quiet_step :=
  match goal with
  | |- quiet (bind _ _) => apply quiet_bind; [|intro]
  | |- quiet (try_catch _ _) => apply quiet_try_catch; [|intro]
  | |- quiet (for_each _ _) => apply quiet_for_each; intro
  | |- quiet (if ?b then _ else _) => destruct b
  | |- quiet (match ?x with _ => _ end) => destruct x
  | |- quiet (let '(_, _) := ?x in _) => destruct x
  | |- quiet _ => solve [auto with quiet]
  end.

Ltac quiet_all := repeat quiet_step.

Lemma quiet_smooth_move_mouse (sx sy ex ey : Z) : quiet (smooth_move_mouse sx sy ex ey).
Proof. unfold smooth_move_mouse. quiet_all. Qed.

#[local] Hint Resolve quiet_smooth_move_mouse : quiet.

Lemma quiet_press (code : Z) (f1 f2 : option Z) : quiet (press code f1 f2).
Proof. unfold press. quiet_all. Qed.

#[local] Hint Resolve quiet_press : quiet.

Lemma quiet_hotkey (key_combo : string) : quiet (hotkey key_combo).
Proof. unfold hotkey. quiet_all. Qed.

Lemma quiet_type_text (text : string) : quiet (type_text text).
Proof. unfold type_text. quiet_all. Qed.

Lemma quiet_scroll (direction : string) : quiet (scroll direction).
Proof. unfold scroll. quiet_all. Qed.

Lemma quiet_move_mouse (x y : pyfloat) : quiet (move_mouse x y).
Proof. unfold move_mouse. quiet_all. Qed.

#[local] Hint Resolve quiet_hotkey quiet_type_text quiet_scroll quiet_move_mouse : quiet.

Lemma quiet_ultra_precise_click (x y : pyfloat) : quiet (ultra_precise_click x y).
Proof. unfold ultra_precise_click. quiet_all. Qed.

Lemma quiet_double_click (x y : pyfloat) : quiet (double_click x y).
Proof. unfold double_click. quiet_all. Qed.

Lemma quiet_hover (x y : pyfloat) : quiet (hover x y).
Proof. unfold hover. quiet_all. Qed.

Lemma quiet_bulk_type_text (text : string) : quiet (_bulk_type_text text).
Proof.
  unfold _bulk_type_text.
  induction (str_split "010"%char text) as [|line rest IH]; cbn [bulk_lines].
  - apply quiet_ret.
  - apply quiet_bind; [quiet_all | intros _].
    destruct rest as [|l rest']; [apply quiet_ret|].
    apply quiet_bind; [apply quiet_hotkey | intros _].
    apply quiet_bind; [apply quiet_sleep | intros _]. exact IH.
Qed.

Lemma quiet_open_app_workflow (app_name : string) : quiet (_open_app_workflow app_name).
Proof. unfold _open_app_workflow. quiet_all. Qed.

#[local] Hint Resolve quiet_open_app_workflow : quiet.

Lemma quiet_web_search_workflow (term : string) : quiet (_web_search_workflow term).
Proof. unfold _web_search_workflow. quiet_all. Qed.

Lemma quiet_extract_coords (text : string) : quiet (_extract_coords text).
Proof. unfold _extract_coords. quiet_all. Qed.

#[local] Hint Resolve quiet_ultra_precise_click quiet_double_click quiet_hover
  quiet_bulk_type_text quiet_web_search_workflow quiet_extract_coords : quiet.

Lemma quiet_when_text (v : option string) (body : string -> M unit) :
  (forall s, quiet (body s)) -> quiet (when_text v body).
Proof. intro H. unfold when_text. quiet_all; try apply H. Qed.

Lemma quiet_when_coords (v : option (pyfloat * pyfloat))
      (body : pyfloat -> pyfloat -> M unit) :
  (forall x y, quiet (body x y)) -> quiet (when_coords v body).
Proof. intro H. unfold when_coords. quiet_all; try apply H. Qed.

(** Executing a command takes no screenshot and asks the reasoning
    collaborator nothing. *)
Lemma quiet_execute (action_text : string) : quiet (execute action_text).
Proof.
  unfold execute, execute_body, left_click.
  repeat first
         [ apply quiet_when_text; intro
         | apply quiet_when_coords; intros
         | quiet_step ].
Qed.

(** ** Control loop *)

Lemma loop_trace_bound (k : Z) (tr : list LoopEvent) :
  loop_trace k tr ->
  0 <= k <= 20 /\
  Z.of_nat (length (List.filter is_captured tr)) <= 20 - k /\
  Z.of_nat (length (List.filter is_executed tr)) <= 20 - k.
Proof.
  induction 1 as [|k data Hk Hc|k data a Hk Hc Hd|k data a tr Hk Hc Hd Htr IH];
    cbn; lia.
Qed.

Lemma loop_trace_first (k : Z) (tr : list LoopEvent) :
  loop_trace k tr -> k < 20 -> exists data rest, tr = Captured k data :: rest.
Proof.
  destruct 1; intro Hk; try lia; eexists _, _; reflexivity.
Qed.

(** Nothing follows a failed capture. *)
Lemma loop_trace_capture_failed (k : Z) (tr : list LoopEvent) :
  loop_trace k tr ->
  forall pre j data post,
    tr = (pre ++ Captured j data :: post)%list -> captured data = false ->
    post = [].
Proof.
  induction 1 as [|k data Hk Hc|k data a Hk Hc Hd|k data a tr Hk Hc Hd Htr IH];
    intros pre j d post E Hfail.
  - destruct pre; discriminate E.
  - destruct pre as [|e pre]; cbn in E.
    + injection E as _ _ <-. reflexivity.
    + injection E as _ E. destruct pre; discriminate E.
  - destruct pre as [|e1 pre]; cbn in E.
    + injection E as _ <- _. congruence.
    + injection E as _ E. destruct pre as [|e2 pre]; cbn in E; [discriminate E|].
      injection E as _ E. destruct pre; discriminate E.
  - destruct pre as [|e1 pre]; cbn in E.
    + injection E as _ <- _. congruence.
    + injection E as _ E. destruct pre as [|e2 pre]; cbn in E; [discriminate E|].
      injection E as _ E. exact (IH pre j d post E Hfail).
Qed.

(** Nothing follows the execution of a command that reported completion. *)
Lemma loop_trace_done (k : Z) (tr : list LoopEvent) :
  loop_trace k tr ->
  forall pre j action post,
    tr = (pre ++ Executed j action true :: post)%list -> post = [].
Proof.
  induction 1 as [|k data Hk Hc|k data a Hk Hc Hd|k data a tr Hk Hc Hd Htr IH];
    intros pre j act post E.
  - destruct pre; discriminate E.
  - destruct pre as [|e pre]; cbn in E; [discriminate E|].
    injection E as _ E. destruct pre; discriminate E.
  - destruct pre as [|e1 pre]; cbn in E; [discriminate E|].
    injection E as _ E. destruct pre as [|e2 pre]; cbn in E.
    + injection E as _ _ <-. reflexivity.
    + injection E as _ E. destruct pre; discriminate E.
  - destruct pre as [|e1 pre]; cbn in E; [discriminate E|].
    injection E as _ E. destruct pre as [|e2 pre]; cbn in E; [discriminate E|].
    injection E as _ E. exact (IH pre j act post E).
Qed.

(** Every executed command reports [done] exactly when its text starts
    with [done], and carries a step index below the limit. *)
Lemma loop_trace_executed (k : Z) (tr : list LoopEvent) :
  loop_trace k tr ->
  forall j action done,
    In (Executed j action done) tr ->
    k <= j < 20 /\ done = startswith action "done".
Proof.
  induction 1 as [|k data Hk Hc|k data a Hk Hc Hd|k data a tr Hk Hc Hd Htr IH];
    intros j act d Hin; cbn in Hin.
  - contradiction.
  - destruct Hin as [E|[]]. discriminate E.
  - destruct Hin as [E|[E|[]]]; [discriminate E|].
    injection E as <- <- <-. split; [lia | congruence].
  - destruct Hin as [E|[E|Hin]]; [discriminate E| |].
    + injection E as <- <- <-. split; [lia | congruence].
    + destruct (IH j act d Hin) as [Hj Hdone]. split; [lia | exact Hdone].
Qed.

(** [think] makes exactly one call of the collaborator and captures
    nothing. *)
Lemma think_counters (task screenshot_data : string) (w : World) :
  w_captures (snd (think task screenshot_data w)) = w_captures w /\
  w_gemini_calls (snd (think task screenshot_data w)) = S (w_gemini_calls w).
Proof.
  unfold think, try_catch, bind, generate_content.
  destruct (w_gemini w (w_gemini_calls w)) as [text|error_str];
    [split; reflexivity|].
  cbv beta iota. destruct (rate_limited error_str); [|split; reflexivity].
  destruct (re_search match_retry_at error_str) as [group|];
    [|split; reflexivity].
  destruct (py_float group) as [[delay| |]|]; split; reflexivity.
Qed.

Lemma run_steps_trace (task : string) (n k : nat) :
  (k + n = 20)%nat ->
  forall w, exists tr w',
    run_steps (map Z.of_nat (seq k n)) task w = (Ok tr, w') /\
    loop_trace (Z.of_nat k) tr /\
    w_captures w' = (w_captures w + length (List.filter is_captured tr))%nat /\
    w_gemini_calls w' = (w_gemini_calls w + length (List.filter is_executed tr))%nat.
Proof.
  revert k. induction n as [|n IH]; intros k Hk w.
  - cbn. exists [], w. split; [reflexivity|]. split; [|split; cbn; lia].
    replace (Z.of_nat k) with 20 by lia. constructor.
  - cbn [seq map run_steps].
    unfold bind at 1. unfold capture_to_bytes at 1.
    set (data := w_screencapture w (w_captures w)).
    set (w1 := mkWorld _ _ _ _ _ _ _ _ _ _ _ _ _ _).
    assert (Hc1 : w_captures w1 = S (w_captures w)) by reflexivity.
    assert (Hg1 : w_gemini_calls w1 = w_gemini_calls w) by reflexivity.
    clearbody w1.
    unfold bind at 1.
    assert (Hdump : exists w2,
               (if Z.eqb (Z.of_nat k) 0 && captured data then emit DebugDump else ret tt) w1
               = (Ok tt, w2) /\
               w_captures w2 = w_captures w1 /\ w_gemini_calls w2 = w_gemini_calls w1).
    { destruct (Z.eqb (Z.of_nat k) 0 && captured data); eexists;
        (split; [reflexivity | split; reflexivity]). }
    destruct Hdump as (w2 & -> & Hc2 & Hg2).
    destruct data as [d|] eqn:Edata.
    + destruct (truthy d) eqn:Ed.
      * unfold bind at 1.
        destruct (think_total task d w2) as (action & w3 & Hthink).
        destruct (think_counters task d w2) as [Hc3 Hg3].
        rewrite Hthink in Hc3, Hg3 |- *. cbn [snd] in Hc3, Hg3.
        unfold bind at 1, _speak_rationale at 1, emit at 1.
        unfold bind at 1.
        destruct (execute_result action (log_append [Narrate action] w3))
          as [w5 Hexec].
        destruct (quiet_execute action (log_append [Narrate action] w3))
          as [Hc5 Hg5].
        rewrite Hexec in Hc5, Hg5 |- *. cbn [snd] in Hc5, Hg5.
        change (w_captures (log_append [Narrate action] w3))
          with (w_captures w3) in Hc5.
        change (w_gemini_calls (log_append [Narrate action] w3))
          with (w_gemini_calls w3) in Hg5.
        destruct (startswith action "done") eqn:Hdone.
        -- eexists _, _. split; [reflexivity|]. split; [|split; cbn; lia].
           apply trace_done; [lia | exact Ed | exact Hdone].
        -- unfold bind at 1.
           destruct (IH (S k) ltac:(lia) w5) as (tr & w' & -> & Htr & Hc & Hg).
           eexists _, _. split; [reflexivity|]. split; [|split; cbn; lia].
           apply trace_continue; [lia | exact Ed | exact Hdone |].
           replace (Z.of_nat k + 1) with (Z.of_nat (S k)) by lia. exact Htr.
      * eexists _, _. split; [reflexivity|]. split; [|split; cbn; lia].
        apply trace_capture_failed; [lia | exact Ed].
    + eexists _, _. split; [reflexivity|]. split; [|split; cbn; lia].
      apply trace_capture_failed; [lia | reflexivity].
Qed.



(** ** Reply parsing *)

Lemma scan_action_plain (line : string) (rest : list string) (see think : string) :
  startswith (str_strip line) "Action:" = true ->
  scan_lines (line :: rest) see think =
  (see, think, str_strip (str_drop 7 (str_strip line))).
Proof.
  intro H. cbn [scan_lines].
  rewrite (startswith_exclusive _ "Action:" "See:" eq_refl eq_refl H).
  rewrite (startswith_exclusive _ "Action:" "Think:" eq_refl eq_refl H).
  rewrite H. reflexivity.
Qed.

Lemma scan_action_bold (line : string) (rest : list string) (see think : string) :
  startswith (str_strip line) "**Action:**" = true ->
  scan_lines (line :: rest) see think =
  (see, think, str_strip (str_drop 11 (str_strip line))).
Proof.
  intro H. cbn [scan_lines].
  rewrite (startswith_exclusive _ "**Action:**" "See:" eq_refl eq_refl H).
  rewrite (startswith_exclusive _ "**Action:**" "Think:" eq_refl eq_refl H).
  rewrite (startswith_exclusive _ "**Action:**" "Action:" eq_refl eq_refl H).
  rewrite (startswith_exclusive _ "**Action:**" "**See:**" eq_refl eq_refl H).
  rewrite (startswith_exclusive _ "**Action:**" "**Think:**" eq_refl eq_refl H).
  rewrite H. reflexivity.
Qed.

(** The scan ends at an action line: what follows it is never read. *)
Lemma scan_lines_action_stop (pre : list string) (l : string) (post : list string)
      (see think : string) :
  is_action_line l = true ->
  scan_lines (pre ++ l :: post) see think = scan_lines (pre ++ [l]) see think.
Proof.
  intro Hl. revert see think.
  induction pre as [|p pre IH]; intros see think.
  - cbn [app]. unfold is_action_line in Hl. apply orb_true_iff in Hl.
    destruct Hl as [Hl|Hl].
    + rewrite !(scan_action_plain _ _ _ _ Hl). reflexivity.
    + rewrite !(scan_action_bold _ _ _ _ Hl). reflexivity.
  - cbn [app scan_lines].
    repeat match goal with
           | |- context [if ?c then _ else _] => destruct c
           end; first [reflexivity | apply IH].
Qed.

(** Until a label is met, the first line that looks like a command is
    taken as the action line. *)
Lemma scan_lines_fallback (pre : list string) (l : string) (post : list string) :
  Forall (fun p => is_label (str_strip p) = false /\
                   looks_like_command (str_strip p) = false) pre ->
  is_label (str_strip l) = false ->
  looks_like_command (str_strip l) = true ->
  scan_lines (pre ++ l :: post) EmptyString EmptyString =
  (EmptyString, EmptyString, str_strip l).
Proof.
  intros Hpre Hlabel Hcmd.
  assert (Hstep : forall p rest,
             is_label (str_strip p) = false ->
             scan_lines (p :: rest) EmptyString EmptyString =
             if looks_like_command (str_strip p)
             then (EmptyString, EmptyString, str_strip p)
             else scan_lines rest EmptyString EmptyString).
  { intros p rest Hp. unfold is_label in Hp.
    repeat (apply orb_false_iff in Hp; destruct Hp as [Hp ?]).
    cbn [scan_lines]. unfold looks_like_command.
    repeat match goal with H : startswith _ _ = false |- _ => rewrite H; clear H end.
    cbn [truthy negb andb].
    destruct (truthy (str_strip p)); cbn [andb]; [|reflexivity].
    destruct (startswith (str_strip p) "**"); cbn [negb andb]; reflexivity. }
  induction Hpre as [|p pre [Hp1 Hp2] Hpre IH]; cbn [app].
  - rewrite (Hstep l post Hlabel), Hcmd. reflexivity.
  - rewrite (Hstep p _ Hp1), Hp2. exact IH.
Qed.

Lemma parse_reply_truthy (text : string) : truthy (parse_reply text) = true.
Proof.
  unfold parse_reply.
  destruct (scan_lines (reply_lines text) EmptyString EmptyString) as [[see th] action].
  destruct (truthy action) eqn:Ea.
  - destruct (truthy (str_strip (str_remove "`"%char action))) eqn:E;
      [exact E | reflexivity].
  - rewrite Ea. reflexivity.
Qed.

Lemma parse_reply_default (text see think : string) :
  scan_lines (reply_lines text) EmptyString EmptyString = (see, think, EmptyString) ->
  parse_reply text = "wait(1000)".
Proof. intro H. unfold parse_reply. rewrite H. reflexivity. Qed.

Lemma fallback_action_truthy (task : string) : truthy (fallback_action task) = true.
Proof.
  unfold fallback_action.
  destruct (str_contains "safari" (str_lower task) || str_contains "browser" (str_lower task));
    [destruct (str_contains "search" (str_lower task))|]; reflexivity.
Qed.

Lemma think_action_truthy (task screenshot_data : string) (w : World) :
  exists action w',
    think task screenshot_data w = (Ok action, w') /\ truthy action = true.
Proof.
  unfold think, try_catch, bind, generate_content.
  destruct (w_gemini w (w_gemini_calls w)) as [text|error_str].
  - eexists _, _. split; [reflexivity | apply parse_reply_truthy].
  - cbv beta iota. destruct (rate_limited error_str).
    + destruct (re_search match_retry_at error_str) as [group|] eqn:Hsearch.
      * destruct (re_search_found _ _ _ Hsearch) as [s' Hs'].
        destruct (retry_group_float _ _ Hs') as [delay Hdelay].
        rewrite Hdelay. eexists _, _.
        split; [reflexivity | apply fallback_action_truthy].
      * eexists _, _. split; [reflexivity | apply fallback_action_truthy].
    + eexists _, _. split; reflexivity.
Qed.

Lemma think_reply (task screenshot_data text : string) (w : World) :
  w_gemini w (w_gemini_calls w) = Reply text ->
  fst (think task screenshot_data w) = Ok (parse_reply text).
Proof.
  intro H. unfold think, try_catch, bind, generate_content. rewrite H. reflexivity.
Qed.




(** The fallback at work, and the scan stopping at the label. *)
Example parse_reply_examples :
  parse_reply ("left_click(0.5, 0.5)" ++ newline ++ "Action: done()") = "left_click(0.5, 0.5)" /\
  parse_reply ("**See:** x" ++ newline ++ "**Action:** `done()`" ++ newline ++ "Action: wait(5)") = "done()" /\
  parse_reply "I cannot help with that" = "wait(1000)" /\
  parse_reply "Action:" = "wait(1000)".
Proof. repeat split; vm_compute; reflexivity. Qed.

(** The scenario of the specification: two scripted replies drive the loop
    to completion in two steps. *)
Example run_open_settings :
  let w := scripted_world
             (fun n => match n with
                       | O => Reply ("See: Desktop" ++ newline ++ "Think: open it"
                                     ++ newline ++ "Action: open_app(" ++ dquote
                                     ++ "System Settings" ++ dquote ++ ")")
                       | _ => Reply "Action: done()"
                       end)
             (fun _ => Some "image") in
  fst (run "open system settings" w) =
  Ok [Captured 0 (Some "image");
      Executed 0 ("open_app(" ++ dquote ++ "System Settings" ++ dquote ++ ")") false;
      Captured 1 (Some "image");
      Executed 1 "done()" true].
Proof. vm_compute. reflexivity. Qed.

Example run_capture_failed :
  fst (run "anything" (scripted_world (fun _ => Reply "Action: wait(1)") (fun _ => None)))
  = Ok [Captured 0 None].
Proof. vm_compute. reflexivity. Qed.

Example run_step_limit :
  let tr := match fst (run "anything"
                           (scripted_world (fun _ => Reply "Action: wait(1)")
                                           (fun _ => Some "image"))) with
            | Ok tr => tr
            | Raise _ => []
            end in
  length tr = 40%nat /\ last tr = Some (Executed 19 "wait(1)" false).
Proof. split; vm_compute; reflexivity. Qed.

(** ** Decimal text of integers *)

Lemma uint_digits (d : Decimal.uint) :
  Forall (fun c => is_digit c = true) (chars (NilEmpty.string_of_uint d)).
Proof. induction d; cbn; constructor; first [reflexivity | assumption]. Qed.

Lemma read_digits_of_uint_acc (d : Decimal.uint) (acc : positive) (n : nat) :
  read_digits (NilEmpty.string_of_uint d) (Z.pos acc) n =
  (Z.pos (Pos.of_uint_acc d acc),
   (n + String.length (NilEmpty.string_of_uint d))%nat, EmptyString).
Proof.
  revert acc n.
  induction d as [|d IH|d IH|d IH|d IH|d IH|d IH|d IH|d IH|d IH|d IH];
    intros acc n;
    cbn [NilEmpty.string_of_uint read_digits Pos.of_uint_acc String.length].
  1: { rewrite Nat.add_0_r. reflexivity. }
  all: match goal with
       | |- context [is_digit ?c] => change (is_digit c) with true
       end; cbv iota;
    match goal with
    | |- context [digit_val ?c] =>
        let dv := eval vm_compute in (digit_val c) in
        change (digit_val c) with dv
    end;
    match goal with
    | |- context [read_digits _ ?v _] =>
        match goal with
        | |- context [Pos.of_uint_acc _ ?p] =>
            replace v with (Z.pos p) by lia
        end
    end;
    rewrite IH; f_equal; f_equal; lia.
Qed.

Lemma read_digits_of_uint (d : Decimal.uint) (n : nat) :
  read_digits (NilEmpty.string_of_uint d) 0 n =
  (Z.of_N (Pos.of_uint d),
   (n + String.length (NilEmpty.string_of_uint d))%nat, EmptyString).
Proof.
  revert n.
  induction d as [|d IH|d IH|d IH|d IH|d IH|d IH|d IH|d IH|d IH|d IH];
    intro n;
    cbn [NilEmpty.string_of_uint read_digits Pos.of_uint String.length].
  1: { rewrite Nat.add_0_r. reflexivity. }
  1: { change (is_digit "0") with true. cbv iota.
       change (10 * 0 + digit_val "0") with 0.
       rewrite IH. f_equal. f_equal. lia. }
  all: match goal with
       | |- context [is_digit ?c] => change (is_digit c) with true
       end; cbv iota;
    match goal with
    | |- context [digit_val ?c] =>
        let dv := eval vm_compute in (digit_val c) in
        change (digit_val c) with dv
    end;
    match goal with
    | |- context [read_digits _ ?v _] =>
        let v' := eval vm_compute in v in change v with v'
    end;
    rewrite read_digits_of_uint_acc; cbn [Z.of_N]; f_equal; f_equal; lia.
Qed.

Lemma read_decimal_of_uint (d : Decimal.uint) :
  d <> Decimal.Nil ->
  read_decimal (NilEmpty.string_of_uint d) =
  Some (inject_Z (Z.of_N (Pos.of_uint d)) * Qpow10 (0 - 0))%Q.
Proof.
  intro Hd. unfold read_decimal. rewrite read_digits_of_uint.
  cbv iota beta.
  destruct (NilEmpty.string_of_uint d) as [|c r] eqn:E.
  - destruct d; first [contradiction | discriminate E].
  - reflexivity.
Qed.

Lemma uint_text_not_space (d : Decimal.uint) :
  Forall (fun c => is_space c = false) (chars (NilEmpty.string_of_uint d)).
Proof.
  eapply Forall_impl; [apply uint_digits|]. intros c Hc. apply digit_not_space, Hc.
Qed.

Lemma py_float_negative (c : ascii) (r : string) :
  is_digit c = true ->
  str_strip (String "-"%char (String c r)) = String "-"%char (String c r) ->
  py_float (String "-"%char (String c r)) =
  match read_decimal (String c r) with
  | Some q => Some (Finite (- q)%Q)
  | None => None
  end.
Proof.
  intros Hc Hstrip. unfold py_float. rewrite Hstrip.
  destruct c as [[] [] [] [] [] [] [] []]; try discriminate Hc; reflexivity.
Qed.

Lemma uint_text_head (d : Decimal.uint) :
  d <> Decimal.Nil ->
  exists c r, NilEmpty.string_of_uint d = String c r /\ is_digit c = true.
Proof.
  intro Hd. destruct d; [contradiction|..]; cbn; eexists _, _; split; reflexivity.
Qed.

(** [float(str(z))] is [z]. *)
Lemma py_float_str_of_int (z : Z) :
  exists q, py_float (str_of_int z) = Some (Finite q) /\ (q == inject_Z z)%Q.
Proof.
  assert (Hpos : forall p,
             NilZero.string_of_uint (Pos.to_uint p) =
             NilEmpty.string_of_uint (Pos.to_uint p)).
  { intro p. pose proof (DecimalPos.Unsigned.to_uint_nonnil p) as Hn.
    destruct (Pos.to_uint p); [contradiction|..]; reflexivity. }
  assert (Hval : forall p, (inject_Z (Z.of_N (Pos.of_uint (Pos.to_uint p)))
                            * Qpow10 (0 - 0) == inject_Z (Z.pos p))%Q).
  { intro p. rewrite DecimalPos.Unsigned.of_to. change (Qpow10 (0 - 0)) with 1%Q.
    cbn [Z.of_N]. ring. }
  destruct z as [|p|p]; unfold str_of_int; cbn [Z.to_int NilZero.string_of_int].
  - eexists. split; [vm_compute; reflexivity | reflexivity].
  - rewrite Hpos.
    destruct (uint_text_head _ (DecimalPos.Unsigned.to_uint_nonnil p)) as (c & r & E & Hc).
    pose proof (read_decimal_of_uint _ (DecimalPos.Unsigned.to_uint_nonnil p)) as Hread.
    pose proof (uint_text_not_space (Pos.to_uint p)) as Hsp.
    rewrite E in *.
    rewrite (py_float_unsigned c r Hc (str_strip_id _ Hsp)), Hread.
    eexists. split; [reflexivity | apply Hval].
  - rewrite Hpos.
    destruct (uint_text_head _ (DecimalPos.Unsigned.to_uint_nonnil p)) as (c & r & E & Hc).
    pose proof (read_decimal_of_uint _ (DecimalPos.Unsigned.to_uint_nonnil p)) as Hread.
    pose proof (uint_text_not_space (Pos.to_uint p)) as Hsp.
    rewrite E in *.
    rewrite (py_float_negative c r Hc), Hread.
    + eexists. split; [reflexivity|]. rewrite Hval. reflexivity.
    + apply str_strip_id. cbn. constructor; [reflexivity | exact Hsp].
Qed.

(** ** Calibration store *)

Lemma find_key_spec (key : string) (lines : list string) (i : nat) :
  find_key key lines = Some i ->
  exists l0, lines !! i = Some l0 /\ key_line key l0 = true.
Proof.
  revert i. induction lines as [|l lines IH]; intros i H; cbn in H.
  - discriminate.
  - destruct (key_line key l) eqn:E.
    + injection H as <-. exists l. split; [reflexivity | exact E].
    + destruct (find_key key lines) as [j|]; [|discriminate].
      injection H as <-. destruct (IH j eq_refl) as (l0 & Hl0 & Hk).
      exists l0. split; assumption.
Qed.

(** The two outcomes of [set_or_replace]: the first matching line is
    overwritten in place, or the new line is appended. *)
Lemma set_or_replace_split (lines : list string) (key value : string) :
  (exists pre l0 post,
      lines = (pre ++ l0 :: post)%list /\ key_line key l0 = true /\
      set_or_replace lines key value =
      (pre ++ (key ++ "=" ++ value)%string :: post)%list)
  \/ set_or_replace lines key value = (lines ++ [(key ++ "=" ++ value)%string])%list.
Proof.
  unfold set_or_replace.
  destruct (find_key key lines) as [i|] eqn:E; [left | right; reflexivity].
  destruct (find_key_spec _ _ _ E) as (l0 & Hl0 & Hk).
  exists (take i lines), l0, (drop (S i) lines).
  split; [symmetry; apply take_drop_middle, Hl0|].
  split; [exact Hk|].
  apply insert_take_drop. apply lookup_lt_Some in Hl0. exact Hl0.
Qed.

(** A line that is not a [key=] line comes through untouched, in place. *)
Lemma set_or_replace_lookup_other (lines : list string) (key value : string)
      (i : nat) (line : string) :
  lines !! i = Some line -> key_line key line = false ->
  set_or_replace lines key value !! i = Some line.
Proof.
  intros Hi Hk. unfold set_or_replace.
  destruct (find_key key lines) as [j|] eqn:E.
  - destruct (find_key_spec _ _ _ E) as (l0 & Hl0 & Hk0).
    rewrite list_lookup_insert_ne; [exact Hi|].
    intros ->. rewrite Hi in Hl0. injection Hl0 as <-. congruence.
  - rewrite lookup_app_l; [exact Hi|]. apply lookup_lt_Some in Hi. exact Hi.
Qed.

Lemma bind_line_other (env : gmap string string) (line key : string) :
  binds key line = false -> bind_line env line !! key = env !! key.
Proof.
  unfold binds, bind_line. destruct (parse_binding line) as [[k v]|]; [|reflexivity].
  intro H. apply String.eqb_neq in H. apply lookup_insert_ne. exact H.
Qed.

Lemma bind_line_binds (env : gmap string string) (line key value : string) :
  parse_binding line = Some (key, value) -> bind_line env line !! key = Some value.
Proof. unfold bind_line. intros ->. apply lookup_insert_eq. Qed.

Lemma fold_bind_agree (post : list string) (env1 env2 : gmap string string)
      (key : string) :
  env1 !! key = env2 !! key ->
  fold_left bind_line post env1 !! key = fold_left bind_line post env2 !! key.
Proof.
  revert env1 env2. induction post as [|l post IH]; intros env1 env2 H; cbn.
  - exact H.
  - apply IH. unfold bind_line.
    destruct (parse_binding l) as [[k v]|]; [|exact H].
    destruct (decide (k = key)) as [->|Hne].
    + rewrite !lookup_insert_eq. reflexivity.
    + rewrite !lookup_insert_ne by exact Hne. exact H.
Qed.

Lemma count_bindings_cons (key l : string) (lines : list string) :
  count_bindings key (l :: lines) =
  ((if binds key l then 1 else 0) + count_bindings key lines)%nat.
Proof. unfold count_bindings. cbn. destruct (binds key l); reflexivity. Qed.

Lemma count_bindings_app (key : string) (l1 l2 : list string) :
  count_bindings key (l1 ++ l2) =
  (count_bindings key l1 + count_bindings key l2)%nat.
Proof.
  unfold count_bindings. rewrite List.filter_app, length_app. reflexivity.
Qed.

Lemma fold_bind_keeps (post : list string) (env : gmap string string) (key : string) :
  count_bindings key post = 0%nat ->
  fold_left bind_line post env !! key = env !! key.
Proof.
  revert env. induction post as [|l post IH]; intros env H; cbn; [reflexivity|].
  rewrite count_bindings_cons in H.
  destruct (binds key l) eqn:E; [discriminate H|].
  rewrite IH by exact H. apply bind_line_other, E.
Qed.

Lemma dotenv_values_fold (lines : list string) :
  dotenv_values lines = fold_left bind_line lines ∅.
Proof. reflexivity. Qed.

(** The last line that binds a key decides its value. *)
Lemma dotenv_last (pre post : list string) (l key value : string) :
  parse_binding l = Some (key, value) ->
  count_bindings key post = 0%nat ->
  dotenv_values (pre ++ l :: post) !! key = Some value.
Proof.
  intros Hl Hpost. rewrite dotenv_values_fold, fold_left_app. cbn.
  rewrite fold_bind_keeps by exact Hpost. apply bind_line_binds, Hl.
Qed.

Lemma dotenv_swap (pre post : list string) (a b key : string) :
  binds key a = false -> binds key b = false ->
  dotenv_values (pre ++ a :: post) !! key = dotenv_values (pre ++ b :: post) !! key.
Proof.
  intros Ha Hb. rewrite !dotenv_values_fold, !fold_left_app. cbn.
  apply fold_bind_agree. rewrite !bind_line_other by assumption. reflexivity.
Qed.

Lemma dotenv_snoc_other (lines : list string) (b key : string) :
  binds key b = false ->
  dotenv_values (lines ++ [b]) !! key = dotenv_values lines !! key.
Proof.
  intro Hb. rewrite !dotenv_values_fold, fold_left_app. cbn.
  apply bind_line_other, Hb.
Qed.

Lemma count_bindings_unbound (key : string) (lines : list string) :
  key ∉ bound_keys lines -> count_bindings key lines = 0%nat.
Proof.
  induction lines as [|l lines IH]; intro H; [reflexivity|].
  rewrite count_bindings_cons. unfold bound_keys in *. cbn in H.
  unfold binds. destruct (parse_binding l) as [[k v]|]; cbn in H.
  - apply not_elem_of_cons in H. destruct H as [Hne H].
    destruct (String.eqb_spec k key) as [->|_]; [contradiction|].
    apply IH, H.
  - apply IH, H.
Qed.

(** In a file that binds no key twice, each key has at most one line. *)
Lemma count_bindings_nodup (key : string) (lines : list string) :
  NoDup (bound_keys lines) -> (count_bindings key lines <= 1)%nat.
Proof.
  induction lines as [|l lines IH]; intro H; [cbn; lia|].
  rewrite count_bindings_cons. unfold bound_keys in *. cbn in H.
  unfold binds. destruct (parse_binding l) as [[k v]|]; cbn in H.
  - apply NoDup_cons in H. destruct H as [Hnotin H].
    destruct (String.eqb_spec k key) as [->|_].
    + rewrite (count_bindings_unbound key lines Hnotin). lia.
    + apply IH, H.
  - apply IH, H.
Qed.

Lemma prefix_app (p s : string) :
  String.prefix p s = true -> exists r, s = p ++ r.
Proof.
  revert s. induction p as [|a p IH]; intros s H.
  - exists s. reflexivity.
  - destruct s as [|b s]; [discriminate H|]. cbn in H.
    destruct (ascii_dec a b) as [->|]; [|discriminate H].
    destruct (IH s H) as [r ->]. exists r. reflexivity.
Qed.

Lemma append_assoc (a b c : string) : (a ++ b) ++ c = a ++ b ++ c.
Proof.
  induction a as [|x a IH]; [reflexivity|].
  rewrite !append_cons, IH. reflexivity.
Qed.

Lemma split_eq_app (k v : string) :
  Forall (fun c => Ascii.eqb c "="%char = false) (chars k) ->
  split_eq (k ++ "=" ++ v) = Some (k, v).
Proof.
  induction k as [|c k IH]; intro H.
  - reflexivity.
  - cbn in H. inversion H as [|? ? Hc Hk]; subst.
    rewrite append_cons. cbn [split_eq]. rewrite Hc, (IH Hk). reflexivity.
Qed.

Section OffsetKey.
(** A key as [_write_env_offsets] uses them: no [=], no whitespace, not
    starting with [#]. *)
Variable key : string.
Hypothesis key_no_eq : Forall (fun c => Ascii.eqb c "="%char = false) (chars key).
Hypothesis key_no_space : Forall (fun c => is_space c = false) (chars key).
Hypothesis key_no_hash : forall r, startswith (key ++ r) "#" = false.

Lemma parse_binding_key_line (l0 : string) :
  key_line key l0 = true -> exists v, parse_binding l0 = Some (key, v).
Proof using key_no_eq key_no_space key_no_hash.
  unfold key_line, startswith. intro H.
  destruct (prefix_app _ _ H) as [r Hr].
  unfold parse_binding. rewrite Hr, append_assoc, key_no_hash.
  rewrite (split_eq_app key r key_no_eq), (str_strip_id key key_no_space).
  eexists. reflexivity.
Qed.

Lemma parse_binding_written (value : string) :
  Forall (fun c => is_space c = false) (chars value) ->
  parse_binding (key ++ "=" ++ value) = Some (key, value).
Proof using key_no_eq key_no_space key_no_hash.
  intro Hv. unfold parse_binding.
  rewrite (str_strip_id (key ++ "=" ++ value)).
  - rewrite key_no_hash, (split_eq_app key value key_no_eq).
    rewrite (str_strip_id key key_no_space), (str_strip_id value Hv). reflexivity.
  - rewrite !chars_app. apply Forall_app. split; [exact key_no_space|].
    apply Forall_app. split; [repeat constructor | exact Hv].
Qed.

Lemma key_line_binds (l0 : string) : key_line key l0 = true -> binds key l0 = true.
Proof using key_no_eq key_no_space key_no_hash.
  intro H. destruct (parse_binding_key_line l0 H) as [v Hv].
  unfold binds. rewrite Hv. apply String.eqb_refl.
Qed.

Lemma key_line_binds_other (l0 other : string) :
  other <> key -> key_line key l0 = true -> binds other l0 = false.
Proof using key_no_eq key_no_space key_no_hash.
  intros Hne H. destruct (parse_binding_key_line l0 H) as [v Hv].
  unfold binds. rewrite Hv. apply String.eqb_neq. congruence.
Qed.

Lemma written_binds_other (value other : string) :
  Forall (fun c => is_space c = false) (chars value) ->
  other <> key -> binds other (key ++ "=" ++ value) = false.
Proof using key_no_eq key_no_space key_no_hash.
  intros Hv Hne. unfold binds. rewrite (parse_binding_written value Hv).
  apply String.eqb_neq. congruence.
Qed.

(** After [set_or_replace], loading the file yields the value written,
    provided the file bound the key at most once. *)
Lemma set_or_replace_loaded (lines : list string) (value : string) :
  Forall (fun c => is_space c = false) (chars value) ->
  (count_bindings key lines <= 1)%nat ->
  dotenv_values (set_or_replace lines key value) !! key = Some value.
Proof using key_no_eq key_no_space key_no_hash.
  intros Hv Hcount.
  destruct (set_or_replace_split lines key value)
    as [(pre & l0 & post & Hl & Hk & ->) | ->].
  - apply dotenv_last; [apply parse_binding_written, Hv|].
    subst lines. rewrite count_bindings_app, count_bindings_cons in Hcount.
    rewrite (key_line_binds l0 Hk) in Hcount. lia.
  - apply dotenv_last; [apply parse_binding_written, Hv | reflexivity].
Qed.

(** Writing this key leaves the loaded value of any other key alone, and
    does not add a binding of it. *)
Lemma set_or_replace_other (lines : list string) (value other : string) :
  Forall (fun c => is_space c = false) (chars value) ->
  other <> key ->
  dotenv_values (set_or_replace lines key value) !! other =
  dotenv_values lines !! other /\
  count_bindings other (set_or_replace lines key value) =
  count_bindings other lines.
Proof using key_no_eq key_no_space key_no_hash.
  intros Hv Hne.
  pose proof (written_binds_other value other Hv Hne) as Hw.
  destruct (set_or_replace_split lines key value)
    as [(pre & l0 & post & Hl & Hk & ->) | ->].
  - subst lines. pose proof (key_line_binds_other l0 other Hne Hk) as H0.
    split.
    + apply dotenv_swap; assumption.
    + rewrite !count_bindings_app, !count_bindings_cons, Hw, H0. reflexivity.
  - split.
    + apply dotenv_snoc_other, Hw.
    + rewrite count_bindings_app, count_bindings_cons, Hw. cbn. lia.
Qed.
End OffsetKey.

Lemma str_of_int_not_space (z : Z) :
  Forall (fun c => is_space c = false) (chars (str_of_int z)).
Proof.
  assert (Hu : forall d, Forall (fun c => is_space c = false)
                                (chars (NilZero.string_of_uint d))).
  { intro d. destruct d; try apply uint_text_not_space. repeat constructor. }
  unfold str_of_int. destruct (Z.to_int z) as [d|d]; cbn [NilZero.string_of_int].
  - apply Hu.
  - cbn. constructor; [reflexivity | apply Hu].
Qed.

Lemma x_key_no_eq :
  Forall (fun c => Ascii.eqb c "="%char = false) (chars "HARVEY_X_OFFSET").
Proof. repeat constructor. Qed.

Lemma x_key_no_space :
  Forall (fun c => is_space c = false) (chars "HARVEY_X_OFFSET").
Proof. repeat constructor. Qed.

Lemma x_key_no_hash (r : string) : startswith ("HARVEY_X_OFFSET" ++ r) "#" = false.
Proof. reflexivity. Qed.

Lemma y_key_no_eq :
  Forall (fun c => Ascii.eqb c "="%char = false) (chars "HARVEY_Y_OFFSET").
Proof. repeat constructor. Qed.

Lemma y_key_no_space :
  Forall (fun c => is_space c = false) (chars "HARVEY_Y_OFFSET").
Proof. repeat constructor. Qed.

Lemma y_key_no_hash (r : string) : startswith ("HARVEY_Y_OFFSET" ++ r) "#" = false.
Proof. reflexivity. Qed.

(** What the next run finds in its environment after a save. *)
Lemma env_lines_after_loaded (old : list string) (offset_x offset_y : Z) :
  NoDup (bound_keys old) ->
  dotenv_values (env_lines_after old offset_x offset_y) !! "HARVEY_X_OFFSET"
  = Some (str_of_int offset_x) /\
  dotenv_values (env_lines_after old offset_x offset_y) !! "HARVEY_Y_OFFSET"
  = Some (str_of_int offset_y).
Proof.
  intro Hnd. unfold env_lines_after.
  pose proof (str_of_int_not_space offset_x) as Hx.
  pose proof (str_of_int_not_space offset_y) as Hy.
  split.
  - destruct (set_or_replace_other "HARVEY_Y_OFFSET" y_key_no_eq y_key_no_space
                y_key_no_hash
                (set_or_replace old "HARVEY_X_OFFSET" (str_of_int offset_x))
                (str_of_int offset_y) "HARVEY_X_OFFSET" Hy ltac:(discriminate))
      as [-> _].
    apply (set_or_replace_loaded "HARVEY_X_OFFSET" x_key_no_eq x_key_no_space
             x_key_no_hash old _ Hx).
    apply count_bindings_nodup, Hnd.
  - apply (set_or_replace_loaded "HARVEY_Y_OFFSET" y_key_no_eq y_key_no_space
             y_key_no_hash _ _ Hy).
    destruct (set_or_replace_other "HARVEY_X_OFFSET" x_key_no_eq x_key_no_space
                x_key_no_hash old (str_of_int offset_x) "HARVEY_Y_OFFSET" Hx
                ltac:(discriminate))
      as [_ ->].
    apply count_bindings_nodup, Hnd.
Qed.

Lemma calibrate_with_offsets (w : World) (offset_x offset_y x y : Z) :
  getenv w "HARVEY_X_OFFSET" "0" = str_of_int offset_x ->
  getenv w "HARVEY_Y_OFFSET" "0" = str_of_int offset_y ->
  calibrate_click_position w x y = Some (x + offset_x, y + offset_y).
Proof.
  intros Hx Hy. unfold calibrate_click_position. rewrite Hx, Hy.
  destruct (py_float_str_of_int offset_x) as (qx & -> & Hqx).
  destruct (py_float_str_of_int offset_y) as (qy & -> & Hqy).
  cbv beta iota. unfold float_of_int, fadd, py_int.
  assert (E : forall a b q, (q == inject_Z b)%Q ->
                            Qtrunc (inject_Z a + q) = a + b).
  { intros a b q Hq. rewrite <- (Qtrunc_Z (a + b)). apply Qtrunc_comp.
    rewrite Hq, inject_Z_plus. reflexivity. }
  rewrite (E x offset_x qx Hqx), (E y offset_y qy Hqy). reflexivity.
Qed.



Example save_rewrites_sample_env :
  env_lines_after sample_env (-12) 7 =
  ["GOOGLE_API_KEY=abc123"; "HARVEY_X_OFFSET=-12"; "# pointer calibration";
   "HARVEY_TTS=0"; "HARVEY_Y_OFFSET=7"].
Proof. reflexivity. Qed.


(** * Further properties of the code *)

(** ** Coordinate mapper: edge values and order *)

Lemma round_half_even_comp (a b : Q) :
  (a == b)%Q -> round_half_even a = round_half_even b.
Proof.
  intro H. unfold round_half_even.
  rewrite (Qfloor_comp _ _ H).
  assert (E : (a - inject_Z (Qfloor b) ?= 1 # 2)%Q
              = (b - inject_Z (Qfloor b) ?= 1 # 2)%Q).
  { apply Qcompare_comp; [rewrite H|]; reflexivity. }
  rewrite E. reflexivity.
Qed.

Lemma round_half_even_Z (z : Z) : round_half_even (inject_Z z) = z.
Proof.
  unfold round_half_even. rewrite Qfloor_Z.
  assert (E : (inject_Z z - inject_Z z ?= 1 # 2)%Q = Lt).
  { rewrite (Qcompare_comp (inject_Z z - inject_Z z)%Q 0%Q ltac:(ring)
                            (1 # 2)%Q (1 # 2)%Q ltac:(reflexivity)).
    reflexivity. }
  rewrite E. reflexivity.
Qed.

(** Rounding half to even never reverses an order. *)
Lemma round_half_even_mono (a b : Q) :
  (a <= b)%Q -> round_half_even a <= round_half_even b.
Proof.
  intro H.
  assert (Hfl : Qfloor a <= Qfloor b) by (apply Qfloor_resp_le, H).
  assert (Hlo : forall q, Qfloor q <= round_half_even q <= Qfloor q + 1).
  { intro q. unfold round_half_even.
    destruct (q - inject_Z (Qfloor q) ?= 1 # 2)%Q;
      [destruct (Z.even (Qfloor q))|..]; lia. }
  destruct (Z.eq_dec (Qfloor a) (Qfloor b)) as [E|NE].
  - assert (Hd : (a - inject_Z (Qfloor b) <= b - inject_Z (Qfloor b))%Q)
      by (apply Qplus_le_l; exact H).
    unfold round_half_even. rewrite E.
    destruct (a - inject_Z (Qfloor b) ?= 1 # 2)%Q eqn:Ea;
      destruct (b - inject_Z (Qfloor b) ?= 1 # 2)%Q eqn:Eb;
      try (destruct (Z.even (Qfloor b))); try lia; exfalso;
      try apply Qeq_alt in Ea; try apply Qgt_alt in Ea;
      try apply Qeq_alt in Eb; try apply Qlt_alt in Eb.
    + rewrite Ea in Hd. exact (Qlt_not_le _ _ Eb Hd).
    + rewrite Eb in Hd. exact (Qlt_not_le _ _ Ea Hd).
    + exact (Qlt_not_le _ _ (Qlt_trans _ _ _ Eb Ea) Hd).
    + exact (Qlt_not_le _ _ (Qlt_trans _ _ _ Eb Ea) Hd).
  - pose proof (Hlo a). pose proof (Hlo b). lia.
Qed.

Lemma clamp01_finite_mono (a b : Q) (ca cb : Q) :
  (a <= b)%Q ->
  clamp01 (Finite a) = Finite ca -> clamp01 (Finite b) = Finite cb ->
  (ca <= cb)%Q.
Proof.
  unfold clamp01, py_min, py_max. cbn. intros Hab.
  destruct (Qlt_bool a 1) eqn:Ea1; destruct (Qlt_bool b 1) eqn:Eb1; cbn;
    try destruct (Qlt_bool 0 a) eqn:Ea0; try destruct (Qlt_bool 0 b) eqn:Eb0;
    intros Ha Hb; injection Ha as <-; injection Hb as <-;
    repeat match goal with
           | H : Qlt_bool _ _ = true |- _ => apply Qlt_bool_iff in H
           | H : Qlt_bool _ _ = false |- _ => apply Qlt_bool_false in H
           end;
    lra.
Qed.

(** X1. [_transform_coords] never raises, whatever the ratios and the
    display: a ratio that is not below 1 (NaN and plus infinity included)
    lands on the last column or row, and one that is not above 0 (minus
    infinity included) lands on 0. *)
Theorem transform_coords_saturates (w : World) (x_ratio y_ratio : pyfloat) :
  exists x y : Z,
    _transform_coords w x_ratio y_ratio = Some (x, y) /\
    (flt x_ratio (Finite 1) = false -> x = fst (get_screen_size w) - 1) /\
    (flt x_ratio (Finite 1) = true -> flt (Finite 0) x_ratio = false -> x = 0) /\
    (flt y_ratio (Finite 1) = false -> y = snd (get_screen_size w) - 1) /\
    (flt y_ratio (Finite 1) = true -> flt (Finite 0) y_ratio = false -> y = 0).
Proof.
  assert (Hsat : forall (r : pyfloat) (n : Z),
             exists v, py_round (fmul (clamp01 r) (float_of_int n)) = Some v /\
                       (flt r (Finite 1) = false -> v = n) /\
                       (flt r (Finite 1) = true -> flt (Finite 0) r = false -> v = 0)).
  { intros r n. unfold clamp01, py_min, py_max.
    destruct (flt r (Finite 1)) eqn:E1.
    - destruct (flt (Finite 0) r) eqn:E0.
      + destruct r as [q | [|] | ]; try discriminate.
        eexists. split; [reflexivity|]. split; intro; discriminate.
      + change (flt (Finite 0) (Finite 1)) with true. cbv iota.
        exists (round_half_even (0 * inject_Z n)). split; [reflexivity|].
        split; [discriminate|]. intros _ _.
        rewrite (round_half_even_comp _ (inject_Z 0)) by ring.
        apply round_half_even_Z.
    - change (flt (Finite 0) (Finite 1)) with true. cbv iota.
      exists (round_half_even (1 * inject_Z n)). split; [reflexivity|].
      split; [|discriminate]. intros _.
      rewrite (round_half_even_comp _ (inject_Z n)) by ring.
      apply round_half_even_Z. }
  unfold get_screen_size, _transform_coords.
  destruct (get_screen_info w) as [[width height] scale]. cbn [fst snd].
  destruct (Hsat x_ratio (width - 1)) as (x & -> & Hx1 & Hx0).
  destruct (Hsat y_ratio (height - 1)) as (y & -> & Hy1 & Hy0).
  exists x, y. auto.
Qed.

(** X2. On a display of at least one point per axis the mapping keeps the
    order of finite ratios on both axes: a larger ratio never lands on a
    smaller device coordinate. *)
Theorem transform_coords_monotone (w : World) (qx qx' qy qy' : Q)
        (x y x' y' : Z) :
  1 <= fst (get_screen_size w) ->
  1 <= snd (get_screen_size w) ->
  (qx <= qx')%Q -> (qy <= qy')%Q ->
  _transform_coords w (Finite qx) (Finite qy) = Some (x, y) ->
  _transform_coords w (Finite qx') (Finite qy') = Some (x', y') ->
  x <= x' /\ y <= y'.
Proof.
  unfold get_screen_size, _transform_coords.
  destruct (get_screen_info w) as [[width height] scale]. cbn [fst snd].
  intros Hw Hh Hx Hy.
  destruct (clamp01_unit (Finite qx)) as (cx & Ecx & _).
  destruct (clamp01_unit (Finite qx')) as (cx' & Ecx' & _).
  destruct (clamp01_unit (Finite qy)) as (cy & Ecy & _).
  destruct (clamp01_unit (Finite qy')) as (cy' & Ecy' & _).
  pose proof (clamp01_finite_mono _ _ _ _ Hx Ecx Ecx') as Hcx.
  pose proof (clamp01_finite_mono _ _ _ _ Hy Ecy Ecy') as Hcy.
  rewrite Ecx, Ecx', Ecy, Ecy'. cbn [fmul float_of_int py_round].
  intros H H'. injection H as <- <-. injection H' as <- <-.
  split; apply round_half_even_mono, Qmult_le_compat_r; try assumption.
  - change 0%Q with (inject_Z 0). rewrite <- Zle_Qle. lia.
  - change 0%Q with (inject_Z 0). rewrite <- Zle_Qle. lia.
Qed.

Lemma transform_coords_monotone_witness :
  _transform_coords retina_world (Finite (1 # 20)) (Finite (9 # 10)) = Some (72, 809) /\
  _transform_coords retina_world (Finite (9 # 10)) (Finite (7 # 5)) = Some (1295, 899) /\
  (72 <= 1295 /\ 809 <= 899).
Proof.
  split; [reflexivity|]. split; [reflexivity|].
  apply (transform_coords_monotone retina_world (1 # 20) (9 # 10) (9 # 10) (7 # 5)
           72 809 1295 899); vm_compute; try discriminate; reflexivity.
Defined.

Lemma clamp01_idempotent (r : pyfloat) : clamp01 (clamp01 r) = clamp01 r.
Proof.
  unfold clamp01, py_min, py_max.
  destruct r as [q | [|] | ]; cbn; try reflexivity.
  destruct (Qlt_bool q 1) eqn:E1; cbn; [|reflexivity].
  destruct (Qlt_bool 0 q) eqn:E0; cbn; [|reflexivity].
  rewrite E1. cbn. rewrite E0. reflexivity.
Qed.

(** X3. Whenever [_extract_coords] hands back a coordinate pair, it has
    changed nothing in the world, both ratios are finite numbers of the
    unit interval, and the clamp that [_transform_coords] applies again
    leaves them as they are. *)
Theorem extract_coords_validated (text : string) (w w' : World)
        (ratio_x ratio_y : pyfloat) :
  _extract_coords text w = (Ok (Some (ratio_x, ratio_y)), w') ->
  w' = w /\
  (exists qx qy : Q,
      ratio_x = Finite qx /\ ratio_y = Finite qy /\
      (0 <= qx <= 1)%Q /\ (0 <= qy <= 1)%Q) /\
  clamp01 ratio_x = ratio_x /\ clamp01 ratio_y = ratio_y.
Proof.
  unfold _extract_coords.
  destruct (re_search match_coords_at text) as [[gx gy]|]; [|discriminate].
  unfold bind, reading, ret.
  destruct (py_float gx) as [fx|]; [|discriminate].
  destruct (py_float gy) as [fy|]; [|discriminate].
  intro H. injection H as <- <- <-.
  split; [reflexivity|]. split.
  - destruct (clamp01_unit fx) as (qx & -> & Hqx).
    destruct (clamp01_unit fy) as (qy & -> & Hqy).
    exists qx, qy. auto.
  - split; apply clamp01_idempotent.
Qed.

Lemma extract_coords_validated_witness :
  plain_world = plain_world /\
  (exists qx qy : Q,
      Finite (45 # 100) = Finite qx /\ Finite 1 = Finite qy /\
      (0 <= qx <= 1)%Q /\ (0 <= qy <= 1)%Q) /\
  clamp01 (Finite (45 # 100)) = Finite (45 # 100) /\
  clamp01 (Finite 1) = Finite 1.
Proof.
  apply (extract_coords_validated "left_click(0.45, 7)" plain_world).
  vm_compute. reflexivity.
Defined.

(** ** Calibration: offsets that cannot be used *)



(** X5. An offset that [float] accepts but that is not a finite number
    ([inf], [nan]) makes [calibrate_click_position] raise: the conversion to
    [int] lies outside its [try] block. *)
Theorem calibrate_nonfinite_offset (w : World) (x y : Z) (ox oy : pyfloat) :
  py_float (getenv w "HARVEY_X_OFFSET" "0") = Some ox ->
  py_float (getenv w "HARVEY_Y_OFFSET" "0") = Some oy ->
  (forall q, ox <> Finite q) \/ (forall q, oy <> Finite q) ->
  calibrate_click_position w x y = None.
Proof.
  intros Hx Hy H. unfold calibrate_click_position. rewrite Hx, Hy.
  destruct H as [H|H].
  - destruct ox as [q| |]; [destruct (H q eq_refl)|reflexivity|reflexivity].
  - destruct oy as [q| |]; [destruct (H q eq_refl)|..];
      destruct (py_int (fadd (float_of_int x) ox)); reflexivity.
Qed.

Lemma calibrate_nonfinite_offset_witness :
  calibrate_click_position infinite_offset_world 100 200 = None.
Proof.
  apply (calibrate_nonfinite_offset infinite_offset_world 100 200
           (Finite (inject_Z 3 * Qpow10 (0 - 0))) (Infinite false)).
  - reflexivity.
  - reflexivity.
  - right. discriminate.
Defined.

(** ** Input executor *)

Lemma press_run (key_code : Z) (down_flags up_flags : option Z) (w : World) :
  press key_code down_flags up_flags w
  = (Ok tt, log_append (press_trace key_code down_flags up_flags) w).
Proof.
  unfold press, press_trace, bind, sleep, emit. rewrite !log_append_app.
  reflexivity.
Qed.

Lemma ret_run (w : World) : ret tt w = (Ok tt, log_append [] w).
Proof. rewrite log_append_nil. reflexivity. Qed.

(** X6. Whatever key combination it is given, [hotkey] returns normally
    and posts either nothing or exactly one press: a key-down, a pause of
    0.02 s and a key-up of one key code of its table.  The key-down either
    carries no modifier flags, or carries a non-zero flag word that the
    key-up clears. *)
Theorem hotkey_single_press (key_combo : string) (w : World) :
  exists evs : list Event,
    hotkey key_combo w = (Ok tt, log_append evs w) /\
    (evs = [] \/
     exists (key_code : Z) (down_flags up_flags : option Z),
       evs = [KeyDown key_code down_flags; Sleep 0.02; KeyUp key_code up_flags] /\
       (exists name, key_codes !! name = Some key_code) /\
       (down_flags = None /\ up_flags = None \/
        exists flags, flags <> 0 /\ down_flags = Some flags /\ up_flags = Some 0)).
Proof.
  unfold hotkey, bind, asks. destruct (w_quartz w); cbn [negb].
  2: { exists []. split; [apply ret_run | left; reflexivity]. }
  unfold try_catch.
  destruct (str_contains "+" key_combo).
  - destruct (init_last (str_split "+"%char key_combo)) as [modifiers key].
    destruct (key_codes !! str_lower key) as [key_code|] eqn:Hk.
    2: { exists []. split; [rewrite ret_run; reflexivity | left; reflexivity]. }
    cbv zeta.
    match goal with
    | |- context [Z.eqb ?f 0] => destruct (Z.eqb f 0) eqn:Hf
    end.
    + rewrite press_run. eexists. split; [reflexivity|]. right.
      exists key_code, None, None. split; [reflexivity|].
      split; [exists (str_lower key); exact Hk | left; split; reflexivity].
    + rewrite press_run. eexists. split; [reflexivity|]. right.
      eexists key_code, _, _. split; [reflexivity|].
      split; [exists (str_lower key); exact Hk|]. right.
      eexists. split; [|split; reflexivity]. apply Z.eqb_neq, Hf.
  - destruct (key_codes !! str_lower key_combo) as [key_code|] eqn:Hk.
    + rewrite press_run. eexists. split; [reflexivity|]. right.
      exists key_code, None, None. split; [reflexivity|].
      split; [exists (str_lower key_combo); exact Hk | left; split; reflexivity].
    + exists []. split; [rewrite ret_run; reflexivity | left; reflexivity].
Qed.

Lemma no_char_contains (c : ascii) (s : string) :
  str_contains (String c EmptyString) s = false ->
  Forall (fun d => Ascii.eqb d c = false) (chars s).
Proof.
  induction s as [|d s IH]; cbn; intro H; [constructor|].
  apply orb_false_iff in H. destruct H as [Hp Hs].
  constructor; [|apply IH, Hs].
  destruct (ascii_dec c d) as [->|Hne].
  - destruct s; discriminate Hp.
  - apply Ascii.eqb_neq. congruence.
Qed.

Lemma str_split_no_sep (c : ascii) (s : string) :
  Forall (fun d => Ascii.eqb d c = false) (chars s) -> str_split c s = [s].
Proof.
  induction s as [|d s IH]; cbn; intro H; [reflexivity|].
  inversion H as [|? ? Hd Hs]; subst. rewrite Hd, (IH Hs). reflexivity.
Qed.

Lemma str_split_app (c : ascii) (p r : string) :
  Forall (fun d => Ascii.eqb d c = false) (chars p) ->
  str_split c (p ++ String c r) = p :: str_split c r.
Proof.
  induction p as [|d p IH]; intro H.
  - rewrite append_nil. cbn. rewrite Ascii.eqb_refl. reflexivity.
  - cbn in H. inversion H as [|? ? Hd Hp]; subst.
    rewrite append_cons. cbn. rewrite Hd, (IH Hp). reflexivity.
Qed.

(** Splitting what was joined gives the parts back, when no part holds
    the separator. *)
Lemma str_split_join (c : ascii) (parts : list string) :
  parts <> [] ->
  Forall (fun part => Forall (fun d => Ascii.eqb d c = false) (chars part)) parts ->
  str_split c (str_join (String c EmptyString) parts) = parts.
Proof.
  induction parts as [|p rest IH]; intros Hne H; [contradiction|].
  inversion H as [|? ? Hp Hrest]; subst.
  destruct rest as [|q rest].
  - cbn. apply str_split_no_sep, Hp.
  - change (str_join (String c EmptyString) (p :: q :: rest))
      with (p ++ String c EmptyString ++ str_join (String c EmptyString) (q :: rest)).
    rewrite append_cons, append_nil, (str_split_app c p _ Hp).
    rewrite IH; [reflexivity | discriminate | exact Hrest].
Qed.

Lemma str_contains_app (sub a s : string) :
  String.prefix sub s = true -> str_contains sub (a ++ s) = true.
Proof.
  intro H. induction a as [|d a IH].
  - rewrite append_nil. destruct s; cbn [str_contains]; rewrite H; reflexivity.
  - rewrite append_cons. cbn [str_contains]. rewrite IH. apply orb_true_r.
Qed.

Lemma str_join_contains (c : ascii) (p q : string) (rest : list string) :
  str_contains (String c EmptyString)
               (str_join (String c EmptyString) (p :: q :: rest)) = true.
Proof.
  change (str_join (String c EmptyString) (p :: q :: rest))
    with (p ++ String c EmptyString ++ str_join (String c EmptyString) (q :: rest)).
  apply str_contains_app. rewrite append_cons. cbn.
  destruct (ascii_dec c c) as [_|Hne]; [|contradiction].
  destruct (EmptyString ++ _); reflexivity.
Qed.

(** A combination of at least one modifier and a key of the table. *)
Lemma hotkey_combo_run (modifiers : list string) (key : string) (key_code : Z)
      (w : World) :
  w_quartz w = true ->
  modifiers <> [] ->
  Forall (fun part => str_contains "+" part = false) (modifiers ++ [key]) ->
  key_codes !! str_lower key = Some key_code ->
  hotkey (str_join "+" (modifiers ++ [key])) w =
  (Ok tt, log_append (combo_trace key_code (modifier_flags modifiers)) w).
Proof.
  intros Hq Hne Hparts Hk.
  assert (Hsplit : str_split "+"%char (str_join "+" (modifiers ++ [key]))
                   = (modifiers ++ [key])%list).
  { apply str_split_join.
    - destruct modifiers; discriminate.
    - eapply Forall_impl; [exact Hparts|]. intros part Hp.
      apply no_char_contains, Hp. }
  assert (Hplus : str_contains "+" (str_join "+" (modifiers ++ [key])) = true).
  { destruct modifiers as [|m ms]; [contradiction|].
    destruct ms as [|m' ms]; apply str_join_contains. }
  unfold hotkey, bind, asks. rewrite Hq. cbn [negb].
  unfold try_catch. rewrite Hplus, Hsplit.
  unfold init_last. rewrite removelast_last, last_last, Hk.
  fold (modifier_flags modifiers). unfold combo_trace.
  destruct (Z.eqb (modifier_flags modifiers) 0); rewrite press_run; reflexivity.
Qed.

(** A single key of the table, without modifiers. *)
Lemma hotkey_key_run (key : string) (key_code : Z) (w : World) :
  w_quartz w = true ->
  str_contains "+" key = false ->
  key_codes !! str_lower key = Some key_code ->
  hotkey key w = (Ok tt, log_append (press_trace key_code None None) w).
Proof.
  intros Hq Hplus Hk. unfold hotkey, bind, asks. rewrite Hq. cbn [negb].
  unfold try_catch. rewrite Hplus, Hk, press_run. reflexivity.
Qed.

Lemma modifier_flags_bits (modifiers : list string) (n : Z) :
  Z.testbit (modifier_flags modifiers) n =
  (str_in "cmd" modifiers || str_in "command" modifiers) && Z.eqb 20 n
  || str_in "shift" modifiers && Z.eqb 17 n
  || (str_in "alt" modifiers || str_in "option" modifiers) && Z.eqb 19 n
  || (str_in "ctrl" modifiers || str_in "control" modifiers) && Z.eqb 18 n.
Proof.
  unfold modifier_flags, kCGEventFlagMaskCommand.
  change 1048576 with (2 ^ 20). change 131072 with (2 ^ 17).
  change 524288 with (2 ^ 19). change 262144 with (2 ^ 18).
  destruct (str_in "cmd" modifiers || str_in "command" modifiers);
    destruct (str_in "shift" modifiers);
    destruct (str_in "alt" modifiers || str_in "option" modifiers);
    destruct (str_in "ctrl" modifiers || str_in "control" modifiers);
    cbv zeta iota;
    rewrite ?Z.lor_spec, ?Z.bits_0, ?Z.pow2_bits_eqb by lia;
    cbn [andb orb];
    destruct (Z.eqb 20 n), (Z.eqb 17 n), (Z.eqb 19 n), (Z.eqb 18 n);
    reflexivity.
Qed.

(** X7. For a combination [m1+...+mk+key] whose key is in the table,
    [hotkey] posts one press of that key.  Its flag word has bit 20 set
    exactly when [cmd] or [command] is among the modifiers, bit 17 for
    [shift], bit 19 for [alt] or [option], bit 18 for [ctrl] or [control],
    and no other bit: the order of the modifiers, repetitions and unknown
    modifier names make no difference.  With a zero flag word no flags are
    set on the events. *)
Theorem hotkey_modifier_flags (modifiers : list string) (key : string)
        (key_code : Z) (w : World) :
  w_quartz w = true ->
  modifiers <> [] ->
  Forall (fun part => str_contains "+" part = false) (modifiers ++ [key]) ->
  key_codes !! str_lower key = Some key_code ->
  exists flags : Z,
    hotkey (str_join "+" (modifiers ++ [key])) w =
    (Ok tt,
     log_append
       (if Z.eqb flags 0
        then [KeyDown key_code None; Sleep 0.02; KeyUp key_code None]
        else [KeyDown key_code (Some flags); Sleep 0.02; KeyUp key_code (Some 0)])
       w) /\
    forall n : Z,
      Z.testbit flags n =
      (str_in "cmd" modifiers || str_in "command" modifiers) && Z.eqb 20 n
      || str_in "shift" modifiers && Z.eqb 17 n
      || (str_in "alt" modifiers || str_in "option" modifiers) && Z.eqb 19 n
      || (str_in "ctrl" modifiers || str_in "control" modifiers) && Z.eqb 18 n.
Proof.
  intros Hq Hne Hparts Hk. exists (modifier_flags modifiers).
  split; [|apply modifier_flags_bits].
  rewrite (hotkey_combo_run modifiers key key_code w Hq Hne Hparts Hk).
  unfold combo_trace, press_trace.
  destruct (Z.eqb (modifier_flags modifiers) 0); reflexivity.
Qed.

Lemma hotkey_modifier_flags_witness :
  exists flags : Z,
    hotkey "shift+Cmd+cmd+T" retina_world =
    (Ok tt,
     log_append
       (if Z.eqb flags 0
        then [KeyDown 17 None; Sleep 0.02; KeyUp 17 None]
        else [KeyDown 17 (Some flags); Sleep 0.02; KeyUp 17 (Some 0)])
       retina_world) /\
    forall n : Z,
      Z.testbit flags n =
      true && Z.eqb 20 n || true && Z.eqb 17 n || false && Z.eqb 19 n
      || false && Z.eqb 18 n.
Proof.
  apply (hotkey_modifier_flags ["shift"; "Cmd"; "cmd"] "T" 17 retina_world).
  - reflexivity.
  - discriminate.
  - repeat constructor.
  - reflexivity.
Defined.

Lemma type_text_run (text : string) (w : World) :
  w_quartz w = true ->
  type_text text w = (Ok tt, log_append (type_trace text) w).
Proof.
  intro Hq. unfold type_text, type_trace, bind, asks. rewrite Hq. cbn [negb].
  apply for_each_emits. intros char w0. unfold char_trace.
  destruct (key_map !! String (lower_char char) EmptyString) as [[key_code|]|].
  - unfold try_catch, bind, sleep, emit. rewrite !log_append_app. reflexivity.
  - apply ret_run.
  - reflexivity.
Qed.

Lemma type_text_no_quartz (text : string) (w : World) :
  w_quartz w = false -> type_text text w = (Ok tt, w).
Proof. intro Hq. unfold type_text, bind, asks. rewrite Hq. reflexivity. Qed.

(** X8. Typing a text in two pieces, one after the other, is the same as
    typing it in one call: the same events in the same order, and the same
    world afterwards. *)
Theorem type_text_app (a b : string) (w : World) :
  type_text (a ++ b) w = (type_text a ;; type_text b) w.
Proof.
  unfold bind at 1. destruct (w_quartz w) eqn:Hq.
  - rewrite (type_text_run a w Hq), type_text_run by exact Hq.
    rewrite type_text_run by (autorewrite with world; exact Hq).
    rewrite log_append_app. unfold type_trace.
    rewrite chars_app, flat_map_app. reflexivity.
  - rewrite !(type_text_no_quartz _ w Hq). reflexivity.
Qed.

Lemma key_map_no_return (s : string) (key_code : Z) :
  key_map !! s = Some (Some key_code) -> key_code <> 36.
Proof.
  unfold key_map. intros H ->. apply elem_of_list_to_map_2 in H.
  match type of H with
  | _ ∈ ?l =>
      assert (F : Forall (fun kv : string * option Z => kv.2 <> Some 36) l)
        by (repeat constructor; discriminate)
  end.
  rewrite Forall_forall in F. exact (F _ H eq_refl).
Qed.

Lemma type_trace_no_return (text : string) :
  List.filter is_return_press (type_trace text) = [].
Proof.
  unfold type_trace. induction (chars text) as [|c l IH]; [reflexivity|].
  cbn [flat_map]. rewrite List.filter_app, IH, app_nil_r.
  unfold char_trace.
  destruct (key_map !! String (lower_char c) EmptyString) as [[key_code|]|] eqn:E;
    try reflexivity.
  cbn. apply key_map_no_return in E.
  destruct (Z.eqb key_code 36) eqn:E36; [apply Z.eqb_eq in E36; contradiction|].
  reflexivity.
Qed.

Lemma hotkey_enter_run (w : World) :
  w_quartz w = true ->
  hotkey "enter" w = (Ok tt, log_append (press_trace 36 None None) w).
Proof. intro Hq. apply hotkey_key_run; [exact Hq|reflexivity|reflexivity]. Qed.

Lemma bulk_lines_run (lines : list string) (w : World) :
  w_quartz w = true ->
  bulk_lines lines w = (Ok tt, log_append (bulk_trace lines) w).
Proof.
  intro Hq. revert w Hq. induction lines as [|line rest IH]; intros w Hq.
  - apply ret_run.
  - cbn [bulk_lines bulk_trace]. unfold bind at 1.
    assert (Hline : (if truthy (str_strip line) then type_text line else ret tt) w
                    = (Ok tt,
                       log_append (if truthy (str_strip line)
                                   then type_trace line else []) w)).
    { destruct (truthy (str_strip line));
        [apply type_text_run, Hq | apply ret_run]. }
    rewrite Hline.
    destruct rest as [|next rest].
    + rewrite app_nil_r. reflexivity.
    + unfold bind. rewrite hotkey_enter_run by (autorewrite with world; exact Hq).
      unfold sleep, emit.
      rewrite IH by (autorewrite with world; exact Hq).
      rewrite !log_append_app. reflexivity.
Qed.

Lemma str_split_length (c : ascii) (s : string) :
  length (str_split c s) = S (count_char c s).
Proof.
  unfold count_char. induction s as [|d s IH]; [reflexivity|].
  cbn [str_split chars list_ascii_of_string List.filter].
  rewrite (Ascii.eqb_sym c d).
  destruct (Ascii.eqb d c).
  - cbn [length]. rewrite IH. reflexivity.
  - destruct (str_split c s) as [|h t]; [discriminate IH|]. exact IH.
Qed.

Lemma bulk_trace_returns (lines : list string) :
  length (List.filter is_return_press (bulk_trace lines)) = pred (length lines).
Proof.
  induction lines as [|line rest IH]; [reflexivity|].
  cbn [bulk_trace]. rewrite List.filter_app, length_app.
  assert (E : List.filter is_return_press
                (if truthy (str_strip line) then type_trace line else []) = []).
  { destruct (truthy (str_strip line)); [apply type_trace_no_return | reflexivity]. }
  rewrite E. destruct rest as [|next rest]; [reflexivity|].
  cbn [length Nat.add].
  change (press_trace 36 None None ++ [Sleep 0.1] ++ bulk_trace (next :: rest))%list
    with (KeyDown 36 None :: Sleep 0.02 :: KeyUp 36 None :: Sleep 0.1
            :: bulk_trace (next :: rest)).
  cbn [List.filter is_return_press Z.eqb].
  change (36 =? 36)%positive with true. cbn [length]. rewrite IH. reflexivity.
Qed.

(** X9. With Quartz available, [_bulk_type_text] returns normally and
    presses Return once for every line break of its text, blank lines
    included, and never after the last line. *)
Theorem bulk_type_presses_return (text : string) (w : World) :
  w_quartz w = true ->
  fst (_bulk_type_text text w) = Ok tt /\
  length (List.filter is_return_press (emitted (_bulk_type_text text) w))
  = count_char "010"%char text.
Proof.
  intro Hq. unfold _bulk_type_text.
  pose proof (bulk_lines_run (str_split "010"%char text) w Hq) as Hrun.
  split; [rewrite Hrun; reflexivity|].
  rewrite (emitted_log_append _ _ _ _ Hrun), bulk_trace_returns, str_split_length.
  reflexivity.
Qed.

Lemma bulk_type_presses_return_witness :
  fst (_bulk_type_text ("to do" ++ newline ++ newline ++ "milk") retina_world)
  = Ok tt /\
  length (List.filter is_return_press
            (emitted (_bulk_type_text ("to do" ++ newline ++ newline ++ "milk"))
                     retina_world))
  = count_char "010"%char ("to do" ++ newline ++ newline ++ "milk").
Proof.
  apply (bulk_type_presses_return ("to do" ++ newline ++ newline ++ "milk")
           retina_world).
  reflexivity.
Defined.

(** ** Workflows *)

Lemma open_app_workflow_run (app_name : string) (w : World) :
  w_quartz w = true ->
  _open_app_workflow app_name w = (Ok tt, log_append (open_app_trace app_name) w).
Proof.
  intro Hq. unfold _open_app_workflow, open_app_trace, bind.
  change "cmd+space" with (str_join "+" (["cmd"] ++ ["space"])).
  rewrite (hotkey_combo_run ["cmd"] "space" 49 w Hq)
    by first [discriminate | repeat constructor | reflexivity].
  unfold sleep, emit.
  rewrite type_text_run by (autorewrite with world; exact Hq).
  rewrite hotkey_enter_run by (autorewrite with world; exact Hq).
  rewrite !log_append_app, <- ?app_assoc. reflexivity.
Qed.

(** X10. With Quartz available the web-search workflow always returns
    normally and posts keyboard events only, in this order: Command+Space
    (key 49), the word [Safari], Return (key 36), Command+T (key 17), the
    search term followed by one space, Return; with pauses of 1.5, 0.5,
    2.0, 1.5, 0.5 and 2.5 seconds after the respective steps. *)
Theorem web_search_workflow_keys (search_term : string) (w : World) :
  w_quartz w = true ->
  _web_search_workflow search_term w =
  (Ok tt,
   log_append
     ([KeyDown 49 (Some 1048576); Sleep 0.02; KeyUp 49 (Some 0); Sleep 1.5]
      ++ type_trace "Safari"
      ++ [Sleep 0.5; KeyDown 36 None; Sleep 0.02; KeyUp 36 None; Sleep 2.0;
          KeyDown 17 (Some 1048576); Sleep 0.02; KeyUp 17 (Some 0); Sleep 1.5]
      ++ type_trace (search_term ++ " ")
      ++ [Sleep 0.5; KeyDown 36 None; Sleep 0.02; KeyUp 36 None; Sleep 2.5]) w) /\
  forallb is_keyboard_event (emitted (_web_search_workflow search_term) w) = true.
Proof.
  intro Hq.
  assert (Hrun : _web_search_workflow search_term w
                 = (Ok tt, log_append (web_search_trace search_term) w)).
  { unfold _web_search_workflow, web_search_trace, bind.
    rewrite open_app_workflow_run by exact Hq.
    change "cmd+t" with (str_join "+" (["cmd"] ++ ["t"])).
    rewrite (hotkey_combo_run ["cmd"] "t" 17)
      by first [autorewrite with world; exact Hq | discriminate
               | repeat constructor | reflexivity].
    unfold sleep, emit.
    rewrite type_text_run by (autorewrite with world; exact Hq).
    rewrite hotkey_enter_run by (autorewrite with world; exact Hq).
    rewrite !log_append_app, <- ?app_assoc. reflexivity. }
  assert (Htype : forall text, forallb is_keyboard_event (type_trace text) = true).
  { intro text. unfold type_trace. induction (chars text) as [|c l IH]; [reflexivity|].
    cbn [flat_map]. rewrite forallb_app, IH, andb_true_r. unfold char_trace.
    destruct (key_map !! String (lower_char c) EmptyString) as [[key_code|]|];
      reflexivity. }
  split.
  - rewrite Hrun. unfold web_search_trace, open_app_trace.
    rewrite <- !app_assoc. reflexivity.
  - rewrite (emitted_log_append _ _ _ _ Hrun).
    unfold web_search_trace, open_app_trace.
    rewrite !forallb_app, !Htype. reflexivity.
Qed.

Lemma web_search_workflow_keys_witness :
  _web_search_workflow "rocq prover" retina_world =
  (Ok tt,
   log_append
     ([KeyDown 49 (Some 1048576); Sleep 0.02; KeyUp 49 (Some 0); Sleep 1.5]
      ++ type_trace "Safari"
      ++ [Sleep 0.5; KeyDown 36 None; Sleep 0.02; KeyUp 36 None; Sleep 2.0;
          KeyDown 17 (Some 1048576); Sleep 0.02; KeyUp 17 (Some 0); Sleep 1.5]
      ++ type_trace ("rocq prover" ++ " ")
      ++ [Sleep 0.5; KeyDown 36 None; Sleep 0.02; KeyUp 36 None; Sleep 2.5])
     retina_world) /\
  forallb is_keyboard_event (emitted (_web_search_workflow "rocq prover") retina_world)
  = true.
Proof. apply (web_search_workflow_keys "rocq prover" retina_world). reflexivity. Defined.

(** ** Scrolling *)

Lemma lower_char_idempotent (c : ascii) : lower_char (lower_char c) = lower_char c.
Proof. destruct c as [[] [] [] [] [] [] [] []]; reflexivity. Qed.

Lemma str_lower_idempotent (s : string) : str_lower (str_lower s) = str_lower s.
Proof.
  induction s as [|c s IH]; [reflexivity|].
  cbn. rewrite lower_char_idempotent, IH. reflexivity.
Qed.

(** X11. [scroll] returns normally whatever the direction and never posts
    more than one event.  It posts a wheel event exactly when Quartz is
    available and the direction, whatever its case, is one of [down], [up],
    [right] and [left]; the event moves by five lines along one axis and
    not at all along the other. *)
Theorem scroll_one_event (direction : string) (w : World) :
  exists evs : list Event,
    scroll direction w = (Ok tt, log_append evs w) /\
    scroll (str_lower direction) w = scroll direction w /\
    (evs = [] \/
     exists vertical horizontal,
       evs = [ScrollWheel vertical horizontal] /\
       Z.abs vertical + Z.abs horizontal = 5 /\ vertical * horizontal = 0) /\
    (evs <> [] <->
     w_quartz w = true /\
     In (str_lower direction) ["down"; "up"; "right"; "left"]).
Proof.
  unfold scroll, bind, asks. rewrite str_lower_idempotent.
  destruct (w_quartz w); cbn [negb].
  2: { exists []. split; [apply ret_run|]. split; [reflexivity|].
       split; [left; reflexivity|].
       split; [intro H; contradiction | intros [H _]; discriminate H]. }
  destruct (scroll_direction 5 !! str_lower direction) as [[vertical horizontal]|] eqn:E.
  - exists [ScrollWheel vertical horizontal]. split; [reflexivity|].
    split; [reflexivity|].
    unfold scroll_direction in E. apply elem_of_list_to_map_2 in E.
    assert (Hcases : (str_lower direction = "down" /\ vertical = 5 /\ horizontal = 0)
                     \/ (str_lower direction = "up" /\ vertical = -5 /\ horizontal = 0)
                     \/ (str_lower direction = "right" /\ vertical = 0 /\ horizontal = 5)
                     \/ (str_lower direction = "left" /\ vertical = 0 /\ horizontal = -5)).
    { repeat (apply elem_of_cons in E; destruct E as [E|E];
              [injection E as -> -> ->; auto 6|]).
      apply elem_of_nil in E. destruct E. }
    split.
    + right. exists vertical, horizontal. split; [reflexivity|].
      destruct Hcases as [(_ & -> & ->)|[(_ & -> & ->)|[(_ & -> & ->)|(_ & -> & ->)]]];
        split; reflexivity.
    + split; [intros _ | discriminate]. split; [reflexivity|].
      destruct Hcases as [(-> & _)|[(-> & _)|[(-> & _)|(-> & _)]]]; cbn; auto.
  - exists []. split; [apply ret_run|]. split; [reflexivity|].
    split; [left; reflexivity|].
    split; [intro H; contradiction|]. intros [_ H].
    destruct H as [H|[H|[H|[H|[]]]]]; rewrite <- H in E; discriminate E.
Qed.

(** ** Action grammar: what is written can be read back *)

Lemma re_search_skip {A} (match_at : string -> option A) (pre s : string) :
  (forall c r, In c (chars pre) -> match_at (String c r) = None) ->
  re_search match_at (pre ++ s) = re_search match_at s.
Proof.
  induction pre as [|c pre IH]; intro H.
  - reflexivity.
  - rewrite append_cons. cbn [re_search].
    rewrite (H c (pre ++ s)) by (left; reflexivity).
    apply IH. intros d r Hd. apply H. right. exact Hd.
Qed.

Lemma str_span_app (p : ascii -> bool) (a rest : string) :
  Forall (fun c => p c = true) (chars a) ->
  match rest with String c _ => p c = false | EmptyString => True end ->
  str_span p (a ++ rest) = (a, rest).
Proof.
  intros Ha Hrest. induction a as [|c a IH].
  - rewrite append_nil. destruct rest as [|c r]; [reflexivity|].
    cbn. rewrite Hrest. reflexivity.
  - cbn in Ha. inversion Ha as [|? ? Hc Ha']; subst.
    rewrite append_cons. cbn. rewrite Hc, (IH Ha'). reflexivity.
Qed.

Lemma dquote_free (t : string) :
  str_contains dquote t = false ->
  Forall (fun c => not_dquote c = true) (chars t).
Proof.
  intro H. apply no_char_contains in H.
  eapply Forall_impl; [exact H|]. intros c Hc. unfold not_dquote.
  rewrite Hc. reflexivity.
Qed.

Lemma extract_text_quoted (pre t post : string) :
  str_contains dquote pre = false ->
  str_contains dquote t = false ->
  _extract_text (pre ++ dquote ++ t ++ dquote ++ post) = Some t.
Proof.
  intros Hpre Ht. unfold _extract_text.
  rewrite re_search_skip.
  - unfold dquote at 1. rewrite append_cons, append_nil.
    cbn [re_search match_text_at].
    rewrite (str_span_app not_dquote t (dquote ++ post) (dquote_free t Ht) eq_refl).
    reflexivity.
  - intros c r Hc. apply no_char_contains in Hpre.
    rewrite List.Forall_forall in Hpre. specialize (Hpre c Hc).
    unfold match_text_at.
    destruct c as [[] [] [] [] [] [] [] []]; try reflexivity. discriminate Hpre.
Qed.

(** X12. A text argument written between double quotes is read back
    exactly by [_extract_text], whatever precedes and follows it, as long as
    neither the argument nor what precedes it holds a double quote. *)
Theorem extract_text_round_trip (pre t post : string) :
  str_contains dquote pre = false ->
  str_contains dquote t = false ->
  _extract_text (pre ++ dquote ++ t ++ dquote ++ post) = Some t.
Proof. exact (extract_text_quoted pre t post). Qed.

Lemma extract_text_round_trip_witness :
  _extract_text ("open_app(" ++ dquote ++ "System Settings" ++ dquote ++ ")")
  = Some "System Settings".
Proof.
  apply (extract_text_round_trip "open_app(" "System Settings" ")"); reflexivity.
Defined.

Lemma read_digits_app (a rest : string) (acc : Z) (n : nat) :
  Forall (fun c => is_digit c = true) (chars a) ->
  match rest with String c _ => is_digit c = false | EmptyString => True end ->
  read_digits (a ++ rest) acc n =
  (fst (fst (read_digits a acc n)), snd (fst (read_digits a acc n)), rest).
Proof.
  revert acc n. induction a as [|c a IH]; intros acc n Ha Hrest.
  - rewrite append_nil. destruct rest as [|c r]; [reflexivity|].
    cbn. rewrite Hrest. reflexivity.
  - cbn in Ha. inversion Ha as [|? ? Hc Ha']; subst.
    rewrite append_cons. cbn [read_digits]. rewrite Hc. apply IH; assumption.
Qed.

Lemma str_of_int_nonneg (n : Z) :
  0 <= n ->
  exists d, str_of_int n = NilEmpty.string_of_uint d /\ d <> Decimal.Nil /\
            Z.of_N (Pos.of_uint d) = n.
Proof.
  intro Hn. destruct n as [|p|p]; [| |lia].
  - exists (Decimal.D0 Decimal.Nil). repeat split. discriminate.
  - exists (Pos.to_uint p).
    pose proof (DecimalPos.Unsigned.to_uint_nonnil p) as Hnn.
    split; [|split; [exact Hnn|]].
    + unfold str_of_int. cbn [Z.to_int NilZero.string_of_int].
      destruct (Pos.to_uint p); [contradiction|..]; reflexivity.
    + rewrite DecimalPos.Unsigned.of_to. reflexivity.
Qed.

Lemma extract_number_written (pre post : string) (n : Z) :
  0 <= n ->
  str_contains "(" pre = false ->
  _extract_number (pre ++ "(" ++ str_of_int n ++ ")" ++ post) = Some n.
Proof.
  intros Hn Hpre. unfold _extract_number.
  destruct (str_of_int_nonneg n Hn) as (d & -> & Hd & Hval).
  rewrite re_search_skip.
  - rewrite append_cons, append_nil. cbn [re_search match_number_at].
    rewrite (read_digits_app _ (")" ++ post) 0 0 (uint_digits d) eq_refl).
    rewrite read_digits_of_uint. cbn [fst snd].
    destruct (NilEmpty.string_of_uint d) as [|c r] eqn:E.
    + destruct d; first [contradiction | discriminate E].
    + cbn. rewrite Hval. reflexivity.
  - intros c r Hc. apply no_char_contains in Hpre.
    rewrite List.Forall_forall in Hpre. specialize (Hpre c Hc).
    unfold match_number_at.
    destruct c as [[] [] [] [] [] [] [] []]; try reflexivity. discriminate Hpre.
Qed.

(** X13. A non-negative integer written in decimal between brackets is
    read back exactly by [_extract_number], whatever follows it, as long as
    no opening bracket precedes it. *)
Theorem extract_number_round_trip (pre post : string) (n : Z) :
  0 <= n ->
  str_contains "(" pre = false ->
  _extract_number (pre ++ "(" ++ str_of_int n ++ ")" ++ post) = Some n.
Proof. exact (extract_number_written pre post n). Qed.

Lemma extract_number_round_trip_witness :
  _extract_number ("wait" ++ "(" ++ str_of_int 2500 ++ ")" ++ " then look")
  = Some 2500.
Proof.
  apply (extract_number_round_trip "wait" " then look" 2500); [lia | reflexivity].
Defined.

(** ** Command dispatch: grammar, dispatch and executor together *)

Ltac starts b name :=
  match goal with
  | |- context [startswith ?a name] => change (startswith a name) with b
  end.

(** X14. Executing [open_app("name")] with a non-empty name that holds no
    double quote returns [False] and posts exactly the keys of the
    open-application workflow: Command+Space, the name as [type_text] types
    it, Return, with pauses of 1.5, 0.5 and 2.0 seconds.  No pointer
    event, frontmost-process query or screen capture is involved. *)
Theorem execute_open_app (app_name : string) (w : World) :
  w_quartz w = true ->
  truthy app_name = true ->
  str_contains dquote app_name = false ->
  execute ("open_app(" ++ dquote ++ app_name ++ dquote ++ ")") w =
  (Ok false,
   log_append
     ([KeyDown 49 (Some 1048576); Sleep 0.02; KeyUp 49 (Some 0); Sleep 1.5]
      ++ type_trace app_name
      ++ [Sleep 0.5; KeyDown 36 None; Sleep 0.02; KeyUp 36 None; Sleep 2.0]) w).
Proof.
  intros Hq Hne Hquote. unfold execute, execute_body.
  starts true "open_app".
  rewrite (extract_text_quoted "open_app(" app_name ")" eq_refl Hquote).
  unfold when_text. rewrite Hne. unfold bind, try_catch.
  rewrite (open_app_workflow_run app_name w Hq). reflexivity.
Qed.

Lemma execute_open_app_witness :
  execute ("open_app(" ++ dquote ++ "Notes" ++ dquote ++ ")") retina_world =
  (Ok false,
   log_append
     ([KeyDown 49 (Some 1048576); Sleep 0.02; KeyUp 49 (Some 0); Sleep 1.5]
      ++ type_trace "Notes"
      ++ [Sleep 0.5; KeyDown 36 None; Sleep 0.02; KeyUp 36 None; Sleep 2.0])
     retina_world).
Proof. apply (execute_open_app "Notes" retina_world); reflexivity. Defined.



(** ** Pointer moves that are not clicks *)

Lemma transform_coords_defined (w : World) (x_ratio y_ratio : pyfloat) :
  exists xy, _transform_coords w x_ratio y_ratio = Some xy.
Proof.
  unfold _transform_coords.
  destruct (get_screen_info w) as [[width height] scale].
  destruct (clamp01_unit x_ratio) as (cx & -> & _).
  destruct (clamp01_unit y_ratio) as (cy & -> & _).
  eexists. reflexivity.
Qed.

Lemma move_trace_motion (sx sy ex ey : Z) :
  forallb is_motion_event (move_trace sx sy ex ey) = true.
Proof.
  apply forallb_forall. intros e He.
  destruct (move_trace_events _ _ _ _ _ He) as [(x & y & ->)| ->]; reflexivity.
Qed.

Lemma move_mouse_run (w : World) (x_ratio y_ratio : pyfloat) (xy : Z * Z) :
  w_quartz w = true ->
  _transform_coords w x_ratio y_ratio = Some xy ->
  move_mouse x_ratio y_ratio w =
  (Ok tt,
   log_append (move_trace (fst (w_pointer w (w_pointer_reads w)))
                          (snd (w_pointer w (w_pointer_reads w)))
                          (fst xy) (snd xy)) (pointer_read w)).
Proof.
  intros Hq Hxy. unfold move_mouse, bind, asks, reading. rewrite Hq.
  cbn [negb]. cbv beta iota. rewrite Hxy, (get_position_run w Hq).
  apply smooth_move_mouse_run. autorewrite with world. exact Hq.
Qed.

Lemma hover_run (w : World) (x_ratio y_ratio : pyfloat) (xy : Z * Z) :
  w_quartz w = true ->
  _transform_coords w x_ratio y_ratio = Some xy ->
  hover x_ratio y_ratio w =
  (Ok tt,
   log_append (move_trace (fst (w_pointer w (w_pointer_reads w)))
                          (snd (w_pointer w (w_pointer_reads w)))
                          (fst xy) (snd xy) ++ [Sleep 0.5]) (pointer_read w)).
Proof.
  intros Hq Hxy. unfold hover, bind, asks, reading. rewrite Hq.
  cbn [negb]. cbv beta iota. rewrite Hxy, (get_position_run w Hq).
  rewrite smooth_move_mouse_run by (autorewrite with world; exact Hq).
  unfold sleep, emit. rewrite log_append_app. reflexivity.
Qed.

(** X16. [move_mouse] and [hover] return normally for every ratio pair
    and every world, and whatever they post is a location query, a
    pointer-move event or a pause: never a button, key or wheel event.
    With Quartz available, [hover] is [move_mouse] followed by one pause
    of half a second. *)
Theorem hover_never_clicks (x_ratio y_ratio : pyfloat) (w : World) :
  fst (move_mouse x_ratio y_ratio w) = Ok tt /\
  fst (hover x_ratio y_ratio w) = Ok tt /\
  forallb is_motion_event (emitted (move_mouse x_ratio y_ratio) w) = true /\
  forallb is_motion_event (emitted (hover x_ratio y_ratio) w) = true /\
  (w_quartz w = true ->
   emitted (hover x_ratio y_ratio) w =
   (emitted (move_mouse x_ratio y_ratio) w ++ [Sleep 0.5])%list).
Proof.
  destruct (transform_coords_defined w x_ratio y_ratio) as [xy Hxy].
  destruct (w_quartz w) eqn:Hq.
  - pose proof (move_mouse_run w x_ratio y_ratio xy Hq Hxy) as Hm.
    pose proof (hover_run w x_ratio y_ratio xy Hq Hxy) as Hh.
    set (tr := move_trace _ _ _ _) in Hm, Hh.
    assert (Em : emitted (move_mouse x_ratio y_ratio) w = GetLocation :: tr).
    { apply emitted_app. rewrite Hm. cbn [snd]. autorewrite with world.
      rewrite <- app_assoc. reflexivity. }
    assert (Eh : emitted (hover x_ratio y_ratio) w
                 = (GetLocation :: tr ++ [Sleep 0.5])%list).
    { apply emitted_app. rewrite Hh. cbn [snd]. autorewrite with world.
      rewrite <- app_assoc. reflexivity. }
    rewrite Em, Eh, Hm, Hh. repeat split.
    + cbn [forallb is_motion_event andb]. apply move_trace_motion.
    + cbn [forallb is_motion_event andb]. rewrite forallb_app.
      unfold tr. rewrite move_trace_motion. reflexivity.
  - assert (Hm : move_mouse x_ratio y_ratio w = (Ok tt, log_append [] w)).
    { unfold move_mouse, bind, asks. rewrite Hq. apply ret_run. }
    assert (Hh : hover x_ratio y_ratio w = (Ok tt, log_append [] w)).
    { unfold hover, bind, asks, reading. rewrite Hq. cbn [negb]. cbv beta iota.
      rewrite Hxy. apply ret_run. }
    rewrite (emitted_log_append _ _ _ _ Hm), (emitted_log_append _ _ _ _ Hh).
    rewrite Hm, Hh. repeat split. discriminate.
Qed.

(** ** The control loop when the reasoning call fails *)

(** X17. When the first screen capture succeeds and the reasoning call
    then fails with a message that is not recognised as rate limiting, the
    planner answers [done()], the executor reports completion, and [run]
    ends after this one step: one capture, one reasoning call, one
    narration request, and no input event at all. *)
Theorem run_ends_on_reasoning_failure (task data error_str : string) (w : World) :
  w_screencapture w (w_captures w) = Some data ->
  truthy data = true ->
  w_gemini w (w_gemini_calls w) = Failure error_str ->
  rate_limited error_str = false ->
  fst (run task w) = Ok [Captured 0 (Some data); Executed 0 "done()" true] /\
  emitted (run task) w =
  [Screencapture; DebugDump; GenerateContent; Narrate "done()"].
Proof.
  intros Hcap Hdata Hfail Hrl.
  assert (Hrun : exists w',
             run task w = (Ok [Captured 0 (Some data); Executed 0 "done()" true], w') /\
             w_log w' = (w_log w ++ [Screencapture; DebugDump; GenerateContent;
                                     Narrate "done()"])%list).
  { unfold run. destruct (range_head 20 ltac:(lia)) as [rest ->].
    cbn [run_steps]. unfold bind at 1. unfold capture_to_bytes at 1.
    rewrite Hcap.
    set (w1 := mkWorld _ _ _ _ _ _ _ _ _ _ _ _ _ _).
    assert (Hl1 : w_log w1 = (w_log w ++ [Screencapture])%list) by reflexivity.
    assert (Hg1 : w_gemini w1 (w_gemini_calls w1) = Failure error_str)
      by exact Hfail.
    clearbody w1.
    change (Z.eqb 0 0 && captured (Some data)) with (truthy data).
    rewrite Hdata. unfold bind at 1. unfold emit at 1.
    set (w2 := log_append [DebugDump] w1).
    assert (Hl2 : w_log w2 = ((w_log w ++ [Screencapture]) ++ [DebugDump])%list).
    { unfold w2. autorewrite with world. rewrite Hl1. reflexivity. }
    assert (Hg2 : w_gemini w2 (w_gemini_calls w2) = Failure error_str)
      by exact Hg1.
    clearbody w2.
    unfold bind at 1.
    assert (Hthink : exists w3,
               think task data w2 = (Ok "done()", w3) /\
               w_log w3 = (w_log w2 ++ [GenerateContent])%list).
    { unfold think, try_catch, bind, generate_content. rewrite Hg2.
      cbv beta iota. rewrite Hrl. eexists. split; reflexivity. }
    destruct Hthink as (w3 & -> & Hl3).
    unfold bind at 1, _speak_rationale at 1, emit at 1. unfold bind at 1.
    unfold execute, bind, try_catch.
    rewrite (execute_body_done "done()" _ eq_refl). cbv beta iota.
    eexists. split; [reflexivity|].
    autorewrite with world. rewrite Hl3, Hl2, <- !app_assoc. reflexivity. }
  destruct Hrun as (w' & Hrun & Hlog).
  split; [rewrite Hrun; reflexivity|].
  apply emitted_app. rewrite Hrun. exact Hlog.
Qed.

Lemma run_ends_on_reasoning_failure_witness :
  fst (run "open notes" offline_world)
  = Ok [Captured 0 (Some "image"); Executed 0 "done()" true] /\
  emitted (run "open notes") offline_world =
  [Screencapture; DebugDump; GenerateContent; Narrate "done()"].
Proof.
  apply (run_ends_on_reasoning_failure "open notes" "image"
           "503 Service Unavailable" offline_world); reflexivity.
Defined.

(** ** The Spotlight detector *)

Lemma prefix_append (p b : string) : String.prefix p (p ++ b) = true.
Proof.
  induction p as [|c p IH]; [destruct b; reflexivity|].
  rewrite append_cons. cbn. destruct (ascii_dec c c) as [_|Hne]; [exact IH|].
  contradiction.
Qed.

Lemma str_contains_iff (p s : string) :
  str_contains p s = true <-> exists a b, s = a ++ p ++ b.
Proof.
  split.
  - induction s as [|c s IH]; cbn [str_contains]; intro H.
    + rewrite orb_false_r in H. destruct (prefix_app _ _ H) as [r Hr].
      exists EmptyString, r. exact Hr.
    + apply orb_true_iff in H. destruct H as [H|H].
      * destruct (prefix_app _ _ H) as [r Hr]. exists EmptyString, r. exact Hr.
      * destruct (IH H) as (a & b & ->). exists (String c a), b. reflexivity.
  - intros (a & b & ->). apply str_contains_app, prefix_append.
Qed.

Lemma str_rev_app (a b : string) : str_rev (a ++ b) = str_rev b ++ str_rev a.
Proof.
  apply chars_inj. rewrite chars_rev, !chars_app, !chars_rev. apply rev_app_distr.
Qed.

Lemma str_contains_rev (p s : string) :
  str_contains (str_rev p) (str_rev s) = str_contains p s.
Proof.
  assert (H : forall p s, str_contains p s = true ->
                          str_contains (str_rev p) (str_rev s) = true).
  { intros p0 s0 H0. apply str_contains_iff in H0. destruct H0 as (a & b & ->).
    apply str_contains_iff. exists (str_rev b), (str_rev a).
    rewrite !str_rev_app, append_assoc. reflexivity. }
  destruct (str_contains p s) eqn:E.
  - apply H, E.
  - destruct (str_contains (str_rev p) (str_rev s)) eqn:E'; [|reflexivity].
    apply H in E'. rewrite !str_rev_involutive in E'. congruence.
Qed.

(** Leading whitespace does not matter to the search for a word that
    starts with a character other than whitespace. *)
Lemma str_contains_lstrip (c : ascii) (p s : string) :
  is_space c = false ->
  str_contains (String c p) (str_lstrip s) = str_contains (String c p) s.
Proof.
  intro Hc. induction s as [|d s IH]; [reflexivity|].
  cbn [str_lstrip]. destruct (is_space d) eqn:Hd; [|reflexivity].
  rewrite IH. cbn [str_contains String.prefix].
  destruct (ascii_dec c d) as [->|_]; [congruence | reflexivity].
Qed.

Lemma str_contains_spotlight_strip (s : string) :
  str_contains "Spotlight" (str_strip s) = str_contains "Spotlight" s.
Proof.
  unfold str_strip, str_rstrip.
  rewrite <- (str_contains_rev "Spotlight"), str_rev_involutive.
  change (str_rev "Spotlight") with "thgiltopS".
  rewrite (str_contains_lstrip "t" "hgiltopS") by reflexivity.
  change "thgiltopS" with (str_rev "Spotlight").
  rewrite str_contains_rev.
  apply (str_contains_lstrip "S" "potlight"). reflexivity.
Qed.

(** X18. The Spotlight detector answers by a substring test on the raw
    output of the frontmost-process query: surrounding whitespace and the
    separate equality test make no difference, so any process whose name
    holds [Spotlight] counts.  A failed query counts as a no, and the
    detector makes exactly one query. *)
Theorem spotlight_detector_substring (w : World) :
  _is_spotlight_active w =
  (Ok match w_frontmost w (w_frontmost_reads w) with
      | Some stdout => str_contains "Spotlight" stdout
      | None => false
      end,
   frontmost_read w).
Proof.
  unfold _is_spotlight_active, spotlight_frontmost.
  destruct (w_frontmost w (w_frontmost_reads w)) as [stdout|]; [|reflexivity].
  rewrite str_contains_spotlight_strip.
  destruct (String.eqb (str_strip stdout) "Spotlight") eqn:E; [|reflexivity].
  apply String.eqb_eq in E.
  rewrite <- (str_contains_spotlight_strip stdout), E. reflexivity.
Qed.

(** ** Saving offsets more than once *)

Lemma find_key_insert (key : string) (lines : list string) (i : nat)
      (old new : string) :
  lines !! i = Some old ->
  key_line key new = key_line key old ->
  find_key key (<[i := new]> lines) = find_key key lines.
Proof.
  revert i. induction lines as [|l lines IH]; intros i Hi Hk; [discriminate|].
  destruct i as [|i].
  - cbn in Hi. injection Hi as ->.
    change (<[0%nat := new]> (old :: lines)) with (new :: lines).
    cbn [find_key]. rewrite Hk. reflexivity.
  - change (<[S i := new]> (l :: lines)) with (l :: <[i := new]> lines).
    cbn [find_key]. rewrite (IH i Hi Hk). reflexivity.
Qed.

Lemma find_key_app (key : string) (lines more : list string) :
  find_key key (lines ++ more) =
  match find_key key lines with
  | Some i => Some i
  | None => match find_key key more with
            | Some j => Some (length lines + j)%nat
            | None => None
            end
  end.
Proof.
  induction lines as [|l lines IH]; cbn.
  - destruct (find_key key more); reflexivity.
  - destruct (key_line key l); [reflexivity|]. rewrite IH.
    destruct (find_key key lines); [reflexivity|].
    destruct (find_key key more); reflexivity.
Qed.

Section OffsetKeys.
(** Two keys whose lines cannot be mistaken for each other, and values
    without whitespace, as [_write_env_offsets] writes them. *)
Variables key other : string.
Hypothesis key_no_space : Forall (fun c => is_space c = false) (chars key).
Hypothesis other_no_space : Forall (fun c => is_space c = false) (chars other).
Hypothesis key_not_other : String.prefix (key ++ "=") (other ++ "=") = false.
Hypothesis other_not_key : String.prefix (other ++ "=") (key ++ "=") = false.

Lemma key_line_written (k value : string) :
  Forall (fun c => is_space c = false) (chars k) ->
  Forall (fun c => is_space c = false) (chars value) ->
  str_strip (k ++ "=" ++ value) = k ++ "=" ++ value.
Proof.
  intros Hk Hv. apply str_strip_id. rewrite !chars_app.
  apply Forall_app. split; [exact Hk|].
  apply Forall_app. split; [repeat constructor | exact Hv].
Qed.

Lemma key_line_own (value : string) :
  Forall (fun c => is_space c = false) (chars value) ->
  key_line key (key ++ "=" ++ value) = true.
Proof using key_no_space.
  intro Hv. unfold key_line, startswith.
  rewrite (key_line_written key value key_no_space Hv), <- append_assoc.
  apply prefix_append.
Qed.

Lemma key_line_foreign (value : string) :
  Forall (fun c => is_space c = false) (chars value) ->
  key_line key (other ++ "=" ++ value) = false.
Proof using other_no_space key_not_other other_not_key.
  intro Hv. unfold key_line.
  rewrite (key_line_written other value other_no_space Hv), <- append_assoc.
  apply (startswith_exclusive _ (other ++ "=") (key ++ "=")
           other_not_key key_not_other).
  apply prefix_append.
Qed.

Lemma key_line_exclusive (line : string) :
  key_line other line = true -> key_line key line = false.
Proof using key_not_other other_not_key.
  unfold key_line. apply startswith_exclusive; assumption.
Qed.

(** Writing a key twice is writing it once, with the later value. *)
Lemma set_or_replace_twice (lines : list string) (v v' : string) :
  Forall (fun c => is_space c = false) (chars v) ->
  set_or_replace (set_or_replace lines key v) key v' = set_or_replace lines key v'.
Proof using key_no_space.
  intro Hv. pose proof (key_line_own v Hv) as Hown.
  destruct (find_key key lines) as [i|] eqn:E.
  - destruct (find_key_spec _ _ _ E) as (l0 & Hl0 & Hk0).
    assert (E1 : forall u, set_or_replace lines key u
                           = <[i := (key ++ "=" ++ u)%string]> lines).
    { intro u. unfold set_or_replace. rewrite E. reflexivity. }
    rewrite !E1. unfold set_or_replace.
    rewrite (find_key_insert key lines i l0 _ Hl0) by congruence.
    rewrite E. apply list_insert_insert_eq.
  - assert (E1 : forall u, set_or_replace lines key u
                           = (lines ++ [(key ++ "=" ++ u)%string])%list).
    { intro u. unfold set_or_replace. rewrite E. reflexivity. }
    rewrite !E1. unfold set_or_replace. rewrite find_key_app, E. cbn [find_key].
    rewrite Hown, Nat.add_0_r.
    rewrite insert_app_r_alt by lia. rewrite Nat.sub_diag. reflexivity.
Qed.

(** Once [key] has a line, writing it and writing [other] can be done in
    either order. *)
Lemma set_or_replace_commute (lines : list string) (v v' : string) (i : nat) :
  Forall (fun c => is_space c = false) (chars v) ->
  Forall (fun c => is_space c = false) (chars v') ->
  find_key key lines = Some i ->
  set_or_replace (set_or_replace lines other v') key v =
  set_or_replace (set_or_replace lines key v) other v'.
Proof using key_no_space other_no_space key_not_other other_not_key.
  intros Hv Hv' E.
  destruct (find_key_spec _ _ _ E) as (l0 & Hl0 & Hk0).
  pose proof (key_line_foreign v' Hv') as Hforeign.
  assert (Hother_own : key_line other (key ++ "=" ++ v) = false).
  { unfold key_line.
    rewrite (key_line_written key v key_no_space Hv), <- append_assoc.
    apply (startswith_exclusive _ (key ++ "=") (other ++ "=")
             key_not_other other_not_key).
    apply prefix_append. }
  assert (Hl0_other : key_line other l0 = false).
  { destruct (key_line other l0) eqn:E0; [|reflexivity].
    apply key_line_exclusive in E0. congruence. }
  assert (E1 : set_or_replace lines key v
               = <[i := (key ++ "=" ++ v)%string]> lines).
  { unfold set_or_replace. rewrite E. reflexivity. }
  rewrite E1.
  destruct (find_key other lines) as [j|] eqn:Eo.
  - destruct (find_key_spec _ _ _ Eo) as (l1 & Hl1 & Hk1).
    assert (Hij : i <> j).
    { intros ->. rewrite Hl0 in Hl1. injection Hl1 as ->. congruence. }
    assert (E2 : set_or_replace lines other v'
                 = <[j := (other ++ "=" ++ v')%string]> lines).
    { unfold set_or_replace. rewrite Eo. reflexivity. }
    rewrite E2. unfold set_or_replace.
    rewrite (find_key_insert key lines j l1 _ Hl1)
      by (rewrite Hforeign; symmetry; apply key_line_exclusive, Hk1).
    rewrite (find_key_insert other lines i l0 _ Hl0) by congruence.
    rewrite E, Eo. apply list_insert_insert_ne. congruence.
  - assert (E2 : set_or_replace lines other v'
                 = (lines ++ [(other ++ "=" ++ v')%string])%list).
    { unfold set_or_replace. rewrite Eo. reflexivity. }
    rewrite E2. unfold set_or_replace.
    rewrite find_key_app, E.
    rewrite (find_key_insert other lines i l0 _ Hl0) by congruence.
    rewrite Eo. apply insert_app_l. apply lookup_lt_Some in Hl0. exact Hl0.
Qed.
End OffsetKeys.

Lemma find_key_set_or_replace (key : string) (lines : list string) (v : string) :
  Forall (fun c => is_space c = false) (chars key) ->
  Forall (fun c => is_space c = false) (chars v) ->
  exists i, find_key key (set_or_replace lines key v) = Some i.
Proof.
  intros Hk Hv. pose proof (key_line_own key Hk v Hv) as Hown.
  unfold set_or_replace. destruct (find_key key lines) as [i|] eqn:E.
  - destruct (find_key_spec _ _ _ E) as (l0 & Hl0 & Hk0).
    exists i. rewrite (find_key_insert key lines i l0 _ Hl0) by congruence.
    exact E.
  - exists (length lines + 0)%nat. rewrite find_key_app, E. cbn [find_key].
    rewrite Hown. reflexivity.
Qed.

(** X19. Saving offsets a second time leaves the file exactly as if only
    the second pair had been saved: the last values win, no line is added
    twice, and saving the same pair again changes nothing. *)
Theorem env_lines_after_last_wins (lines : list string) (a b x y : Z) :
  env_lines_after (env_lines_after lines a b) x y = env_lines_after lines x y /\
  env_lines_after (env_lines_after lines x y) x y = env_lines_after lines x y.
Proof.
  assert (H : forall a b x y,
             env_lines_after (env_lines_after lines a b) x y
             = env_lines_after lines x y).
  { clear. intros a b x y. unfold env_lines_after.
    pose proof (str_of_int_not_space a) as Ha.
    pose proof (str_of_int_not_space b) as Hb.
    pose proof (str_of_int_not_space x) as Hx.
    pose proof (str_of_int_not_space y) as Hy.
    destruct (find_key_set_or_replace "HARVEY_X_OFFSET" lines (str_of_int a)
                x_key_no_space Ha) as [i Hi].
    rewrite (set_or_replace_commute "HARVEY_X_OFFSET" "HARVEY_Y_OFFSET"
               x_key_no_space y_key_no_space eq_refl eq_refl _ _ _ i Hx Hb Hi).
    rewrite (set_or_replace_twice "HARVEY_X_OFFSET" x_key_no_space _ _ _ Ha).
    rewrite (set_or_replace_twice "HARVEY_Y_OFFSET" y_key_no_space _ _ _ Hb).
    reflexivity. }
  split; apply H.
Qed.

(** ** Interactive calibration *)

Lemma w_dotenv_log_append (evs : list Event) (w : World) :
  w_dotenv (log_append evs w) = w_dotenv w.
Proof. reflexivity. Qed.

Lemma w_dotenv_pointer_read (w : World) : w_dotenv (pointer_read w) = w_dotenv w.
Proof. reflexivity. Qed.

Lemma get_screen_info_log_append (evs : list Event) (w : World) :
  get_screen_info (log_append evs w) = get_screen_info w.
Proof. reflexivity. Qed.

Lemma get_screen_info_pointer_read (w : World) :
  get_screen_info (pointer_read w) = get_screen_info w.
Proof. reflexivity. Qed.

#[local] Hint Rewrite w_dotenv_log_append w_dotenv_pointer_read
  get_screen_info_log_append get_screen_info_pointer_read : world.

(** What the next run makes of a file written by [_write_env_offsets]. *)
Lemma startup_applies_saved (w : World) (old : list string)
      (shell_environ : gmap string string) (offset_x offset_y x y : Z) :
  w_dotenv w = Some (env_lines_after old offset_x offset_y) ->
  shell_environ !! "HARVEY_X_OFFSET" = None ->
  shell_environ !! "HARVEY_Y_OFFSET" = None ->
  NoDup (bound_keys old) ->
  calibrate_click_position (startup shell_environ w) x y
  = Some (x + offset_x, y + offset_y).
Proof.
  intros Hfile Hex Hey Hnd.
  destruct (env_lines_after_loaded old offset_x offset_y Hnd) as [Hx Hy].
  apply calibrate_with_offsets;
    unfold getenv, startup, load_dotenv; cbn [w_environ w_dotenv]; rewrite Hfile.
  - rewrite (lookup_union_r _ _ _ Hex), Hx. reflexivity.
  - rewrite (lookup_union_r _ _ _ Hey), Hy. reflexivity.
Qed.

Lemma calibrate_interactive_run (w : World) (resp enter confirm : string)
      (rest : list string) (expected : Z * Z) :
  w_quartz w = true ->
  _transform_coords w (Finite 0.5) (Finite 0.5) = Some expected ->
  String.eqb (str_lower (str_strip resp)) "y" = false ->
  String.eqb (str_lower (str_strip confirm)) "y" = true ->
  exists w',
    calibrate_interactive (resp :: enter :: confirm :: rest) w = (Ok tt, w') /\
    w_dotenv w' =
    Some (env_lines_after
            match w_dotenv w with Some l => l | None => [] end
            (fst (w_pointer w (S (w_pointer_reads w))) - fst expected)
            (snd (w_pointer w (S (w_pointer_reads w))) - snd expected)) /\
    get_screen_info w' = get_screen_info w.
Proof.
  intros Hq Hxy Hresp Hconfirm.
  unfold calibrate_interactive. unfold bind at 1, asks at 1. rewrite Hq.
  cbn [negb]. unfold bind at 1, reading at 1. rewrite Hxy.
  unfold bind at 1. rewrite (get_position_run w Hq).
  unfold bind at 1.
  rewrite smooth_move_mouse_run by (autorewrite with world; exact Hq).
  set (w1 := log_append _ (pointer_read w)).
  assert (Hq1 : w_quartz w1 = true) by (unfold w1; autorewrite with world; exact Hq).
  assert (Hp1 : w_pointer w1 (w_pointer_reads w1)
                = w_pointer w (S (w_pointer_reads w)))
    by (unfold w1; autorewrite with world; reflexivity).
  assert (Hd1 : w_dotenv w1 = w_dotenv w)
    by (unfold w1; autorewrite with world; reflexivity).
  assert (Hs1 : get_screen_info w1 = get_screen_info w)
    by (unfold w1; autorewrite with world; reflexivity).
  clearbody w1.
  unfold bind at 1, input at 1, ret at 1. cbv beta iota. rewrite Hresp.
  unfold bind at 1, input at 1, ret at 1. cbv beta iota.
  unfold bind at 1. rewrite (get_position_run w1 Hq1), Hp1.
  set (final := w_pointer w (S (w_pointer_reads w))).
  unfold bind at 1.
  rewrite get_position_run by (autorewrite with world; exact Hq1).
  unfold bind at 1.
  rewrite smooth_move_mouse_run by (autorewrite with world; exact Hq1).
  set (w2 := log_append _ (pointer_read (pointer_read w1))).
  assert (Hd2 : w_dotenv w2 = w_dotenv w)
    by (unfold w2; autorewrite with world; exact Hd1).
  assert (Hs2 : get_screen_info w2 = get_screen_info w)
    by (unfold w2; autorewrite with world; exact Hs1).
  clearbody w2.
  unfold bind at 1, input at 1, ret at 1. cbv beta iota. rewrite Hconfirm.
  unfold bind, _write_env_offsets, ret. eexists. split; [reflexivity|].
  cbn [w_dotenv]. rewrite Hd2. split; [reflexivity|].
  rewrite <- Hs2. reflexivity.
Qed.



(** *** Frames *)

Lemma frame_ret (R : World -> World -> Prop) {A} (a : A) :
  (forall w, R w w) -> frame R (ret a).
Proof. intros Hrefl w. apply Hrefl. Qed.

Lemma frame_raise (R : World -> World -> Prop) {A} (e : exn) :
  (forall w, R w w) -> frame R (@raise A e).
Proof. intros Hrefl w. apply Hrefl. Qed.

Lemma frame_asks (R : World -> World -> Prop) {A} (f : World -> A) :
  (forall w, R w w) -> frame R (asks f).
Proof. intros Hrefl w. apply Hrefl. Qed.

Lemma frame_reading (R : World -> World -> Prop) {A} (f : World -> option A) :
  (forall w, R w w) -> frame R (reading f).
Proof. intros Hrefl w. unfold reading. destruct (f w); apply Hrefl. Qed.

Lemma frame_input (R : World -> World -> Prop) (stdin : list string) :
  (forall w, R w w) -> frame R (input stdin).
Proof. intros Hrefl w. destruct stdin; apply Hrefl. Qed.

Lemma frame_bind (R : World -> World -> Prop) {A B} (m : M A) (k : A -> M B) :
  (forall a b c, R a b -> R b c -> R a c) ->
  frame R m -> (forall a, frame R (k a)) -> frame R (bind m k).
Proof.
  intros Htrans Hm Hk w. unfold bind. specialize (Hm w).
  destruct (m w) as [[a|e] w1]; cbn [snd] in *.
  - exact (Htrans _ _ _ Hm (Hk a w1)).
  - exact Hm.
Qed.

Lemma frame_try_catch (R : World -> World -> Prop) {A}
      (body : M A) (handler : exn -> M A) :
  (forall a b c, R a b -> R b c -> R a c) ->
  frame R body -> (forall e, frame R (handler e)) -> frame R (try_catch body handler).
Proof.
  intros Htrans Hm Hk w. unfold try_catch. specialize (Hm w).
  destruct (body w) as [[a|e] w1]; cbn [snd] in *.
  - exact Hm.
  - exact (Htrans _ _ _ Hm (Hk e w1)).
Qed.

Lemma frame_for_each (R : World -> World -> Prop) {A}
      (xs : list A) (body : A -> M unit) :
  (forall w, R w w) -> (forall a b c, R a b -> R b c -> R a c) ->
  (forall x, frame R (body x)) -> frame R (for_each xs body).
Proof.
  intros Hrefl Htrans Hbody. induction xs as [|x xs IH]; cbn [for_each].
  - apply frame_ret, Hrefl.
  - apply frame_bind; [exact Htrans | apply Hbody | intros _; exact IH].
Qed.

Lemma frame_bind_ret (R : World -> World -> Prop) {A B} (a : A) (k : A -> M B) :
  frame R (k a) -> frame R (bind (ret a) k).
Proof. intros H w. apply H. Qed.

Lemma frame_bind_raise (R : World -> World -> Prop) {A B} (e : exn) (k : A -> M B) :
  (forall w, R w w) -> frame R (bind (raise e) k).
Proof. intros Hrefl w. apply Hrefl. Qed.

Lemma offline_step_refl (allowed : Event -> bool) (w : World) :
  offline_step allowed w w.
Proof.
  split; [|split; reflexivity]. exists []. rewrite app_nil_r. split; reflexivity.
Qed.

Lemma offline_step_trans (allowed : Event -> bool) (a b c : World) :
  offline_step allowed a b -> offline_step allowed b c -> offline_step allowed a c.
Proof.
  intros ((e1 & Hl1 & He1) & Hc1 & Hg1) ((e2 & Hl2 & He2) & Hc2 & Hg2).
  split; [|split; congruence].
  exists (e1 ++ e2)%list. rewrite Hl2, Hl1, <- app_assoc, forallb_app, He1, He2.
  split; reflexivity.
Qed.

Lemma offline_step_emit (allowed : Event -> bool) (e : Event) :
  allowed e = true -> frame (offline_step allowed) (emit e).
Proof.
  intros He w. split; [|split; reflexivity].
  exists [e]. cbn. rewrite He. split; reflexivity.
Qed.

Lemma same_dotenv_refl (excuse : Prop) (w : World) : same_dotenv_unless excuse w w.
Proof. left. reflexivity. Qed.

Lemma same_dotenv_trans (excuse : Prop) (a b c : World) :
  same_dotenv_unless excuse a b -> same_dotenv_unless excuse b c ->
  same_dotenv_unless excuse a c.
Proof. intros [H1|H1] [H2|H2]; first [right; assumption | left; congruence]. Qed.

Lemma same_dotenv_emit (excuse : Prop) (e : Event) :
  frame (same_dotenv_unless excuse) (emit e).
Proof. intro w. left. reflexivity. Qed.

Create HintDb frame.

#[local] Hint Resolve offline_step_refl offline_step_trans same_dotenv_refl
  same_dotenv_trans same_dotenv_emit : frame.
#[local] Hint Extern 1 (frame (offline_step _) (emit _)) =>
  apply offline_step_emit; reflexivity : frame.
#[local] Hint Extern 1 (frame (offline_step _) (sleep _)) =>
  apply offline_step_emit; reflexivity : frame.
#[local] Hint Extern 1 (frame (same_dotenv_unless _) (sleep _)) =>
  apply same_dotenv_emit : frame.

(** Takes a computation apart along its binds, handlers, loops and case
    distinctions; the leaves are closed with the hints of [frame]. *)
Ltac frame_step :=
  match goal with
  | |- frame _ (bind _ _) => apply frame_bind; [solve [eauto with frame] | |intro]
  | |- frame _ (try_catch _ _) =>
      apply frame_try_catch; [solve [eauto with frame] | |intro]
  | |- frame _ (for_each _ _) =>
      apply frame_for_each;
      [solve [eauto with frame] | solve [eauto with frame] | intro]
  | |- frame _ (ret _) => apply frame_ret; solve [eauto with frame]
  | |- frame _ (raise _) => apply frame_raise; solve [eauto with frame]
  | |- frame _ (asks _) => apply frame_asks; solve [eauto with frame]
  | |- frame _ (os_getenv _) => apply frame_asks; solve [eauto with frame]
  | |- frame _ (reading _) => apply frame_reading; solve [eauto with frame]
  | |- frame _ (input _) => apply frame_input; solve [eauto with frame]
  | |- frame _ (if ?b then _ else _) => destruct b
  | |- frame _ (match ?x with _ => _ end) => destruct x
  | |- frame _ (let '(_, _) := ?x in _) => destruct x
  | |- frame _ _ => solve [eauto with frame]
  end.

Ltac frame_all := repeat frame_step.

Lemma offline_get_position (allowed : Event -> bool) :
  allowed GetLocation = true ->
  frame (offline_step allowed) get_current_mouse_position.
Proof.
  intros Ha w. unfold get_current_mouse_position. destruct (w_quartz w).
  - split; [|split; reflexivity]. exists [GetLocation]. cbn. rewrite Ha.
    split; reflexivity.
  - apply offline_step_refl.
Qed.

Lemma offline_smooth_move (allowed : Event -> bool) (sx sy ex ey : Z) :
  (forall x y, allowed (MouseMoved x y) = true) ->
  (forall s, allowed (Sleep s) = true) ->
  frame (offline_step allowed) (smooth_move_mouse sx sy ex ey).
Proof.
  intros Hm Hs. unfold smooth_move_mouse. frame_all.
  - apply offline_step_emit, Hm.
  - apply offline_step_emit, Hs.
Qed.

Lemma same_dotenv_get_position (excuse : Prop) :
  frame (same_dotenv_unless excuse) get_current_mouse_position.
Proof.
  intro w. left. unfold get_current_mouse_position.
  destruct (w_quartz w); reflexivity.
Qed.

Lemma same_dotenv_smooth_move (excuse : Prop) (sx sy ex ey : Z) :
  frame (same_dotenv_unless excuse) (smooth_move_mouse sx sy ex ey).
Proof. unfold smooth_move_mouse. frame_all. Qed.

Lemma offline_write_env_offsets (allowed : Event -> bool) (offset_x offset_y : Z) :
  frame (offline_step allowed) (_write_env_offsets offset_x offset_y).
Proof.
  intro w. split; [|split; reflexivity]. exists []. cbn. rewrite app_nil_r.
  split; reflexivity.
Qed.

#[local] Hint Resolve offline_write_env_offsets same_dotenv_get_position
  same_dotenv_smooth_move : frame.
#[local] Hint Extern 1 (frame (offline_step _) get_current_mouse_position) =>
  apply offline_get_position; reflexivity : frame.
#[local] Hint Extern 1 (frame (offline_step _) (smooth_move_mouse _ _ _ _)) =>
  apply offline_smooth_move; intros; reflexivity : frame.

Lemma offline_calibrate_interactive (stdin : list string) :
  frame (offline_step is_motion_event) (calibrate_interactive stdin).
Proof. unfold calibrate_interactive. frame_all. Qed.

(** X21. Whatever is typed at its prompts, and whether it returns or stops
    at the end of the input, [calibrate_interactive] posts nothing but
    location queries, pointer moves and pauses, captures no screen and
    makes no reasoning call.  It leaves [.env] as it was unless Quartz is
    available, the first answer is not [y] and the third answer is [y]
    (answers are compared after stripping and lower-casing). *)
Theorem calibrate_interactive_harmless (stdin : list string) (w : World) :
  forallb is_motion_event (emitted (calibrate_interactive stdin) w) = true /\
  w_captures (snd (calibrate_interactive stdin w)) = w_captures w /\
  w_gemini_calls (snd (calibrate_interactive stdin w)) = w_gemini_calls w /\
  (w_dotenv (snd (calibrate_interactive stdin w)) <> w_dotenv w ->
   w_quartz w = true /\
   exists resp enter confirm rest,
     stdin = resp :: enter :: confirm :: rest /\
     str_lower (str_strip resp) <> "y" /\
     str_lower (str_strip confirm) = "y").
Proof.
  destruct (offline_calibrate_interactive stdin w) as ((evs & Hlog & Hevs) & Hc & Hg).
  split; [rewrite (emitted_app _ _ _ Hlog); exact Hevs|].
  split; [exact Hc|]. split; [exact Hg|].
  set (excuse := w_quartz w = true /\
                 exists resp enter confirm rest,
                   stdin = resp :: enter :: confirm :: rest /\
                   str_lower (str_strip resp) <> "y" /\
                   str_lower (str_strip confirm) = "y").
  assert (H : same_dotenv_unless excuse w (snd (calibrate_interactive stdin w))).
  { unfold calibrate_interactive, bind at 1, asks at 1.
    destruct (w_quartz w) eqn:Hq; cbn [negb]; [|left; reflexivity].
    assert (Hframe : forall A (m : M A),
               frame (same_dotenv_unless excuse) m ->
               same_dotenv_unless excuse w (snd (m w))) by (intros A m Hm; apply Hm).
    apply Hframe.
    apply frame_bind; [eauto with frame | frame_all | intro expected].
    apply frame_bind; [eauto with frame | frame_all | intro cur].
    apply frame_bind; [eauto with frame | frame_all | intros _].
    destruct stdin as [|resp stdin]; [apply frame_bind_raise; eauto with frame|].
    apply frame_bind_ret.
    destruct (String.eqb (str_lower (str_strip resp)) "y") eqn:Hresp; [frame_all|].
    destruct stdin as [|enter stdin]; [apply frame_bind_raise; eauto with frame|].
    apply frame_bind_ret.
    apply frame_bind; [eauto with frame | frame_all | intro final].
    apply frame_bind; [eauto with frame | frame_all | intro cur'].
    apply frame_bind; [eauto with frame | frame_all | intros _].
    destruct stdin as [|confirm stdin]; [apply frame_bind_raise; eauto with frame|].
    apply frame_bind_ret.
    destruct (String.eqb (str_lower (str_strip confirm)) "y") eqn:Hconfirm;
      [|frame_all].
    intro w0. right. split; [reflexivity|].
    exists resp, enter, confirm, stdin. split; [reflexivity|].
    split; [apply String.eqb_neq, Hresp | apply String.eqb_eq, Hconfirm]. }
  destruct H as [H|H]; [intro Hne; contradiction | intros _; exact H].
Qed.

(** ** API keys and program start *)

Lemma load_dotenv_idempotent (w : World) : load_dotenv (load_dotenv w) = load_dotenv w.
Proof.
  unfold load_dotenv. cbn [w_environ w_dotenv w_quartz w_bounds w_mode w_pointer
    w_pointer_reads w_frontmost w_frontmost_reads w_gemini w_gemini_calls
    w_screencapture w_captures w_log].
  f_equal. rewrite <- (assoc_L (∪)), (idemp_L (∪)). reflexivity.
Qed.

Lemma get_gemini_client_run (api_manager : option APIKeyManager) (w : World) :
  get_gemini_client api_manager w =
  (match first_set [match api_manager with
                    | Some manager => get_available_key manager
                    | None => None
                    end;
                    w_environ (load_dotenv w) !! "GOOGLE_API_KEY";
                    w_environ (load_dotenv w) !! "GEMINI_API_KEY"] with
   | Some key => Ok key
   | None => Raise (PyError "GEMINI_API_KEY not found in environment variables")
   end,
   load_dotenv w).
Proof.
  unfold get_gemini_client, bind at 1, load_dotenv_call.
  set (w1 := load_dotenv w). clearbody w1.
  unfold try_catch, client_with, first_set, os_getenv, bind, asks, py_or, ret, raise.
  destruct (match api_manager with
            | Some manager => get_available_key manager
            | None => None
            end) as [k|]; cbn [List.filter is_set];
    [destruct (truthy k) eqn:Hk; [reflexivity|]|];
    (destruct (w_environ w1 !! "GOOGLE_API_KEY") as [g|] eqn:Eg;
     cbn [List.filter is_set];
     [destruct (truthy g) eqn:Hg|];
     (destruct (w_environ w1 !! "GEMINI_API_KEY") as [ge|] eqn:Ege;
      cbn [List.filter is_set];
      [destruct (truthy ge) eqn:Hge|]));
    repeat (cbv beta iota; rewrite ?Eg, ?Ege, ?Hg, ?Hge, ?Hk); reflexivity.
Qed.

(** X22. [get_gemini_client] loads [.env] and then creates the client
    with the first of these that is set and not empty: the key the manager
    found when it was imported, [GOOGLE_API_KEY], [GEMINI_API_KEY].  It
    raises exactly when none of the three is, and in no other case. *)
Theorem get_gemini_client_key (api_manager : option APIKeyManager) (w : World) :
  let environ := w_environ (load_dotenv w) in
  let candidates :=
    [match api_manager with
     | Some manager => get_available_key manager
     | None => None
     end;
     environ !! "GOOGLE_API_KEY"; environ !! "GEMINI_API_KEY"] in
  snd (get_gemini_client api_manager w) = load_dotenv w /\
  (forall key, fst (get_gemini_client api_manager w) = Ok key <->
               first_set candidates = Some key) /\
  ((exists e, fst (get_gemini_client api_manager w) = Raise e) <->
   forallb (fun c => negb (is_set c)) candidates = true).
Proof.
  cbv zeta. rewrite get_gemini_client_run. cbn [fst snd].
  split; [reflexivity|].
  set (km := match api_manager with
             | Some manager => get_available_key manager
             | None => None
             end).
  set (g := w_environ (load_dotenv w) !! "GOOGLE_API_KEY").
  set (ge := w_environ (load_dotenv w) !! "GEMINI_API_KEY").
  unfold first_set. cbn [List.filter forallb].
  destruct (is_set km) eqn:Hm; [|destruct (is_set g) eqn:Hg; [|destruct (is_set ge) eqn:Hge]];
    cbn [negb andb].
  - destruct km as [k|]; [|discriminate Hm].
    split; [split; congruence|]. split; [intros [e H]; discriminate H | discriminate].
  - destruct g as [k|]; [|discriminate Hg].
    split; [split; congruence|]. split; [intros [e H]; discriminate H | discriminate].
  - destruct ge as [k|]; [|discriminate Hge].
    split; [split; congruence|]. split; [intros [e H]; discriminate H | discriminate].
  - split; [split; discriminate|]. split; [reflexivity | intros _; eexists; reflexivity].
Qed.

Lemma run_total (task : string) (w : World) :
  exists tr w', run task w = (Ok tr, w').
Proof.
  destruct (run_steps_trace task 20 0 eq_refl w) as (tr & w' & H & _).
  exists tr, w'. exact H.
Qed.



(** X24. Started with [calibrate] or [--calibrate] as its first argument
    (surrounding whitespace aside), the script loads [.env] and runs the
    interactive calibration, whether or not an API key is configured: it
    never exits with status 1, captures no screen, makes no reasoning call
    and posts nothing but location queries, pointer moves and pauses. *)
Theorem script_calibrate_mode (prog arg1 : string) (more stdin : list string)
        (w : World) :
  str_in (str_strip arg1) ["--calibrate"; "calibrate"] = true ->
  harvey_script (prog :: arg1 :: more) stdin w =
  (match fst (calibrate_interactive stdin (load_dotenv w)) with
   | Ok _ => Ok Return
   | Raise e => Raise e
   end,
   snd (calibrate_interactive stdin (load_dotenv w))) /\
  w_captures (snd (harvey_script (prog :: arg1 :: more) stdin w)) = w_captures w /\
  w_gemini_calls (snd (harvey_script (prog :: arg1 :: more) stdin w))
  = w_gemini_calls w /\
  forallb is_motion_event (emitted (harvey_script (prog :: arg1 :: more) stdin) w)
  = true.
Proof.
  intro Hmode.
  assert (Hrun : harvey_script (prog :: arg1 :: more) stdin w =
                 (match fst (calibrate_interactive stdin (load_dotenv w)) with
                  | Ok _ => Ok Return
                  | Raise e => Raise e
                  end,
                  snd (calibrate_interactive stdin (load_dotenv w)))).
  { unfold harvey_script, main, bind at 1, load_dotenv_call. rewrite Hmode.
    unfold bind.
    destruct (calibrate_interactive stdin (load_dotenv w)) as [[[]|e] w']; reflexivity. }
  split; [exact Hrun|].
  destruct (offline_calibrate_interactive stdin (load_dotenv w))
    as ((evs & Hlog & Hevs) & Hc & Hg).
  rewrite Hrun. cbn [snd]. split; [exact Hc|]. split; [exact Hg|].
  rewrite (emitted_app _ w evs); [exact Hevs|]. rewrite Hrun. exact Hlog.
Qed.

Lemma script_calibrate_mode_witness :
  harvey_script ["harvey.py"; " calibrate"] ["y"] keyless_world =
  (match fst (calibrate_interactive ["y"] (load_dotenv keyless_world)) with
   | Ok _ => Ok Return
   | Raise e => Raise e
   end,
   snd (calibrate_interactive ["y"] (load_dotenv keyless_world))) /\
  w_captures (snd (harvey_script ["harvey.py"; " calibrate"] ["y"] keyless_world))
  = w_captures keyless_world /\
  w_gemini_calls (snd (harvey_script ["harvey.py"; " calibrate"] ["y"] keyless_world))
  = w_gemini_calls keyless_world /\
  forallb is_motion_event
          (emitted (harvey_script ["harvey.py"; " calibrate"] ["y"]) keyless_world)
  = true.
Proof.
  apply (script_calibrate_mode "harvey.py" " calibrate" [] ["y"] keyless_world).
  reflexivity.
Defined.

(** ** Mouse trail *)

Lemma Qlt_bool_comp (a b c : Q) : (b == c)%Q -> Qlt_bool a b = Qlt_bool a c.
Proof.
  intro H. destruct (Qlt_bool a c) eqn:E.
  - apply Qlt_bool_iff. apply Qlt_bool_iff in E. rewrite H. exact E.
  - apply Qlt_bool_false. apply Qlt_bool_false in E. rewrite H. exact E.
Qed.

(** A point stays in the trail while it has been faded at most ten
    times. *)
Lemma aged_filter (k : nat) (l : list TrailPoint) :
  aged k l -> (k + length l <= 12)%nat ->
  List.filter (fun p => Qlt_bool 0.1 (tp_opacity p)) l = take (11 - k) l.
Proof.
  revert k. induction l as [|p l IH]; intros k Hag Hlen.
  - rewrite take_nil. reflexivity.
  - cbn [aged length] in Hag, Hlen. destruct Hag as [Hp Hag].
    cbn [List.filter]. rewrite (Qlt_bool_comp _ _ _ Hp).
    assert (Hk : (k <= 11)%nat) by lia.
    do 11 (destruct k as [|k];
           [change (Qlt_bool 0.1 (_TRAIL_FADE_SPEED ^ Z.of_nat _)) with true;
            cbv iota; rewrite (IH _ Hag) by lia; reflexivity|]).
    destruct k as [|k]; [|lia].
    change (Qlt_bool 0.1 (_TRAIL_FADE_SPEED ^ Z.of_nat 11)) with false.
    cbv iota. destruct l; [reflexivity | cbn [length] in Hlen; lia].
Qed.

Lemma aged_take (n k : nat) (l : list TrailPoint) : aged k l -> aged k (take n l).
Proof.
  revert n k. induction l as [|p l IH]; intros n k H.
  - rewrite take_nil. exact I.
  - destruct n as [|n]; [exact I|]. destruct H as [Hp H].
    split; [exact Hp | apply IH, H].
Qed.

Lemma aged_fade (k : nat) (l : list TrailPoint) : aged k l -> aged (S k) (map fade l).
Proof.
  revert k. induction l as [|p l IH]; intros k H; [exact I|].
  destruct H as [Hp H]. split; [|apply IH, H].
  cbn [fade tp_opacity]. rewrite Hp.
  replace (Z.of_nat (S k)) with (Z.of_nat k + 1) by lia.
  rewrite Qpower_plus by discriminate. reflexivity.
Qed.

Lemma aged_lookup (k i : nat) (l : list TrailPoint) (p : TrailPoint) :
  aged k l -> l !! i = Some p ->
  (tp_opacity p == _TRAIL_FADE_SPEED ^ Z.of_nat (k + i))%Q.
Proof.
  revert k i. induction l as [|q l IH]; intros k i H Hi; [discriminate|].
  destruct H as [Hq H]. destruct i as [|i].
  - cbn in Hi. injection Hi as <-. rewrite Nat.add_0_r. exact Hq.
  - cbn in Hi. replace (k + S i)%nat with (S k + i)%nat by lia.
    exact (IH _ _ H Hi).
Qed.

(** One call of [_add_trail_point] on a trail whose points have the ages
    0, 1, 2, ... from the newest backwards, and that holds at most twelve
    of them. *)
Lemma add_trail_point_aged (trail : list TrailPoint) (x y : Z) :
  aged 0 (rev trail) -> (length trail <= 12)%nat ->
  rev (_add_trail_point true true trail x y)
  = mkTrailPoint x y 1 8 :: map fade (take 11 (rev trail)).
Proof.
  intros Hag Hlen. unfold _add_trail_point. cbn [negb orb]. cbv zeta.
  rewrite List.filter_app. cbn [List.filter tp_opacity].
  change (Qlt_bool 0.1 1) with true. cbv iota.
  assert (Hf : List.filter (fun p => Qlt_bool 0.1 (tp_opacity p)) trail
               = rev (take 11 (rev trail))).
  { rewrite <- (rev_involutive trail) at 1. rewrite List.filter_rev.
    rewrite (aged_filter 0 (rev trail) Hag) by (rewrite length_rev; lia).
    reflexivity. }
  rewrite Hf. set (s := rev (take 11 (rev trail))).
  assert (Hs : (length s <= 11)%nat).
  { unfold s. rewrite length_rev, length_take. lia. }
  rewrite length_app. cbn [length].
  assert (Hcap : (_MAX_TRAIL_POINTS <? length s + 1)%nat = false).
  { apply Nat.ltb_ge. unfold _MAX_TRAIL_POINTS. lia. }
  rewrite Hcap. rewrite length_app. cbn [length].
  replace (length s + 1 - 1)%nat with (length s) by lia.
  rewrite take_app_length, drop_app_length.
  rewrite rev_app_distr. cbn [rev app]. rewrite <- map_rev.
  unfold s. rewrite rev_involutive. reflexivity.
Qed.

Lemma trail_after_aged (points : list (Z * Z)) (trail : list TrailPoint) :
  aged 0 (rev trail) -> (length trail <= 12)%nat ->
  aged 0 (rev (trail_after true true trail points)) /\
  (length (trail_after true true trail points) <= 12)%nat.
Proof.
  revert trail. induction points as [|[x y] points IH]; intros trail Hag Hlen.
  - split; assumption.
  - unfold trail_after. cbn [fold_left fst snd].
    pose proof (add_trail_point_aged trail x y Hag Hlen) as Hstep.
    apply IH.
    + rewrite Hstep. split; [reflexivity|]. apply aged_fade, aged_take, Hag.
    + rewrite <- length_rev, Hstep. cbn [length].
      rewrite length_map, length_take. lia.
Qed.

(** X25. Starting from an empty trail (as at start-up and after
    [clear_mouse_trail]), however many points are added the trail never
    holds more than twelve of them, so the cap of fifteen never takes
    effect; the point added [i] calls ago, if still there, has opacity
    [0.8 ^ i].  With the trail disabled or Quartz missing the trail stays
    empty. *)
Theorem trail_stays_short (enabled quartz : bool) (points : list (Z * Z)) :
  let trail := trail_after enabled quartz (clear_mouse_trail []) points in
  (length trail <= 12)%nat /\
  (length trail < _MAX_TRAIL_POINTS)%nat /\
  (forall i p, rev trail !! i = Some p ->
               (tp_opacity p == _TRAIL_FADE_SPEED ^ Z.of_nat i)%Q) /\
  (enabled && quartz = false -> trail = []).
Proof.
  cbv zeta. unfold clear_mouse_trail.
  destruct (enabled && quartz) eqn:E.
  - apply andb_true_iff in E. destruct E as [-> ->].
    destruct (trail_after_aged points [] I ltac:(cbn; lia)) as [Hag Hlen].
    split; [exact Hlen|]. split; [unfold _MAX_TRAIL_POINTS; lia|].
    split; [|discriminate]. intros i p Hi.
    exact (aged_lookup 0 i _ p Hag Hi).
  - assert (Hoff : trail_after enabled quartz [] points = []).
    { unfold trail_after. induction points as [|pt points IH]; [reflexivity|].
      cbn [fold_left]. unfold _add_trail_point at 2.
      replace (negb enabled || negb quartz) with true
        by (destruct enabled, quartz; first [reflexivity | discriminate E]).
      exact IH. }
    rewrite Hoff. split; [cbn; lia|]. split; [cbn; unfold _MAX_TRAIL_POINTS; lia|].
    split; [intros i p Hi; discriminate Hi | reflexivity].
Qed.

(** ** Screenshot grid *)

(** X26. On an image of any size the overlay of grid size 20 draws 42
    grid lines, all within the image.  Every label is placed two pixels
    right of and below a grid node; the position that its printed ratios
    denote in the image lies at that node or up to 19 pixels further right
    and down, and exactly at the node when the image size is a multiple of
    20 on that axis. *)
Theorem grid_overlay_geometry (width height : Z) :
  0 <= width -> 0 <= height ->
  exists ops : list DrawOp,
    add_grid_overlay width height 20 = Some ops /\
    length (List.filter is_grid_line ops) = 42%nat /\
    Forall (fun op =>
              match op with
              | DrawLine x0 y0 x1 y1 _ _ =>
                  is_grid_line op = true ->
                  0 <= x0 <= x1 /\ x1 <= width /\ 0 <= y0 <= y1 /\ y1 <= height
              | DrawLabel x y ratio_x ratio_y =>
                  (inject_Z (x - 2) <= ratio_x * inject_Z width)%Q /\
                  (ratio_x * inject_Z width <= inject_Z (x - 2) + 19)%Q /\
                  (inject_Z (y - 2) <= ratio_y * inject_Z height)%Q /\
                  (ratio_y * inject_Z height <= inject_Z (y - 2) + 19)%Q /\
                  (width mod 20 = 0 ->
                   (ratio_x * inject_Z width == inject_Z (x - 2))%Q) /\
                  (height mod 20 = 0 ->
                   (ratio_y * inject_Z height == inject_Z (y - 2))%Q)
              | DrawLabelBackground _ _ _ _ => True
              end) ops.
Proof.
  intros Hw Hh. unfold add_grid_overlay. change (Z.eqb 20 0) with false.
  cbv iota zeta. eexists. split; [reflexivity|].
  split; [vm_compute; reflexivity|].
  change (range (20 + 1))
    with [0; 1; 2; 3; 4; 5; 6; 7; 8; 9; 10; 11; 12; 13; 14; 15; 16; 17; 18; 19; 20].
  change (range_step 0 (20 + 1) 5) with [0; 5; 10; 15; 20].
  change (range_step 1 20 2) with [1; 3; 5; 7; 9; 11; 13; 15; 17; 19].
  cbn [flat_map app].
  repeat match goal with
         | |- context [round2 ?q] =>
             let r := eval vm_compute in (round2 q) in change (round2 q) with r
         end.
  pose proof (Z.div_mod width 20 ltac:(lia)) as Hdw.
  pose proof (Z.mod_pos_bound width 20 ltac:(lia)) as Hrw.
  pose proof (Z.div_mod height 20 ltac:(lia)) as Hdh.
  pose proof (Z.mod_pos_bound height 20 ltac:(lia)) as Hrh.
  set (gw := width / 20) in *. set (rw := width mod 20) in *.
  set (gh := height / 20) in *. set (rh := height mod 20) in *.
  clearbody gw rw gh rh.
  repeat (apply List.Forall_cons;
          [ cbv beta iota;
            first
              [ exact I
              | intro Hline;
                first [ vm_compute in Hline; discriminate Hline | lia ]
              | unfold Qle, Qeq, Qmult, Qplus, inject_Z; cbn [Qnum Qden]; lia ]
          | ]).
  apply List.Forall_nil.
Qed.

Lemma grid_overlay_geometry_witness :
  0 <= 1366 /\ 0 <= 768 /\
  exists ops : list DrawOp,
    add_grid_overlay 1366 768 20 = Some ops /\
    length (List.filter is_grid_line ops) = 42%nat /\
    In (DrawLabel (5 * 68 + 2) (10 * 38 + 2) (25 # 100) (50 # 100)) ops.
Proof.
  split; [lia|]. split; [lia|].
  destruct (grid_overlay_geometry 1366 768 ltac:(lia) ltac:(lia))
    as (ops & Hops & Hcount & _).
  exists ops. split; [exact Hops|]. split; [exact Hcount|].
  vm_compute in Hops. injection Hops as <-.
  vm_compute. tauto.
Defined.


(** ** The voice assistant and its bridges *)

Lemma vframe_ret (R : Studio -> Studio -> Prop) {A} (a : A) :
  (forall s, R s s) -> vframe R (vret a).
Proof. intros Hrefl s. apply Hrefl. Qed.

Lemma vframe_raise (R : Studio -> Studio -> Prop) {A} (e : VExn) :
  (forall s, R s s) -> vframe R (@vraise A e).
Proof. intros Hrefl s. apply Hrefl. Qed.

Lemma vframe_bind (R : Studio -> Studio -> Prop) {A B} (m : VM A) (k : A -> VM B) :
  (forall a b c, R a b -> R b c -> R a c) ->
  vframe R m -> (forall a, vframe R (k a)) -> vframe R (vbind m k).
Proof.
  intros Htrans Hm Hk s. unfold vbind. specialize (Hm s).
  destruct (m s) as [[a|e] s1]; cbn [snd] in *.
  - exact (Htrans _ _ _ Hm (Hk a s1)).
  - exact Hm.
Qed.

Lemma vframe_except_exception (R : Studio -> Studio -> Prop) {A}
      (body : VM A) (handler : string -> VM A) :
  (forall a b c, R a b -> R b c -> R a c) ->
  vframe R body -> (forall e, vframe R (handler e)) ->
  vframe R (except_exception body handler).
Proof.
  intros Htrans Hm Hk s. unfold except_exception. specialize (Hm s).
  destruct (body s) as [[a|[msg|]] s1]; cbn [snd] in *; try exact Hm.
  exact (Htrans _ _ _ Hm (Hk msg s1)).
Qed.

Lemma vframe_except_interrupt (R : Studio -> Studio -> Prop) {A}
      (body handler : VM A) :
  (forall a b c, R a b -> R b c -> R a c) ->
  vframe R body -> vframe R handler -> vframe R (except_interrupt body handler).
Proof.
  intros Htrans Hm Hk s. unfold except_interrupt. specialize (Hm s).
  destruct (body s) as [[a|[msg|]] s1]; cbn [snd] in *; try exact Hm.
  exact (Htrans _ _ _ Hm (Hk s1)).
Qed.

Lemma vframe_try_finally (R : Studio -> Studio -> Prop) {A}
      (body : VM A) (final : VM unit) :
  (forall a b c, R a b -> R b c -> R a c) ->
  vframe R body -> vframe R final -> vframe R (try_finally body final).
Proof.
  intros Htrans Hm Hk s. unfold try_finally. specialize (Hm s).
  destruct (body s) as [outcome s1]. specialize (Hk s1). cbn [snd] in *.
  destruct (final s1) as [[a|e] s2]; cbn [snd] in *;
    exact (Htrans _ _ _ Hm Hk).
Qed.

Lemma keeps_plain_refl (s : Studio) : keeps_plain s s.
Proof. intro H. exact H. Qed.

Lemma keeps_plain_trans (a b c : Studio) :
  keeps_plain a b -> keeps_plain b c -> keeps_plain a c.
Proof. intros H1 H2 H. apply H2, H1, H. Qed.

Lemma keeps_plain_request (r : Request) : vframe keeps_plain (request r).
Proof.
  intros s H. unfold request.
  destruct (s_answers s (length (s_requests s))); exact H.
Qed.

Lemma keeps_plain_now : vframe keeps_plain now.
Proof. intros s H. exact H. Qed.

Lemma keeps_plain_get_transcript : vframe keeps_plain get_transcript.
Proof. intros s H. exact H. Qed.

Lemma keeps_plain_get_result : vframe keeps_plain get_result.
Proof. intros s H. exact H. Qed.

Lemma keeps_plain_set_transcript (transcript : list Entry) :
  vframe keeps_plain (set_transcript transcript).
Proof. intros s H. exact H. Qed.

Lemma keeps_plain_update_result (f : VoiceResult -> VoiceResult) :
  (forall r, plain_result r -> plain_result (f r)) ->
  vframe keeps_plain (update_result f).
Proof. intros Hf s H. apply Hf, H. Qed.

Lemma keeps_plain_set_error (error_str : string) :
  vframe keeps_plain (set_error error_str).
Proof.
  apply keeps_plain_update_result. intros r [Hitems _].
  split; [exact Hitems | right; reflexivity].
Qed.

Create HintDb vframe.

#[local] Hint Resolve keeps_plain_refl keeps_plain_trans keeps_plain_request
  keeps_plain_now keeps_plain_get_transcript keeps_plain_get_result
  keeps_plain_set_transcript keeps_plain_set_error : vframe.

Ltac vframe_step :=
  match goal with
  | |- vframe _ (vbind _ _) => apply vframe_bind; [solve [eauto with vframe] | |intro]
  | |- vframe _ (except_exception _ _) =>
      apply vframe_except_exception; [solve [eauto with vframe] | |intro]
  | |- vframe _ (except_interrupt _ _) =>
      apply vframe_except_interrupt; [solve [eauto with vframe] | |]
  | |- vframe _ (try_finally _ _) =>
      apply vframe_try_finally; [solve [eauto with vframe] | |]
  | |- vframe _ (vret _) => apply vframe_ret; solve [eauto with vframe]
  | |- vframe _ (vraise _) => apply vframe_raise; solve [eauto with vframe]
  | |- vframe _ (update_result _) =>
      apply keeps_plain_update_result; intros ? [? ?]; split; assumption
  | |- vframe _ (if ?b then _ else _) => destruct b
  | |- vframe _ (match ?x with _ => _ end) => destruct x
  | |- vframe _ _ => solve [eauto with vframe]
  end.

Ltac vframe_all := repeat vframe_step.

Lemma keeps_plain_add_to_transcript (speaker message : string) :
  vframe keeps_plain (add_to_transcript speaker message).
Proof. unfold add_to_transcript. vframe_all. Qed.

Lemma keeps_plain_text_to_speech (text : string) :
  vframe keeps_plain (text_to_speech text).
Proof. unfold text_to_speech. vframe_all. Qed.

#[local] Hint Resolve keeps_plain_add_to_transcript keeps_plain_text_to_speech
  : vframe.

Lemma keeps_plain_conversation_turn (record_seconds : Z) :
  vframe keeps_plain (conversation_turn record_seconds).
Proof.
  unfold conversation_turn, record_audio, speech_to_text_with_gemini,
    get_gemini_response.
  vframe_all.
Qed.

#[local] Hint Resolve keeps_plain_conversation_turn : vframe.

Lemma keeps_plain_conversation (rounds : nat) (record_seconds : Z) :
  vframe keeps_plain (conversation rounds record_seconds).
Proof.
  induction rounds as [|rounds IH]; cbn [conversation]; [vframe_all|].
  apply vframe_bind; [eauto with vframe | vframe_all |].
  intros [|]; [vframe_all | exact IH].
Qed.

Lemma keeps_plain_wrap_up (auto_analyze save_transcript save_analysis : bool) :
  vframe keeps_plain (wrap_up auto_analyze save_transcript save_analysis).
Proof. unfold wrap_up, analyze_conversation. vframe_all. Qed.

#[local] Hint Resolve keeps_plain_conversation keeps_plain_wrap_up : vframe.

Lemma returns_held_bind {A} (m : VM A) (k : A -> VM (option VoiceResult)) :
  (forall a, returns_held (k a)) -> returns_held (vbind m k).
Proof.
  intros Hk s r s'. unfold vbind. destruct (m s) as [[a|e] s1]; [|discriminate].
  apply Hk.
Qed.

Lemma returns_held_except (body : VM (option VoiceResult))
      (handler : string -> VM (option VoiceResult)) :
  returns_held body -> (forall e, returns_held (handler e)) ->
  returns_held (except_exception body handler).
Proof.
  intros Hb Hh s r s'. unfold except_exception.
  destruct (body s) as [[a|[msg|]] s1] eqn:E.
  - rewrite <- E. apply Hb.
  - apply Hh.
  - discriminate.
Qed.

Lemma returns_held_result : returns_held (result <~ get_result ;; vret (Some result)).
Proof. intros s r s' H. injection H as <- <-. reflexivity. Qed.

Lemma returns_held_none : returns_held (vret None).
Proof. intros s r s' H. discriminate H. Qed.

(** What [voice_assistant] returns is the dictionary as the state holds
    it, and that dictionary is plain. *)
Lemma voice_assistant_plain (rounds : nat) (record_seconds : Z)
      (auto_analyze save_transcript save_analysis : bool) (s s' : Studio)
      (r : VoiceResult) :
  voice_assistant rounds record_seconds auto_analyze save_transcript save_analysis s
  = (VOk (Some r), s') ->
  plain_result r.
Proof.
  unfold voice_assistant. unfold vbind at 1, update_result at 1.
  set (s1 := mkStudio _ _ _ _ _ fresh_result).
  assert (Hplain : plain_result (s_result s1)) by (split; [|left]; reflexivity).
  clearbody s1.
  match goal with
  | |- ?m s1 = _ -> _ =>
      assert (Hframe : vframe keeps_plain m) by vframe_all;
      assert (Hheld : returns_held m)
  end.
  { apply returns_held_except.
    - repeat (apply returns_held_bind; intro).
      match goal with
      | |- returns_held (if ?b then _ else _) => destruct b
      end.
      + apply returns_held_bind. intro. apply returns_held_result.
      + apply returns_held_none.
    - intro. apply returns_held_bind. intro. apply returns_held_result. }
  intro H. rewrite (Hheld _ _ _ H).
  specialize (Hframe s1). rewrite H in Hframe. apply Hframe, Hplain.
Qed.

(** X27. [voice_assistant] never lets an exception out, whatever its
    surroundings do; only a keyboard interrupt passes.  Every dictionary
    it returns has a status of [success] or [error] and holds no action
    items: the analysis it obtains is a text, and the attempt to read
    action items from it fails inside the [try] block. *)
Theorem voice_assistant_result (rounds : nat) (record_seconds : Z)
        (auto_analyze save_transcript save_analysis : bool) (s : Studio) :
  (forall error_str,
      fst (voice_assistant rounds record_seconds auto_analyze save_transcript
                           save_analysis s)
      <> VRaise (VException error_str)) /\
  (forall r,
      fst (voice_assistant rounds record_seconds auto_analyze save_transcript
                           save_analysis s) = VOk (Some r) ->
      r_action_items r = None /\
      (r_status r = "success" \/ r_status r = "error")).
Proof.
  split.
  - intro error_str. unfold voice_assistant. unfold vbind at 1, update_result at 1.
    unfold except_exception.
    match goal with
    | |- context [match ?body ?st with _ => _ end] =>
        destruct (body st) as [[a|[msg|]] s2]
    end; cbn [fst]; discriminate.
  - intros r H.
    destruct (voice_assistant rounds record_seconds auto_analyze save_transcript
                              save_analysis s) as [res s'] eqn:E.
    cbn [fst] in H. subst res.
    exact (voice_assistant_plain _ _ _ _ _ _ _ _ E).
Qed.

(** X28. [main] of [make_it_happen_it_works.py] never builds or runs the
    agent: whatever is said and whatever the surroundings do, the world of
    the agent is left as it was, or with [.env] loaded by the import of
    the voice module, with nothing captured, posted or asked. *)
Theorem make_it_happen_never_runs_harvey (rounds : nat) (voice_importable : bool)
        (s : Studio) (w : World) :
  snd (make_it_happen_main rounds voice_importable s w)
  = (if voice_importable then load_dotenv w else w) /\
  w_log (snd (make_it_happen_main rounds voice_importable s w)) = w_log w /\
  w_captures (snd (make_it_happen_main rounds voice_importable s w)) = w_captures w /\
  w_gemini_calls (snd (make_it_happen_main rounds voice_importable s w))
  = w_gemini_calls w.
Proof.
  assert (H : snd (make_it_happen_main rounds voice_importable s w)
              = (if voice_importable then load_dotenv w else w)).
  { unfold make_it_happen_main. destruct voice_importable; [|reflexivity].
    cbn [negb].
    destruct (voice_assistant rounds 8 true true true s)
      as [[[r|]|[msg|]] s'] eqn:E; try reflexivity.
    destruct (voice_assistant_plain _ _ _ _ _ _ _ _ E) as [-> _]. reflexivity. }
  rewrite H. split; [reflexivity|].
  destruct voice_importable; repeat split; reflexivity.
Qed.

(** X29. When the conversation ends, [run_voice_and_harvey] runs the
    agent on the message of the last transcript entry spoken by the user,
    or on its stock task when there is none; the action-item branch is
    never taken. *)
Theorem simple_voice_task (rounds : nat) (s s' : Studio) (w : World)
        (r : VoiceResult) :
  voice_assistant rounds 8 true true true s = (VOk (Some r), s') ->
  run_voice_and_harvey rounds true s w =
  (Finished, s',
   run_harvey
     match user_messages (r_transcript r) with
     | [] => "Help me with a computer task"
     | entry :: rest => e_message (List.last rest entry)
     end
     (load_dotenv w)).
Proof.
  intro E. unfold run_voice_and_harvey. cbn [negb]. rewrite E.
  unfold simple_task.
  destruct (voice_assistant_plain _ _ _ _ _ _ _ _ E) as [-> _]. reflexivity.
Qed.

Lemma simple_voice_task_witness :
  run_voice_and_harvey 3 true notes_studio keyless_world =
  (Finished, snd (voice_assistant 3 8 true true true notes_studio),
   run_harvey
     match user_messages
             (r_transcript
                (mkVoiceResult
                   [mkEntry "t" "Gemini" greeting; mkEntry "t" "User" "Open Notes";
                    mkEntry "t" "Gemini" "I'll open Notes."]
                   (Some "conversation_transcript_t.json") (Some "1. Open Notes")
                   None "success" None)) with
     | [] => "Help me with a computer task"
     | entry :: rest => e_message (List.last rest entry)
     end
     (load_dotenv keyless_world)).
Proof.
  apply (simple_voice_task 3 notes_studio
           (snd (voice_assistant 3 8 true true true notes_studio)) keyless_world).
  vm_compute. reflexivity.
Defined.

(** X30. When the conversation ends, the pipeline of [voice_to_harvey.py]
    runs the agent in every case, also when the conversation failed: with
    a status other than [success] the agent is given the sentence
    [No valid conversation data available] as its task, and otherwise the
    last message of the user, or the stock task when there is none. *)
Theorem pipeline_task (rounds : nat) (s s' : Studio) (w : World) (r : VoiceResult) :
  voice_assistant rounds 10 true true true s = (VOk (Some r), s') ->
  run_voice_to_harvey_pipeline rounds s w =
  (Finished, s',
   run_harvey
     (if String.eqb (r_status r) "success"
      then match user_messages (r_transcript r) with
           | [] => "Please help me with a computer task"
           | entry :: rest => e_message (List.last rest entry)
           end
      else "No valid conversation data available")
     w).
Proof.
  intro E. unfold run_voice_to_harvey_pipeline. rewrite E.
  unfold extract_task_from_conversation.
  destruct (voice_assistant_plain _ _ _ _ _ _ _ _ E) as [-> _].
  destruct (String.eqb (r_status r) "success"); reflexivity.
Qed.

Lemma pipeline_task_witness :
  run_voice_to_harvey_pipeline 3 unreachable_studio keyless_world =
  (Finished, snd (voice_assistant 3 10 true true true unreachable_studio),
   run_harvey
     (if String.eqb (r_status (mkVoiceResult [] None None None "error" (Some "503")))
                    "success"
      then match user_messages
                   (r_transcript (mkVoiceResult [] None None None "error" (Some "503")))
           with
           | [] => "Please help me with a computer task"
           | entry :: rest => e_message (List.last rest entry)
           end
      else "No valid conversation data available")
     keyless_world).
Proof.
  apply (pipeline_task 3 unreachable_studio
           (snd (voice_assistant 3 10 true true true unreachable_studio))
           keyless_world).
  vm_compute. reflexivity.
Defined.
